(** * Windhawk engine: session private namespace, update checker and
    new-process injector

  A shallow embedding of
  - [src/windhawk/engine/session_private_namespace.cpp]
    (namespace [SessionPrivateNamespace] and, in the same file, the
    implementation of class [UpdateChecker]), and
  - [src/windhawk/engine/new_process_injector.h]
  together with the properties the specification states about them.

  Conventions.  A [DWORD], [USHORT] or [HRESULT] is a [Z] whose range is
  written out where it matters; a wide string is a [string]; an operation
  that can throw returns a [result]; Win32 and WinHTTP primitives are an
  explicit environment. *)

From Stdlib Require Import ZArith List String Ascii Bool Lia Arith.
Import ListNotations.

Local Open Scope string_scope.
Local Open Scope Z_scope.

(* ===================================================================== *)
(** * Part I: definitions                                                 *)
(* ===================================================================== *)

(** ** Calls that return or throw *)

Module Cpp.

(** The outcome of a call that may throw an exception of type [X]. *)
Inductive result (X A : Type) :=
| Ok (a : A)
| Throw (e : X).
Arguments Ok {X A} a.
Arguments Throw {X A} e.

End Cpp.

(** ** Machine integers and formatted output *)

Module Win32.

Definition DWORD_MAX : Z := 2 ^ 32 - 1.

(** A value is a [DWORD] when it fits 32 unsigned bits. *)
Definition is_DWORD (n : Z) : Prop := 0 <= n <= DWORD_MAX.

(** [static_cast<DWORD>(n)] from a wider unsigned type. *)
Definition to_DWORD (n : Z) : Z := n mod 2 ^ 32.

(** Reinterpretation of 32 bits as a signed [HRESULT] / [LONG]. *)
Definition to_LONG (n : Z) : Z :=
  let u := n mod 2 ^ 32 in
  if u <? 2 ^ 31 then u else u - 2 ^ 32.

(** The decimal digit [0..9] as a character. *)
Definition digit_char (d : Z) : ascii := ascii_of_nat (48 + Z.to_nat d).

(** The digit loop of the [%u] conversion (and of [std::to_wstring] on a
    non-negative value): least significant digit first, pushed in front
    of what was produced so far, until the quotient is zero.  [fuel]
    bounds the number of digits. *)
Fixpoint utoa_aux (fuel : nat) (n : Z) (acc : string) : string :=
  match fuel with
  | O => acc
  | S fuel' =>
      let acc' := String (digit_char (n mod 10)) acc in
      if n / 10 =? 0 then acc' else utoa_aux fuel' (n / 10) acc'
  end.

(** [%u] on a 32-bit unsigned value: at most ten digits. *)
Definition utoa (n : Z) : string := utoa_aux 10 n "".

(** Reading a decimal string back (used to state that [utoa] loses
    nothing). *)
Definition digit_val (c : ascii) : Z := Z.of_nat (nat_of_ascii c) - 48.

Fixpoint atou_aux (s : string) (acc : Z) : Z :=
  match s with
  | EmptyString => acc
  | String c s' => atou_aux s' (10 * acc + digit_val c)
  end.

Definition atou (s : string) : Z := atou_aux s 0.

(** [swprintf_s(buffer, sizeOfBuffer, format, ...)] once the format has
    been expanded to [formatted]: the text and its terminator must fit
    the buffer; then the text is stored and its length returned.
    Otherwise the buffer is set to the empty string and -1 is returned.
    The previous content of the buffer plays no role. *)
Definition swprintf_s (buffer : string) (sizeOfBuffer : nat)
    (formatted : string) : string * Z :=
  if (String.length formatted <? sizeOfBuffer)%nat
  then (formatted, Z.of_nat (String.length formatted))
  else (EmptyString, -1).

(** [SUCCEEDED(hr)] and [FAILED(hr)]. *)
Definition SUCCEEDED (hr : Z) : bool := 0 <=? hr.
Definition FAILED (hr : Z) : bool := hr <? 0.

Definition FACILITY_WIN32 : Z := 7.

(** [HRESULT_FROM_WIN32(x)], winerror.h. *)
Definition HRESULT_FROM_WIN32 (x : Z) : Z :=
  if to_LONG x <=? 0 then to_LONG x
  else to_LONG (Z.lor (Z.lor (Z.land x 65535)
                             (Z.shiftl FACILITY_WIN32 16))
                      2147483648).

Definition WINHTTP_ERROR_BASE : Z := 12000.
Definition ERROR_WINHTTP_INVALID_HEADER : Z := WINHTTP_ERROR_BASE + 153.
Definition S_OK : Z := 0.
Definition E_FAIL : Z := to_LONG 2147500037. (* 0x80004005 *)

End Win32.

(** ** The kernel objects behind private namespaces *)

Module Kernel.
Import Win32 Cpp.

(** A security identifier: the value of its identifier authority and its
    sub-authorities. *)
Record SID := mkSID {
  sid_authority : Z;
  sid_subauthorities : list Z
}.

Definition SECURITY_WORLD_SID_AUTHORITY : Z := 1.
Definition SECURITY_WORLD_RID : Z := 0.
Definition SECURITY_MANDATORY_LABEL_AUTHORITY : Z := 16.
Definition SECURITY_MANDATORY_MEDIUM_RID : Z := 8192. (* 0x2000 *)

(** The well-known SIDs S-1-1-0 (everyone) and S-1-16-8192 (medium
    mandatory level). *)
Definition WorldSid : SID :=
  mkSID SECURITY_WORLD_SID_AUTHORITY [SECURITY_WORLD_RID].
Definition MediumLabelSid : SID :=
  mkSID SECURITY_MANDATORY_LABEL_AUTHORITY [SECURITY_MANDATORY_MEDIUM_RID].

(** A boundary descriptor: its name, its creation flags, the SIDs added to
    it and the integrity labels added to it, in the order of addition. *)
Record BoundaryDescriptor := mkBoundary {
  bd_name : string;
  bd_flags : Z;
  bd_sids : list SID;
  bd_labels : list SID
}.

(** Modelled from the spec: [Functions::GetFullAccessSecurityDescriptor]
    lives in functions.cpp, which is not among the sources; the spec says
    it builds "a security descriptor granting full access to all
    principals".  [SD_Default] is what a null descriptor stands for. *)
Inductive SecurityDescriptor :=
| SD_Default
| SD_FullAccess.

Record SECURITY_ATTRIBUTES := mkSecAttr {
  lpSecurityDescriptor : SecurityDescriptor;
  bInheritHandle : bool
}.

(** A private namespace that exists in the system.  Its identity is its
    boundary descriptor. *)
Record Namespace := mkNamespace {
  ns_boundary : BoundaryDescriptor;
  ns_security : SecurityDescriptor
}.

(** What a namespace handle designates: the namespace, the alias prefix
    it was created or opened under, and whether closing the handle
    destroys the namespace ([unique_private_namespace_destroy]) or only
    closes it ([unique_private_namespace_close]). *)
Record NamespaceHandle := mkHandle {
  h_namespace : Namespace;
  h_alias : string;
  h_destroy_on_close : bool
}.

(** Allocations owned by the running code. *)
Inductive Resource :=
| RBoundaryDescriptor
| RSid
| RHLocal
| RPrivateNamespace.

(** The primitives, with the arguments they receive. *)
Inductive Call :=
| CallCreateBoundaryDescriptor (name : string) (flags : Z)
| CallAllocateAndInitializeSid (authority count sub0 : Z)
| CallAddSIDToBoundaryDescriptor (bd : BoundaryDescriptor) (sid : SID)
| CallAddIntegrityLabelToBoundaryDescriptor (bd : BoundaryDescriptor)
    (sid : SID)
| CallGetFullAccessSecurityDescriptor
| CallCreatePrivateNamespace (sa : SECURITY_ATTRIBUTES)
    (bd : BoundaryDescriptor) (alias : string)
| CallOpenPrivateNamespace (bd : BoundaryDescriptor) (alias : string).

(** The state of the system as the code can observe it. *)
Record OS := mkOS {
  os_namespaces : list Namespace;
  os_live : list Resource;
  os_calls : list Call
}.

(** Thrown by the [THROW_...] macros of WIL: the failure of the
    primitive called last. *)
Inductive exception :=
| ResultException (failed : option Call).

(** Code that runs against the system and may throw. *)
Definition M (A : Type) : Type := OS -> result exception A * OS.

Definition ret {A} (a : A) : M A := fun s => (Ok a, s).

Definition bind {A B} (m : M A) (k : A -> M B) : M B :=
  fun s => match m s with
           | (Ok a, s') => k a s'
           | (Throw e, s') => (Throw e, s')
           end.

Notation "x <- m ;; k" := (bind m (fun x => k))
  (at level 61, m at next level, right associativity).

Definition sid_eqb (a b : SID) : bool :=
  (sid_authority a =? sid_authority b)
  && (if list_eq_dec Z.eq_dec (sid_subauthorities a) (sid_subauthorities b)
      then true else false).

Fixpoint sids_eqb (l1 l2 : list SID) : bool :=
  match l1, l2 with
  | [], [] => true
  | a :: l1', b :: l2' => sid_eqb a b && sids_eqb l1' l2'
  | _, _ => false
  end.

Definition bd_eqb (a b : BoundaryDescriptor) : bool :=
  String.eqb (bd_name a) (bd_name b)
  && (bd_flags a =? bd_flags b)
  && sids_eqb (bd_sids a) (bd_sids b)
  && sids_eqb (bd_labels a) (bd_labels b).

Definition resource_eqb (a b : Resource) : bool :=
  match a, b with
  | RBoundaryDescriptor, RBoundaryDescriptor
  | RSid, RSid
  | RHLocal, RHLocal
  | RPrivateNamespace, RPrivateNamespace => true
  | _, _ => false
  end.

(** Releasing one allocation of a kind: the most recent one. *)
Fixpoint release_one (r : Resource) (l : list Resource) : list Resource :=
  match l with
  | [] => []
  | x :: l' => if resource_eqb r x then l' else x :: release_one r l'
  end.

Definition acquire (r : Resource) (s : OS) : OS :=
  mkOS (os_namespaces s) (r :: os_live s) (os_calls s).

Definition release (r : Resource) (s : OS) : OS :=
  mkOS (os_namespaces s) (release_one r (os_live s)) (os_calls s).

(** The namespace with a given boundary, when it exists. *)
Definition find_namespace (bd : BoundaryDescriptor) (l : list Namespace)
    : option Namespace :=
  find (fun ns => bd_eqb bd (ns_boundary ns)) l.

(** The state once a primitive call has been recorded. *)
Definition logged (c : Call) (s : OS) : OS :=
  mkOS (os_namespaces s) (os_live s) (os_calls s ++ [c]).

Section Primitives.

(** Which primitive calls fail for a reason of the system's own (no
    memory, no quota, ...): the n-th call made since the system started
    fails when [faults n] holds. *)
Variable faults : nat -> bool.

(** Every primitive is recorded, and asks [faults] whether it fails. *)
Definition invoke (c : Call) : OS -> bool * OS :=
  fun s => (faults (List.length (os_calls s)), logged c s).

(** [CreateBoundaryDescriptor(Name, Flags)]: a fresh descriptor with no
    SID, or NULL. *)
Definition CreateBoundaryDescriptor (name : string) (flags : Z)
    : OS -> option BoundaryDescriptor * OS :=
  fun s =>
    let (failed, s1) := invoke (CallCreateBoundaryDescriptor name flags) s in
    if failed then (None, s1)
    else (Some (mkBoundary name flags [] []), acquire RBoundaryDescriptor s1).

(** [AllocateAndInitializeSid(pAuthority, nSubAuthorityCount, sub0, 0...,
    &pSid)] with at most one sub-authority, as the code calls it. *)
Definition AllocateAndInitializeSid (authority count sub0 : Z)
    : OS -> option SID * OS :=
  fun s =>
    let (failed, s1) :=
      invoke (CallAllocateAndInitializeSid authority count sub0) s in
    if failed then (None, s1)
    else (Some (mkSID authority (firstn (Z.to_nat count) [sub0])),
          acquire RSid s1).

(** [AddSIDToBoundaryDescriptor(&BoundaryDescriptor, RequiredSid)]: the
    descriptor with the SID added, or failure with the descriptor as it
    was. *)
Definition AddSIDToBoundaryDescriptor (bd : BoundaryDescriptor) (sid : SID)
    : OS -> option BoundaryDescriptor * OS :=
  fun s =>
    let (failed, s1) := invoke (CallAddSIDToBoundaryDescriptor bd sid) s in
    if failed then (None, s1)
    else (Some (mkBoundary (bd_name bd) (bd_flags bd)
                           (bd_sids bd ++ [sid]) (bd_labels bd)), s1).

(** [AddIntegrityLabelToBoundaryDescriptor(&BoundaryDescriptor,
    IntegrityLabel)]. *)
Definition AddIntegrityLabelToBoundaryDescriptor (bd : BoundaryDescriptor)
    (sid : SID) : OS -> option BoundaryDescriptor * OS :=
  fun s =>
    let (failed, s1) :=
      invoke (CallAddIntegrityLabelToBoundaryDescriptor bd sid) s in
    if failed then (None, s1)
    else (Some (mkBoundary (bd_name bd) (bd_flags bd)
                           (bd_sids bd) (bd_labels bd ++ [sid])), s1).

(** Modelled from the spec: [Functions::GetFullAccessSecurityDescriptor]
    (functions.cpp is not among the sources) builds a security descriptor
    granting full access to all principals in memory the caller frees
    with [LocalFree], or fails. *)
Definition GetFullAccessSecurityDescriptor
    : OS -> option SecurityDescriptor * OS :=
  fun s =>
    let (failed, s1) := invoke CallGetFullAccessSecurityDescriptor s in
    if failed then (None, s1)
    else (Some SD_FullAccess, acquire RHLocal s1).

(** [CreatePrivateNamespace(lpPrivateNamespaceAttributes,
    lpBoundaryDescriptor, lpAliasPrefix)]: fails when a namespace with
    this boundary exists already; otherwise the namespace comes into
    existence. *)
Definition CreatePrivateNamespace (sa : SECURITY_ATTRIBUTES)
    (bd : BoundaryDescriptor) (alias : string)
    : OS -> option Namespace * OS :=
  fun s =>
    let (failed, s1) := invoke (CallCreatePrivateNamespace sa bd alias) s in
    if failed then (None, s1)
    else match find_namespace bd (os_namespaces s1) with
         | Some _ => (None, s1)
         | None =>
             let ns := mkNamespace bd (lpSecurityDescriptor sa) in
             (Some ns,
              acquire RPrivateNamespace
                (mkOS (ns :: os_namespaces s1) (os_live s1) (os_calls s1)))
         end.

(** [OpenPrivateNamespace(lpBoundaryDescriptor, lpAliasPrefix)]: the
    existing namespace with this boundary, or NULL. *)
Definition OpenPrivateNamespace (bd : BoundaryDescriptor) (alias : string)
    : OS -> option Namespace * OS :=
  fun s =>
    let (failed, s1) := invoke (CallOpenPrivateNamespace bd alias) s in
    if failed then (None, s1)
    else match find_namespace bd (os_namespaces s1) with
         | Some ns => (Some ns, acquire RPrivateNamespace s1)
         | None => (None, s1)
         end.

(** [THROW_LAST_ERROR_IF_NULL] and [THROW_IF_WIN32_BOOL_FALSE] around a
    primitive: its value, or an exception naming the call that was just
    made. *)
Definition throw_if_failed {A} (prim : OS -> option A * OS) : M A :=
  fun s => match prim s with
           | (Some a, s') => (Ok a, s')
           | (None, s') =>
               (Throw (ResultException (hd_error (rev (os_calls s')))), s')
           end.

End Primitives.

(** A [wil::unique_...] local: released when its scope is left, whether
    by return or by exception. *)
Definition scoped {A} (r : Resource) (body : M A) : M A :=
  fun s => let (x, s') := body s in (x, release r s').

(** A [wil::unique_...] that is returned to the caller: released only
    when the scope is left by exception. *)
Definition returned {A} (r : Resource) (body : M A) : M A :=
  fun s => match body s with
           | (Ok a, s') => (Ok a, s')
           | (Throw e, s') => (Throw e, release r s')
           end.

End Kernel.

(** ** session_private_namespace.cpp *)

Module SessionPrivateNamespace.
Import Win32.

(** Modelled from the spec: [kPrivateNamespaceMaxLen] is declared in
    session_private_namespace.h, which is not among the sources.  Its
    value is the one the [static_assert] of [MakeName] forces:
    [kPrivateNamespaceMaxLen + 1 == sizeof("WindhawkSession1234567890")]. *)
Definition kPrivateNamespaceMaxLen : nat := 25.

(** [sizeof] of a narrow string literal: its characters and the
    terminator. *)
Definition sizeof_literal (s : string) : nat := S (String.length s).

(** [MakeName(szPrivateNamespaceName, dwSessionManagerProcessId)].
    The first component of the result is the buffer after the call, the
    second the returned [int]. *)
Definition MakeName (szPrivateNamespaceName : string)
    (dwSessionManagerProcessId : Z) : string * Z :=
  swprintf_s szPrivateNamespaceName (kPrivateNamespaceMaxLen + 1)
             ("WindhawkSession" ++ utoa dwSessionManagerProcessId).

(** The part of the name after the literal prefix. *)
Definition decimal_field (name : string) : string :=
  substring 15 (String.length name - 15) name.


Section Operations.
Import Cpp Kernel.

Variable faults : nat -> bool.

(** [BuildBoundaryDescriptor(descriptorName)], anonymous namespace. *)
Definition BuildBoundaryDescriptor (descriptorName : string)
    : M BoundaryDescriptor :=
  boundaryDesc <- throw_if_failed
                    (CreateBoundaryDescriptor faults descriptorName 0) ;;
  returned RBoundaryDescriptor (
    boundaryDesc <- (
      pSID <- throw_if_failed
                (AllocateAndInitializeSid faults
                   SECURITY_WORLD_SID_AUTHORITY 1 SECURITY_WORLD_RID) ;;
      scoped RSid (
        throw_if_failed
          (AddSIDToBoundaryDescriptor faults boundaryDesc pSID))) ;;
    boundaryDesc <- (
      pSID <- throw_if_failed
                (AllocateAndInitializeSid faults
                   SECURITY_MANDATORY_LABEL_AUTHORITY 1
                   SECURITY_MANDATORY_MEDIUM_RID) ;;
      scoped RSid (
        throw_if_failed
          (AddIntegrityLabelToBoundaryDescriptor faults boundaryDesc pSID))) ;;
    ret boundaryDesc).

(** [Create(dwSessionManagerProcessId)].  The buffer starts with whatever
    the stack holds ([stack]); the value [MakeName] returns is not
    looked at. *)
Definition Create (stack : string) (dwSessionManagerProcessId : Z)
    : M NamespaceHandle :=
  let szPrivateNamespaceName :=
    fst (MakeName stack dwSessionManagerProcessId) in
  boundaryDesc <- BuildBoundaryDescriptor szPrivateNamespaceName ;;
  scoped RBoundaryDescriptor (
    secDesc <- throw_if_failed (GetFullAccessSecurityDescriptor faults) ;;
    scoped RHLocal (
      let secAttr := mkSecAttr secDesc false in
      privateNamespace <- throw_if_failed
        (CreatePrivateNamespace faults secAttr boundaryDesc
                                szPrivateNamespaceName) ;;
      ret (mkHandle privateNamespace szPrivateNamespaceName true))).

(** [Open(dwSessionManagerProcessId)]. *)
Definition Open (stack : string) (dwSessionManagerProcessId : Z)
    : M NamespaceHandle :=
  let szPrivateNamespaceName :=
    fst (MakeName stack dwSessionManagerProcessId) in
  boundaryDesc <- BuildBoundaryDescriptor szPrivateNamespaceName ;;
  scoped RBoundaryDescriptor (
    privateNamespace <- throw_if_failed
      (OpenPrivateNamespace faults boundaryDesc szPrivateNamespaceName) ;;
    ret (mkHandle privateNamespace szPrivateNamespaceName false)).

End Operations.

(** The boundary descriptor of a name: that name, no flags, the SID of
    everyone and the medium integrity label. *)
Definition boundary_of (name : string) : Kernel.BoundaryDescriptor :=
  Kernel.mkBoundary name 0 [Kernel.WorldSid] [Kernel.MediumLabelSid].

(** The primitives [BuildBoundaryDescriptor], [Create] and [Open] go
    through when none fails, with their arguments. *)
Definition BuildBoundaryDescriptor_calls (name : string)
    : list Kernel.Call :=
  [Kernel.CallCreateBoundaryDescriptor name 0;
   Kernel.CallAllocateAndInitializeSid
     Kernel.SECURITY_WORLD_SID_AUTHORITY 1 Kernel.SECURITY_WORLD_RID;
   Kernel.CallAddSIDToBoundaryDescriptor
     (Kernel.mkBoundary name 0 [] []) Kernel.WorldSid;
   Kernel.CallAllocateAndInitializeSid
     Kernel.SECURITY_MANDATORY_LABEL_AUTHORITY 1
     Kernel.SECURITY_MANDATORY_MEDIUM_RID;
   Kernel.CallAddIntegrityLabelToBoundaryDescriptor
     (Kernel.mkBoundary name 0 [Kernel.WorldSid] []) Kernel.MediumLabelSid].

Definition Create_calls (name : string) : list Kernel.Call :=
  (BuildBoundaryDescriptor_calls name
   ++ [Kernel.CallGetFullAccessSecurityDescriptor;
       Kernel.CallCreatePrivateNamespace
         (Kernel.mkSecAttr Kernel.SD_FullAccess false)
         (boundary_of name) name])%list.

Definition Open_calls (name : string) : list Kernel.Call :=
  (BuildBoundaryDescriptor_calls name
   ++ [Kernel.CallOpenPrivateNamespace (boundary_of name) name])%list.

(** None of the [count] primitive calls made from call number [from] on
    fails for a reason of the system's own. *)
Definition no_faults (faults : nat -> bool) (from count : nat) : Prop :=
  forall j, (j < count)%nat -> faults (from + j)%nat = false.

(** The [k]-th of these calls is the first that fails. *)
Definition first_fault (faults : nat -> bool) (from k : nat) : Prop :=
  no_faults faults from k /\ faults (from + k)%nat = true.

End SessionPrivateNamespace.


(** ** update_checker.cpp (second half of the source file) *)

Module UpdateChecker.
Import Win32 Cpp.

Definition kUpdateCheckerUrl : string :=
  "https://update.windhawk.net/versions.json".

Definition IMAGE_FILE_MACHINE_UNKNOWN : Z := 0.
Definition IMAGE_FILE_MACHINE_I386 : Z := 332.    (* 0x014c *)
Definition IMAGE_FILE_MACHINE_AMD64 : Z := 34404. (* 0x8664 *)

(** The architecture the engine is compiled for ([_M_IX86], [_M_X64] or
    anything else). *)
Inductive Target :=
| M_IX86
| M_X64
| M_OTHER.

(** Thrown inside the update checker; every one of these derives from
    [std::exception]. *)
Inductive exception :=
| ResultException (hr : Z)
| bad_alloc
| std_exception (message : string).

Definition what (e : exception) : string :=
  match e with
  | ResultException _ => "ResultException"
  | bad_alloc => "bad allocation"
  | std_exception m => m
  end.

(** Modelled from the spec: [CWinHTTPSimpleOptions] is declared by the
    WinHTTP wrapper, which is not among the sources.  The fields are the
    ones [GetUpdateCheckerOptions] assigns; [lpOptional] is the buffer the
    pointer designates, [None] for a null pointer. *)
Record CWinHTTPSimpleOptions := mkOptions {
  sURL : string;
  sUserAgent : string;
  sVerb : string;
  lpOptional : option string;
  dwOptionalSize : Z
}.

(** Modelled from the spec: a default-constructed [CWinHTTPSimpleOptions]
    (declared by the WinHTTP wrapper, not among the sources) asks for a GET
    without a body: "otherwise the primary request is a GET". *)
Definition default_options : CWinHTTPSimpleOptions :=
  mkOptions "" "" "GET" None 0.

(** The completion routines the update checker hands to [SendRequest]:
    [[this] { OnRequestDone(); }] and [[this] { m_onUpdateCheckDone(); }]. *)
Inductive Completion :=
| CbOnRequestDone
| CbUpdateCheckDone.

(** What the transport ends an exchange with. *)
Record Reply := mkReply {
  reply_hr : Z;
  reply_status : Z;
  reply_body : string
}.

(** Modelled from the spec: a [CWinHTTPSimple] object (the WinHTTP
    wrapper is not among the sources), as far as the update checker looks
    at it: what it was constructed with, the headers added, the completion
    routine registered by an asynchronous [SendRequest], what
    [GetRequestResult], [GetLastStatusCode] and [GetResponse] return, and
    how many times [Abort] was called on it. *)
Record CWinHTTPSimple := mkHttp {
  http_options : CWinHTTPSimpleOptions;
  http_asynchronous : bool;
  http_headers : list string;
  http_sent : bool;
  http_onDone : option Completion;
  GetRequestResult : Z;
  GetLastStatusCode : Z;
  GetResponse : string;
  http_aborts : nat
}.

(** Everything the update checker takes from outside. *)
Record Environment := mkEnvironment {
  (* version.h and update_checker.h *)
  VER_FILE_VERSION_WSTR : string;
  kFlagPortable : Z;
  (* the machine *)
  target : Target;
  kernel32Module : bool;
  pIsWow64Process2 : option (option Z);
  IsWow64Process : option bool;
  (* UserProfile; the merge applies a body to the local persisted
     state, which the bodies applied before have shaped: it is given
     those bodies, oldest first, and the new one *)
  GetLocalUpdatedContentAsString : string;
  UpdateStatus : Type;
  UpdateStatus_zero : UpdateStatus;
  UpdateContentWithOnlineData :
    list string -> string -> result exception UpdateStatus;
  (* the WinHTTP wrapper and the network *)
  CWinHTTPSimple_throws : CWinHTTPSimpleOptions -> bool -> option exception;
  AddHeaders_result : string -> Z;
  SendRequest_result : CWinHTTPSimpleOptions -> Z;
  transport : CWinHTTPSimpleOptions -> list string -> Reply;
  (* whether [SendRequest(nullptr)] on the fallback exchange returns
     only when that exchange is over *)
  fallback_awaited : bool
}.

(** [UpdateChecker::Result]. *)
Record Result (E : Environment) := mkResult {
  hrError : Z;
  httpStatusCode : Z;
  updateStatus : UpdateStatus E
}.
Arguments mkResult {E} _ _ _.
Arguments hrError {E} _.
Arguments httpStatusCode {E} _.
Arguments updateStatus {E} _.

(** The members of [UpdateChecker] (the mutex is part of the concurrent
    semantics below), followed by three observations: how many times
    [m_onUpdateCheckDone] was invoked, what was logged, and the bodies
    handed to [UserProfile::UpdateContentWithOnlineData]. *)
Record UpdateChecker := mkUpdateChecker {
  m_flags : Z;
  m_postedData : string;
  m_httpSimple : CWinHTTPSimple;
  m_onUpdateCheckDone : bool;
  m_aborted : bool;
  m_httpSimpleGetRequest : option CWinHTTPSimple;
  done_calls : nat;
  logged : list string;
  merged : list string
}.

Definition set_httpSimple (x : CWinHTTPSimple) (uc : UpdateChecker) :=
  mkUpdateChecker (m_flags uc) (m_postedData uc) x (m_onUpdateCheckDone uc)
    (m_aborted uc) (m_httpSimpleGetRequest uc) (done_calls uc) (logged uc)
    (merged uc).

Definition set_aborted (b : bool) (uc : UpdateChecker) :=
  mkUpdateChecker (m_flags uc) (m_postedData uc) (m_httpSimple uc)
    (m_onUpdateCheckDone uc) b (m_httpSimpleGetRequest uc) (done_calls uc)
    (logged uc) (merged uc).

Definition set_httpSimpleGetRequest (g : option CWinHTTPSimple)
    (uc : UpdateChecker) :=
  mkUpdateChecker (m_flags uc) (m_postedData uc) (m_httpSimple uc)
    (m_onUpdateCheckDone uc) (m_aborted uc) g (done_calls uc) (logged uc)
    (merged uc).

(** [m_onUpdateCheckDone()]. *)
Definition invoke_onUpdateCheckDone (uc : UpdateChecker) :=
  mkUpdateChecker (m_flags uc) (m_postedData uc) (m_httpSimple uc)
    (m_onUpdateCheckDone uc) (m_aborted uc) (m_httpSimpleGetRequest uc)
    (S (done_calls uc)) (logged uc) (merged uc).

(** [LOG(...)]. *)
Definition LOG (line : string) (uc : UpdateChecker) :=
  mkUpdateChecker (m_flags uc) (m_postedData uc) (m_httpSimple uc)
    (m_onUpdateCheckDone uc) (m_aborted uc) (m_httpSimpleGetRequest uc)
    (done_calls uc) (logged uc ++ [line]) (merged uc).

Definition note_merged (body : string) (uc : UpdateChecker) :=
  mkUpdateChecker (m_flags uc) (m_postedData uc) (m_httpSimple uc)
    (m_onUpdateCheckDone uc) (m_aborted uc) (m_httpSimpleGetRequest uc)
    (done_calls uc) (logged uc) (merged uc ++ [body]).

(** [CWinHTTPSimple::Abort()]. *)
Definition http_Abort (x : CWinHTTPSimple) : CWinHTTPSimple :=
  mkHttp (http_options x) (http_asynchronous x) (http_headers x)
    (http_sent x) (http_onDone x) (GetRequestResult x)
    (GetLastStatusCode x) (GetResponse x) (S (http_aborts x)).

Section WithEnvironment.

Variable E : Environment.

(** [GetNativeMachineImpl()]. *)
Definition GetNativeMachineImpl : Z :=
  let pIsWow64Process2 :=
    if kernel32Module E then pIsWow64Process2 E else None in
  match pIsWow64Process2 with
  | Some call =>
      match call with
      | Some nativeMachine => nativeMachine
      | None => IMAGE_FILE_MACHINE_UNKNOWN
      end
  | None =>
      match target E with
      | M_IX86 =>
          match IsWow64Process E with
          | Some isWow64Process =>
              if isWow64Process then IMAGE_FILE_MACHINE_AMD64
              else IMAGE_FILE_MACHINE_I386
          | None => IMAGE_FILE_MACHINE_UNKNOWN
          end
      | M_X64 => IMAGE_FILE_MACHINE_AMD64
      | M_OTHER => IMAGE_FILE_MACHINE_UNKNOWN
      end
  end.

(** [GetNativeMachine()]: the function-local static is initialised once
    with [GetNativeMachineImpl()]. *)
Definition GetNativeMachine : Z := GetNativeMachineImpl.

(** [GetUpdateCheckerOptions(flags, postData, postDataSize)].
    [postDataSize] is a [size_t]; the assignment to [dwOptionalSize]
    casts it to [DWORD]. *)
Definition GetUpdateCheckerOptions (flags : Z) (postData : option string)
    (postDataSize : Z) : CWinHTTPSimpleOptions :=
  let userAgent := "Windhawk/" ++ VER_FILE_VERSION_WSTR E ++ " (" in
  let userAgent := userAgent ++ utoa GetNativeMachine in
  let userAgent :=
    if negb (Z.land flags (kFlagPortable E) =? 0)
    then userAgent ++ "; portable" else userAgent in
  let userAgent := userAgent ++ ")" in
  let options :=
    mkOptions kUpdateCheckerUrl userAgent (sVerb default_options)
              (lpOptional default_options)
              (dwOptionalSize default_options) in
  match postData with
  | Some data =>
      if 0 <? postDataSize
      then mkOptions (sURL options) (sUserAgent options) "POST"
                     (Some data) (to_DWORD postDataSize)
      else options
  | None => options
  end.

(** Construction of a [CWinHTTPSimple], in place or by
    [std::make_unique]. *)
Definition new_CWinHTTPSimple (options : CWinHTTPSimpleOptions)
    (asynchronous : bool) : result exception CWinHTTPSimple :=
  match CWinHTTPSimple_throws E options asynchronous with
  | Some e => Throw e
  | None => Ok (mkHttp options asynchronous [] false None 0 0 "" 0)
  end.

(** [AddHeaders(headers, -1L, WINHTTP_ADDREQ_FLAG_ADD)]. *)
Definition AddHeaders (header : string) (x : CWinHTTPSimple)
    : CWinHTTPSimple * Z :=
  let hr := AddHeaders_result E header in
  if FAILED hr then (x, hr)
  else (mkHttp (http_options x) (http_asynchronous x)
               (http_headers x ++ [header]) (http_sent x) (http_onDone x)
               (GetRequestResult x) (GetLastStatusCode x) (GetResponse x)
               (http_aborts x), hr).

(** The transport finishes an exchange: the outcome becomes readable. *)
Definition complete (x : CWinHTTPSimple) : CWinHTTPSimple :=
  let r := transport E (http_options x) (http_headers x) in
  mkHttp (http_options x) (http_asynchronous x) (http_headers x)
    (http_sent x) (http_onDone x) (reply_hr r) (reply_status r)
    (reply_body r) (http_aborts x).

(** Modelled from the spec (the wrapper is not among the sources):
    [SendRequest(nullptr)] on the primary exchange of the synchronous
    constructor, which "blocks synchronously for the primary request":
    the request is issued and the call returns when the exchange is
    over. *)
Definition SendRequest_sync (x : CWinHTTPSimple) : CWinHTTPSimple * Z :=
  let x' := complete
    (mkHttp (http_options x) (http_asynchronous x) (http_headers x) true
       None (GetRequestResult x) (GetLastStatusCode x) (GetResponse x)
       (http_aborts x)) in
  (x', GetRequestResult x').

(** Modelled from the spec: [SendRequest(nullptr)] on the fallback
    exchange of the synchronous constructor.  The wrapper is not among
    the sources, and of this call the spec says that the fallback "is
    also issued synchronously before returning control, but its own
    completion is not separately awaited": the request is issued in
    every case, and whether its outcome is readable when the call
    returns is the environment's [fallback_awaited].  When it is not,
    the object shows what it showed before the call. *)
Definition SendRequest_sync_fallback (x : CWinHTTPSimple)
    : CWinHTTPSimple * Z :=
  if fallback_awaited E then SendRequest_sync x
  else
    let x' :=
      mkHttp (http_options x) (http_asynchronous x) (http_headers x) true
        None (GetRequestResult x) (GetLastStatusCode x) (GetResponse x)
        (http_aborts x) in
    (x', GetRequestResult x').

(** [SendRequest(callback)] on an asynchronous object: starts the
    exchange and registers the completion routine, or fails to start. *)
Definition SendRequest_async (callback : Completion) (x : CWinHTTPSimple)
    : CWinHTTPSimple * Z :=
  let hr := SendRequest_result E (http_options x) in
  if FAILED hr then (x, hr)
  else (mkHttp (http_options x) (http_asynchronous x) (http_headers x) true
          (Some callback) (GetRequestResult x) (GetLastStatusCode x)
          (GetResponse x) (http_aborts x), hr).

(** [UpdateChecker::ShouldRetryWithAGetRequest()]. *)
Definition ShouldRetryWithAGetRequest (uc : UpdateChecker) : bool :=
  (GetRequestResult (m_httpSimple uc)
     =? HRESULT_FROM_WIN32 ERROR_WINHTTP_INVALID_HEADER)
  && (GetLastStatusCode (m_httpSimple uc) =? 405).

(** The constructor, [UpdateChecker::UpdateChecker(flags,
    onUpdateCheckDone)]; [onUpdateCheckDone] says whether the
    [std::function] holds a target. *)
Definition construct (flags : Z) (onUpdateCheckDone : bool)
    : result exception UpdateChecker :=
  let postedData := GetLocalUpdatedContentAsString E in
  match new_CWinHTTPSimple
          (GetUpdateCheckerOptions flags (Some postedData)
             (Z.of_nat (String.length postedData)))
          onUpdateCheckDone with
  | Throw e => Throw e
  | Ok httpSimple =>
      let uc := mkUpdateChecker flags postedData httpSimple
                  onUpdateCheckDone false None 0 [] [] in
      let headers :=
        if negb (String.eqb postedData "")
        then let (x, hr) := AddHeaders "Content-Type: application/json"
                              (m_httpSimple uc) in
             if FAILED hr then Throw (ResultException hr)
             else Ok (set_httpSimple x uc)
        else Ok uc in
      match headers with
      | Throw e => Throw e
      | Ok uc =>
          if m_onUpdateCheckDone uc then
            let (x, hr) := SendRequest_async CbOnRequestDone
                             (m_httpSimple uc) in
            if FAILED hr then Throw (ResultException hr)
            else Ok (set_httpSimple x uc)
          else
            let (x, _) := SendRequest_sync (m_httpSimple uc) in
            let uc := set_httpSimple x uc in
            if ShouldRetryWithAGetRequest uc then
              match new_CWinHTTPSimple
                      (GetUpdateCheckerOptions (m_flags uc) None 0)
                      false with
              | Throw e => Throw e
              | Ok get =>
                  let (get, _) := SendRequest_sync_fallback get in
                  Ok (set_httpSimpleGetRequest (Some get) uc)
              end
            else Ok uc
      end
  end.

(** [UpdateChecker::Abort()]: its three statements. *)
Definition Abort_flag (uc : UpdateChecker) : UpdateChecker :=
  set_aborted true uc.

Definition Abort_primary (uc : UpdateChecker) : UpdateChecker :=
  set_httpSimple (http_Abort (m_httpSimple uc)) uc.

Definition Abort_fallback (uc : UpdateChecker) : UpdateChecker :=
  match m_httpSimpleGetRequest uc with
  | Some get => set_httpSimpleGetRequest (Some (http_Abort get)) uc
  | None => uc
  end.

Definition Abort (uc : UpdateChecker) : UpdateChecker :=
  Abort_fallback (Abort_primary (Abort_flag uc)).

(** [UpdateChecker::HandleResponse()]. *)
Definition HandleResponse (uc : UpdateChecker) : Result E * UpdateChecker :=
  let httpSimple :=
    match m_httpSimpleGetRequest uc with
    | Some get => get
    | None => m_httpSimple uc
    end in
  let result :=
    mkResult (GetRequestResult httpSimple) (GetLastStatusCode httpSimple)
             (UpdateStatus_zero E) in
  if SUCCEEDED (hrError result) then
    let response := GetResponse httpSimple in
    match UpdateContentWithOnlineData E (merged uc) response with
    | Ok status =>
        (mkResult (hrError result) (httpStatusCode result) status,
         note_merged response uc)
    | Throw e =>
        (mkResult E_FAIL (httpStatusCode result) (updateStatus result),
         LOG ("Handling server response failed: " ++ what e)
             (note_merged response uc))
    end
  else (result, uc).

(** The [try] block of [OnRequestDone]: the outcome and the state it
    leaves. *)
Definition OnRequestDone_new (uc : UpdateChecker)
    : result exception unit * UpdateChecker :=
  match new_CWinHTTPSimple (GetUpdateCheckerOptions (m_flags uc) None 0)
                           true with
  | Throw e => (Throw e, uc)
  | Ok get => (Ok tt, set_httpSimpleGetRequest (Some get) uc)
  end.

Definition OnRequestDone_send (uc : UpdateChecker)
    : result exception unit * UpdateChecker :=
  match m_httpSimpleGetRequest uc with
  | Some get =>
      let (get, hr) := SendRequest_async CbUpdateCheckDone get in
      if FAILED hr
      then (Throw (ResultException hr),
            set_httpSimpleGetRequest (Some get) uc)
      else (Ok tt, set_httpSimpleGetRequest (Some get) uc)
  | None => (Ok tt, uc)
  end.

Definition OnRequestDone_try (uc : UpdateChecker)
    : result exception unit * UpdateChecker :=
  match OnRequestDone_new uc with
  | (Throw e, uc) => (Throw e, uc)
  | (Ok _, uc) => OnRequestDone_send uc
  end.

(** The [catch] block of [OnRequestDone]. *)
Definition OnRequestDone_catch (e : exception) (uc : UpdateChecker)
    : UpdateChecker :=
  invoke_onUpdateCheckDone
    (LOG ("Get request failed: " ++ what e)
         (set_httpSimpleGetRequest None uc)).

(** [UpdateChecker::OnRequestDone()], run without interference. *)
Definition OnRequestDone (uc : UpdateChecker) : UpdateChecker :=
  if ShouldRetryWithAGetRequest uc && negb (m_aborted uc) then
    if negb (m_aborted uc) then
      match OnRequestDone_try uc with
      | (Ok _, uc) => uc
      | (Throw e, uc) => OnRequestDone_catch e uc
      end
    else invoke_onUpdateCheckDone uc
  else invoke_onUpdateCheckDone uc.

(** The transport finishes the primary exchange and runs the completion
    routine registered for it. *)
Definition run_completion (cb : Completion) (uc : UpdateChecker)
    : UpdateChecker :=
  match cb with
  | CbOnRequestDone => OnRequestDone uc
  | CbUpdateCheckDone => invoke_onUpdateCheckDone uc
  end.

Definition primary_completes (uc : UpdateChecker) : UpdateChecker :=
  match http_onDone (m_httpSimple uc) with
  | Some cb =>
      run_completion cb (set_httpSimple (complete (m_httpSimple uc)) uc)
  | None => uc
  end.

(** The transport finishes the fallback exchange, when one is under
    way, and runs the completion routine registered for it. *)
Definition fallback_completes (uc : UpdateChecker) : UpdateChecker :=
  match m_httpSimpleGetRequest uc with
  | Some get =>
      match http_onDone get with
      | Some cb =>
          run_completion cb
            (set_httpSimpleGetRequest (Some (complete get)) uc)
      | None => uc
      end
  | None => uc
  end.

(** The transport finishes the fallback exchange of a synchronous
    round, which has no completion routine: its outcome becomes
    readable. *)
Definition sync_fallback_completes (uc : UpdateChecker) : UpdateChecker :=
  match m_httpSimpleGetRequest uc with
  | Some get => set_httpSimpleGetRequest (Some (complete get)) uc
  | None => uc
  end.

End WithEnvironment.

End UpdateChecker.

(** ** Two concrete set-ups *)

Module Scenario.
Import Win32 Cpp UpdateChecker.

(** A server that rejects POST with 405 (which the transport reports as
    an invalid header) and answers GET with 200. *)
Definition rejects_post (options : CWinHTTPSimpleOptions)
    (headers : list string) : Reply :=
  if String.eqb (sVerb options) "POST"
  then mkReply (HRESULT_FROM_WIN32 ERROR_WINHTTP_INVALID_HEADER) 405 ""
  else mkReply S_OK 200 "[]".

(** A merge that rejects an empty body, answers 1 for a body it
    applies for the first time and 0 for one it has applied before. *)
Definition merge (applied : list string) (body : string)
    : result exception Z :=
  if String.eqb body "" then Throw (std_exception "empty response")
  else if existsb (String.eqb body) applied then Ok 0
  else Ok 1.

(** An x64 engine, version 1.6, with usage data to report, talking to
    the server above; nothing else fails. *)
Definition reporting : Environment :=
  mkEnvironment "1.6" 1 M_X64 true (Some (Some IMAGE_FILE_MACHINE_AMD64))
    None "[1,2,3]" Z 0 merge (fun _ _ => None) (fun _ => S_OK)
    (fun _ => S_OK) rejects_post true.

(** The same with nothing to report. *)
Definition silent : Environment :=
  mkEnvironment "1.6" 1 M_X64 true (Some (Some IMAGE_FILE_MACHINE_AMD64))
    None "" Z 0 merge (fun _ _ => None) (fun _ => S_OK)
    (fun _ => S_OK) rejects_post true.

(** The first with a wrapper whose synchronous [SendRequest] does not
    wait for the fallback exchange. *)
Definition reporting_unawaited : Environment :=
  mkEnvironment "1.6" 1 M_X64 true (Some (Some IMAGE_FILE_MACHINE_AMD64))
    None "[1,2,3]" Z 0 merge (fun _ _ => None) (fun _ => S_OK)
    (fun _ => S_OK) rejects_post false.


(** A portable x86 engine, version 1.6, under WOW64 on a system without
    [IsWow64Process2], with nothing to report. *)
Definition x86_under_wow64 : Environment :=
  mkEnvironment "1.6" 1 M_IX86 true None (Some true) "" Z 0 merge
    (fun _ _ => None) (fun _ => S_OK) (fun _ => S_OK) rejects_post true.

(** An x86 engine on which [IsWow64Process2] reports an ARM64 system
    (0xAA64). *)
Definition x86_on_arm64 : Environment :=
  mkEnvironment "1.6" 1 M_IX86 true (Some (Some 43620)) (Some true) "" Z 0
    merge (fun _ _ => None) (fun _ => S_OK) (fun _ => S_OK) rejects_post
    true.

(** The first with a transport that cannot start a second exchange: an
    asynchronous GET fails to start. *)
Definition reporting_no_retry : Environment :=
  mkEnvironment "1.6" 1 M_X64 true (Some (Some IMAGE_FILE_MACHINE_AMD64))
    None "[1,2,3]" Z 0 merge (fun _ _ => None) (fun _ => S_OK)
    (fun options => if String.eqb (sVerb options) "POST" then S_OK
                    else E_FAIL)
    rejects_post true.

(** An update checker whose asynchronous primary exchange has just been
    answered with 405. *)
Definition answered_405 : UpdateChecker :=
  mkUpdateChecker 0 "[1,2,3]"
    (mkHttp (GetUpdateCheckerOptions reporting 0 (Some "[1,2,3]") 7) true
       ["Content-Type: application/json"] true (Some CbOnRequestDone)
       (HRESULT_FROM_WIN32 ERROR_WINHTTP_INVALID_HEADER) 405 "" 0)
    true false None 0 [] [].

End Scenario.

(** ** [Abort] against the completion routine, statement by statement

    [Abort] is called on one thread while the transport runs
    [OnRequestDone] on another.  Each thread executes its statements in
    order, one statement being one step; the steps of the two threads
    interleave in any way; acquiring the mutex blocks while the other
    thread holds it.  [m_aborted] is read and written in one step. *)

Module Interleaving.
Import Win32 Cpp UpdateChecker.

(** The thread that calls [Abort] and the transport's thread that runs
    [OnRequestDone]. *)
Inductive Thread :=
| TAbort
| TDone.

(** Where the [Abort] thread stands: the source line of the statement it
    executes next.  At [A_207] no call is under way. *)
Inductive AbortPc :=
| A_207   (* m_aborted = true *)
| A_209   (* m_httpSimple.Abort() *)
| A_212   (* lock_guard: acquire *)
| A_213   (* if (m_httpSimpleGetRequest) m_httpSimpleGetRequest->Abort() *)
| A_216.  (* end of block: release, return *)

(** Where the completion thread stands in [OnRequestDone]. *)
Inductive DonePc :=
| B_251   (* if (ShouldRetryWithAGetRequest() && !m_aborted) *)
| B_252   (* lock_guard: acquire *)
| B_254   (* if (!m_aborted) *)
| B_256   (* m_httpSimpleGetRequest = std::make_unique<...>(...) *)
| B_258   (* THROW_IF_FAILED(m_httpSimpleGetRequest->SendRequest(...)) *)
| B_catch (e : exception) (* reset, LOG, m_onUpdateCheckDone() *)
| B_266   (* return: release *)
| B_268   (* end of block: release *)
| B_270   (* m_onUpdateCheckDone() *)
| B_end.

(** The object, the owner of [m_httpSimpleGetRequestMutex], both
    threads, and three observations: how many [Abort] calls have
    returned, whether a fallback object was constructed at a moment when
    [m_aborted] was set, and whether one was constructed after an
    [Abort] call had returned. *)
Record State := mkState {
  object : UpdateChecker;
  mutex : option Thread;
  pc_abort : AbortPc;
  pc_done : DonePc;
  aborts_returned : nat;
  created_when_aborted : bool;
  created_after_return : bool
}.

Definition initial (uc : UpdateChecker) : State :=
  mkState uc None A_207 B_251 0 false false.

(** One statement of [Abort]; [None] when the thread is blocked. *)
Definition step_abort (s : State) : option State :=
  match pc_abort s with
  | A_207 =>
      Some (mkState (Abort_flag (object s)) (mutex s) A_209 (pc_done s)
              (aborts_returned s) (created_when_aborted s)
              (created_after_return s))
  | A_209 =>
      Some (mkState (Abort_primary (object s)) (mutex s) A_212 (pc_done s)
              (aborts_returned s) (created_when_aborted s)
              (created_after_return s))
  | A_212 =>
      match mutex s with
      | None =>
          Some (mkState (object s) (Some TAbort) A_213 (pc_done s)
                  (aborts_returned s) (created_when_aborted s)
                  (created_after_return s))
      | Some _ => None
      end
  | A_213 =>
      Some (mkState (Abort_fallback (object s)) (mutex s) A_216 (pc_done s)
              (aborts_returned s) (created_when_aborted s)
              (created_after_return s))
  | A_216 =>
      Some (mkState (object s) None A_207 (pc_done s)
              (S (aborts_returned s)) (created_when_aborted s)
              (created_after_return s))
  end.

Section WithEnvironment.

Variable E : Environment.

Definition at_done (uc : UpdateChecker) (m : option Thread) (pc : DonePc)
    (s : State) : State :=
  mkState uc m (pc_abort s) pc (aborts_returned s)
    (created_when_aborted s) (created_after_return s).

(** One statement of [OnRequestDone]; [None] when the thread is blocked
    or has returned. *)
Definition step_done (s : State) : option State :=
  match pc_done s with
  | B_251 =>
      Some (at_done (object s) (mutex s)
              (if ShouldRetryWithAGetRequest (object s)
                  && negb (m_aborted (object s))
               then B_252 else B_270) s)
  | B_252 =>
      match mutex s with
      | None => Some (at_done (object s) (Some TDone) B_254 s)
      | Some _ => None
      end
  | B_254 =>
      Some (at_done (object s) (mutex s)
              (if negb (m_aborted (object s)) then B_256 else B_268) s)
  | B_256 =>
      match OnRequestDone_new E (object s) with
      | (Ok _, uc) =>
          Some (mkState uc (mutex s) (pc_abort s) B_258 (aborts_returned s)
                  (created_when_aborted s || m_aborted (object s))
                  (created_after_return s
                   || negb (Nat.eqb (aborts_returned s) 0)))
      | (Throw e, uc) => Some (at_done uc (mutex s) (B_catch e) s)
      end
  | B_258 =>
      match OnRequestDone_send E (object s) with
      | (Ok _, uc) => Some (at_done uc (mutex s) B_266 s)
      | (Throw e, uc) => Some (at_done uc (mutex s) (B_catch e) s)
      end
  | B_catch e =>
      Some (at_done (OnRequestDone_catch e (object s)) (mutex s) B_266 s)
  | B_266 => Some (at_done (object s) None B_end s)
  | B_268 => Some (at_done (object s) None B_270 s)
  | B_270 =>
      Some (at_done (invoke_onUpdateCheckDone (object s)) (mutex s) B_end s)
  | B_end => None
  end.

(** A step of the whole: one statement of either thread. *)
Definition step_of (t : Thread) (s : State) : option State :=
  match t with
  | TAbort => step_abort s
  | TDone => step_done s
  end.

Inductive step (s s' : State) : Prop :=
| step_thread (t : Thread) (H : step_of t s = Some s').

Inductive reachable (s : State) : State -> Prop :=
| reach_here : reachable s s
| reach_step s1 s2 : reachable s s1 -> step s1 s2 -> reachable s s2.

(** A schedule run from a state: [None] when it asks a blocked thread to
    move. *)
Fixpoint run (schedule : list Thread) (s : State) : option State :=
  match schedule with
  | [] => Some s
  | t :: rest =>
      match step_of t s with
      | Some s' => run rest s'
      | None => None
      end
  end.

End WithEnvironment.

(** Statements executed while holding the mutex. *)
Definition abort_holds (pc : AbortPc) : bool :=
  match pc with
  | A_213 | A_216 => true
  | _ => false
  end.

Definition done_holds (pc : DonePc) : bool :=
  match pc with
  | B_254 | B_256 | B_258 | B_catch _ | B_266 | B_268 => true
  | _ => false
  end.

(** There is no fallback exchange that [Abort] has not been called
    on. *)
Definition fallback_aborted (uc : UpdateChecker) : Prop :=
  match m_httpSimpleGetRequest uc with
  | Some get => (1 <= http_aborts get)%nat
  | None => True
  end.

(** What holds of every state the two threads can reach. *)
Definition consistent (s : State) : Prop :=
  mutex s = (if abort_holds (pc_abort s) then Some TAbort
             else if done_holds (pc_done s) then Some TDone
             else None)
  /\ abort_holds (pc_abort s) && done_holds (pc_done s) = false
  /\ (pc_abort s <> A_207 \/ (1 <= aborts_returned s)%nat ->
      m_aborted (object s) = true)
  /\ ((1 <= aborts_returned s)%nat -> pc_done s <> B_256)
  /\ (pc_abort s = A_216 \/ (1 <= aborts_returned s)%nat ->
      fallback_aborted (object s))
  /\ created_after_return s = false.

(** How many statements the completion thread has at most before it
    returns. *)
Definition remaining (pc : DonePc) : nat :=
  match pc with
  | B_251 => 7
  | B_252 => 6
  | B_254 => 5
  | B_256 => 4
  | B_258 => 3
  | B_catch _ => 2
  | B_266 => 1
  | B_268 => 2
  | B_270 => 1
  | B_end => 0
  end.

(** Where the completion callback stands for a round that began with
    [d0] invocations and no fallback exchange: not yet invoked while
    the completion thread is on its way; once the thread is returning,
    either invoked once more with no fallback exchange left, or not
    invoked and handed to a fallback exchange that has been started. *)
Definition callback_accounted (d0 : nat) (s : State) : Prop :=
  let uc := object s in
  match pc_done s with
  | B_251 | B_252 | B_254 | B_256 | B_268 | B_270 =>
      done_calls uc = d0 /\ m_httpSimpleGetRequest uc = None
  | B_258 =>
      done_calls uc = d0 /\ m_httpSimpleGetRequest uc <> None
  | B_catch _ => done_calls uc = d0
  | B_266 | B_end =>
      done_calls uc = S d0 /\ m_httpSimpleGetRequest uc = None
      \/ done_calls uc = d0
         /\ exists fallback,
              m_httpSimpleGetRequest uc = Some fallback
              /\ http_onDone fallback = Some CbUpdateCheckDone
              /\ http_sent fallback = true
  end.

End Interleaving.

(** ** new_process_injector.h *)

Module NewProcessInjector.
Import Win32.

(** The data members of [class NewProcessInjector] that a hook call
    reads or writes.  [m_hookProcCallCounter] is a [std::atomic<int>]
    that starts at 0. *)
Record NewProcessInjector := mkInjector {
  m_sessionManagerProcess : Z;
  m_hookProcCallCounter : Z;
  m_includePattern : string;
  m_excludePattern : string;
  m_threadAttachExemptPattern : string
}.

(** The arguments of [CreateProcessInternalW_t]; pointers to structures
    the hook does not look into are kept as addresses. *)
Record CreateProcessArguments := mkArguments {
  hUserToken : Z;
  lpApplicationName : option string;
  lpCommandLine : option string;
  lpProcessAttributes : Z;
  lpThreadAttributes : Z;
  bInheritHandles : bool;
  dwCreationFlags : Z;
  lpEnvironment : Z;
  lpCurrentDirectory : option string;
  lpStartupInfo : Z;
  hRestrictedUserToken : Z
}.

(** [PROCESS_INFORMATION], written through [lpProcessInformation]. *)
Record PROCESS_INFORMATION := mkProcessInformation {
  hProcess : Z;
  hThread : Z;
  dwProcessId : Z;
  dwThreadId : Z
}.

(** What a hook call does that can be seen from outside. *)
Inductive Event :=
| EvOriginal (arguments : CreateProcessArguments)
| EvShouldSkipNewProcess (processImageName : string)
| EvShouldAttachExemptThread (processImageName : string)
| EvInject (process : PROCESS_INFORMATION) (threadAttachExempt : bool)
| EvLog (line : string).

(** What the hook takes from outside: the saved original entry point
    ([m_originalCreateProcessInternalW]: the [BOOL] it returns and what it
    stores through [lpProcessInformation]), the resolution of the image
    name of a created process, the two policy predicates declared in the
    header, and the injection primitive (whether it succeeded). *)
Record Environment := mkEnvironment {
  m_originalCreateProcessInternalW :
    CreateProcessArguments -> Z * PROCESS_INFORMATION;
  processImageName : PROCESS_INFORMATION -> string;
  ShouldSkipNewProcess : NewProcessInjector -> string -> bool;
  ShouldAttachExemptThread : NewProcessInjector -> string -> bool;
  inject : PROCESS_INFORMATION -> bool -> bool
}.

(** [++m_hookProcCallCounter] and [--m_hookProcCallCounter] on a 32-bit
    [int]. *)
Definition increment (this : NewProcessInjector) : NewProcessInjector :=
  mkInjector (m_sessionManagerProcess this)
    (to_LONG (m_hookProcCallCounter this + 1))
    (m_includePattern this) (m_excludePattern this)
    (m_threadAttachExemptPattern this).

Definition decrement (this : NewProcessInjector) : NewProcessInjector :=
  mkInjector (m_sessionManagerProcess this)
    (to_LONG (m_hookProcCallCounter this - 1))
    (m_includePattern this) (m_excludePattern this)
    (m_threadAttachExemptPattern this).

Section WithEnvironment.

Variable E : Environment.

(** Modelled from the spec: [HandleCreatedProcess] is defined in
    new_process_injector.cpp, which is not among the sources.  Spec 4.1,
    steps 3 to 5: resolve the image path of the new process, evaluate
    [ShouldSkipNewProcess] and [ShouldAttachExemptThread], and unless the
    process is skipped inject the engine, without thread attachment when
    the process is exempt; an injection failure is logged and
    swallowed. *)
Definition HandleCreatedProcess (this : NewProcessInjector)
    (lpProcessInformation : PROCESS_INFORMATION) : list Event :=
  let name := processImageName E lpProcessInformation in
  let skip := ShouldSkipNewProcess E this name in
  let exempt := ShouldAttachExemptThread E this name in
  [EvShouldSkipNewProcess name; EvShouldAttachExemptThread name]
  ++ (if skip then []
      else EvInject lpProcessInformation exempt
           :: (if inject E lpProcessInformation exempt then []
               else [EvLog "injection failed"])).

(** Modelled from the spec: the body of [CreateProcessInternalW_Hook] is
    in new_process_injector.cpp, which is not among the sources.  Spec
    4.1, steps 1, 2 and 6: the counter is incremented before anything
    else; the saved implementation is called; when it fails its result
    is returned as it is; otherwise the created process is handled; the
    counter is decremented on the way out and the result of the saved
    implementation returned. *)
Definition CreateProcessInternalW_Hook (this : NewProcessInjector)
    (arguments : CreateProcessArguments)
    : Z * NewProcessInjector * list Event :=
  let this := increment this in
  let (bRet, lpProcessInformation) :=
    m_originalCreateProcessInternalW E arguments in
  let events :=
    EvOriginal arguments
    :: (if bRet =? 0 then []
        else HandleCreatedProcess this lpProcessInformation) in
  (bRet, decrement this, events).

(** A hook call under way, for calls that overlap (several threads, or a
    call made from within the original implementation or the
    injection): what it has done so far. *)
Inductive Frame :=
| F_entered (arguments : CreateProcessArguments)
| F_created (bRet : Z) (lpProcessInformation : PROCESS_INFORMATION)
| F_leaving (bRet : Z).

(** The hook of one process: the object, the calls under way, how many
    calls have entered and left so far, and what was seen and
    returned. *)
Record Hooked := mkHooked {
  this_ : NewProcessInjector;
  in_flight : list Frame;
  entered : nat;
  exited : nat;
  seen : list Event;
  returned_ : list Z
}.

Definition idle (this : NewProcessInjector) : Hooked :=
  mkHooked (mkInjector (m_sessionManagerProcess this) 0
            (m_includePattern this) (m_excludePattern this)
            (m_threadAttachExemptPattern this))
         [] 0 0 [] [].

(** Modelled from the spec: the same hook body, one action at a time
    (spec 4.1 and 5).  A call enters at any moment and increments the
    counter first; a call under way takes its next action; a call that
    is leaving decrements the counter and returns. *)
Inductive hook_step : Hooked -> Hooked -> Prop :=
| hook_enter g arguments :
    hook_step g
      (mkHooked (increment (this_ g)) (F_entered arguments :: in_flight g)
         (S (entered g)) (exited g) (seen g) (returned_ g))
| hook_original g (before after : list Frame) arguments :
    in_flight g = (before ++ F_entered arguments :: after)%list ->
    hook_step g
      (mkHooked (this_ g)
         (before
          ++ F_created (fst (m_originalCreateProcessInternalW E arguments))
                       (snd (m_originalCreateProcessInternalW E arguments))
          :: after)%list
         (entered g) (exited g) (seen g ++ [EvOriginal arguments])%list
         (returned_ g))
| hook_handle g (before after : list Frame) bRet lpProcessInformation :
    in_flight g
    = (before ++ F_created bRet lpProcessInformation :: after)%list ->
    hook_step g
      (mkHooked (this_ g) (before ++ F_leaving bRet :: after)%list
         (entered g) (exited g)
         (seen g ++ (if bRet =? 0 then []
                     else HandleCreatedProcess (this_ g)
                            lpProcessInformation))%list
         (returned_ g))
| hook_leave g (before after : list Frame) bRet :
    in_flight g = (before ++ F_leaving bRet :: after)%list ->
    hook_step g
      (mkHooked (decrement (this_ g)) (before ++ after)%list
         (entered g) (S (exited g)) (seen g) (returned_ g ++ [bRet])%list).

Inductive hook_reachable (g : Hooked) : Hooked -> Prop :=
| hook_here : hook_reachable g g
| hook_next g1 g2 :
    hook_reachable g g1 -> hook_step g1 g2 -> hook_reachable g g2.

End WithEnvironment.

(** A process in which creation fails, one in which it succeeds, an
    injector and a call. *)
Definition creation_fails : Environment :=
  mkEnvironment (fun _ => (0, mkProcessInformation 0 0 0 0))
    (fun _ => "") (fun _ _ => false) (fun _ _ => false) (fun _ _ => true).

Definition creation_succeeds : Environment :=
  mkEnvironment (fun _ => (1, mkProcessInformation 100 104 4242 4243))
    (fun _ => "child.exe") (fun _ _ => false) (fun _ _ => false)
    (fun _ _ => false).

Definition some_injector : NewProcessInjector := mkInjector 4 0 "*" "" "".

Definition some_call : CreateProcessArguments :=
  mkArguments 0 (Some "child.exe") None 0 0 false 0 0 None 0 0.

End NewProcessInjector.

(* ===================================================================== *)
(** * Part II: properties                                                 *)
(* ===================================================================== *)

(** ** Decimal output *)

Section Decimal.
Import Win32.

Lemma digit_val_char d : 0 <= d < 10 -> digit_val (digit_char d) = d.
Proof.
  intros Hd. unfold digit_val, digit_char.
  rewrite nat_ascii_embedding by lia. lia.
Qed.

Lemma atou_aux_app s1 s2 a :
  atou_aux (s1 ++ s2) a = atou_aux s2 (atou_aux s1 a).
Proof.
  revert a. induction s1 as [|c s1 IH]; intros a; simpl; [reflexivity|].
  apply IH.
Qed.

Lemma append_assoc_one (d : string) c acc :
  (d ++ String c acc = (d ++ String c "") ++ acc)%string.
Proof.
  induction d as [|x d IH]; simpl; [reflexivity|]. now rewrite IH.
Qed.

Lemma length_append (s1 s2 : string) :
  String.length (s1 ++ s2) = (String.length s1 + String.length s2)%nat.
Proof.
  induction s1 as [|c s1 IH]; simpl; [reflexivity|]. now rewrite IH.
Qed.

Lemma utoa_aux_S fuel n acc :
  utoa_aux (S fuel) n acc
  = if n / 10 =? 0 then String (digit_char (n mod 10)) acc
    else utoa_aux fuel (n / 10) (String (digit_char (n mod 10)) acc).
Proof. reflexivity. Qed.

(** What the digit loop produces with enough fuel: in front of [acc], the
    decimal numeral of [n], with as many digits as [n] needs. *)
Lemma utoa_aux_spec fuel : forall n acc,
  0 <= n < 10 ^ Z.of_nat (S fuel) ->
  exists d,
    utoa_aux (S fuel) n acc = (d ++ acc)%string
    /\ atou_aux d 0 = n
    /\ (1 <= String.length d <= S fuel)%nat
    /\ n < 10 ^ Z.of_nat (String.length d)
    /\ (n = 0 \/ 10 ^ (Z.of_nat (String.length d) - 1) <= n).
Proof.
  induction fuel as [|fuel IH]; intros n acc Hn.
  - change (10 ^ Z.of_nat 1) with 10 in Hn.
    exists (String (digit_char (n mod 10)) "").
    assert (Hq : n / 10 = 0) by (apply Z.div_small; lia).
    assert (Hm : n mod 10 = n) by (apply Z.mod_small; lia).
    rewrite utoa_aux_S, Hq. cbn [Z.eqb].
    split; [reflexivity|].
    split; [cbn [atou_aux]; rewrite digit_val_char; lia|].
    simpl String.length. change (10 ^ Z.of_nat 1) with 10.
    change (10 ^ (Z.of_nat 1 - 1)) with 1. lia.
  - rewrite utoa_aux_S. destruct (Z.eqb_spec (n / 10) 0) as [Hq|Hq].
    + exists (String (digit_char (n mod 10)) "").
      assert (Hlt : n < 10).
      { destruct (Z.lt_ge_cases n 10) as [?|Hge]; [assumption|].
        assert (1 <= n / 10) by (apply Z.div_le_lower_bound; lia). lia. }
      assert (Hm : n mod 10 = n) by (apply Z.mod_small; lia).
      split; [reflexivity|].
      split; [cbn [atou_aux]; rewrite digit_val_char; lia|].
      simpl String.length. change (10 ^ Z.of_nat 1) with 10.
      change (10 ^ (Z.of_nat 1 - 1)) with 1. lia.
    + assert (Hpow : 10 ^ Z.of_nat (S (S fuel)) = 10 * 10 ^ Z.of_nat (S fuel)).
      { rewrite (Nat2Z.inj_succ (S fuel)). rewrite Z.pow_succ_r by lia.
        reflexivity. }
      assert (Hdiv : 0 <= n / 10 < 10 ^ Z.of_nat (S fuel)).
      { split; [apply Z.div_pos; lia|].
        apply Z.div_lt_upper_bound; lia. }
      destruct (IH (n / 10) (String (digit_char (n mod 10)) acc) Hdiv)
        as (d & Heq & Hval & Hlen & Hup & Hlow).
      exists (d ++ String (digit_char (n mod 10)) "")%string.
      pose proof (Z.mod_pos_bound n 10 ltac:(lia)) as Hmod.
      pose proof (Z.div_mod n 10 ltac:(lia)) as Hdm.
      assert (Hl : String.length (d ++ String (digit_char (n mod 10)) "")
                   = S (String.length d)).
      { rewrite length_append. simpl. lia. }
      rewrite Hl.
      assert (Hp1 : 10 ^ Z.of_nat (S (String.length d))
                    = 10 * 10 ^ Z.of_nat (String.length d)).
      { rewrite Nat2Z.inj_succ. rewrite Z.pow_succ_r by lia. reflexivity. }
      assert (Hp2 : 10 ^ Z.of_nat (String.length d)
                    = 10 * 10 ^ (Z.of_nat (String.length d) - 1)).
      { rewrite <- Z.pow_succ_r by lia. f_equal. lia. }
      split; [rewrite Heq; apply append_assoc_one|].
      split; [rewrite atou_aux_app, Hval; cbn [atou_aux];
              rewrite digit_val_char; lia|].
      split; [lia|]. split; [lia|].
      right. replace (Z.of_nat (S (String.length d)) - 1)
        with (Z.of_nat (String.length d)) by lia.
      destruct Hlow as [H0|Hlow]; [contradiction|]. lia.
Qed.

Lemma utoa_spec n :
  is_DWORD n ->
  atou (utoa n) = n
  /\ (1 <= String.length (utoa n) <= 10)%nat
  /\ n < 10 ^ Z.of_nat (String.length (utoa n))
  /\ (n = 0 \/ 10 ^ (Z.of_nat (String.length (utoa n)) - 1) <= n).
Proof.
  intros [Hlo Hhi]. unfold DWORD_MAX in Hhi.
  assert (Hn : 0 <= n < 10 ^ Z.of_nat 10).
  { change (10 ^ Z.of_nat 10) with 10000000000. lia. }
  destruct (utoa_aux_spec 9 n "" Hn) as (d & Heq & Hval & Hlen & Hup & Hlow).
  assert (Hd : utoa n = d).
  { unfold utoa. rewrite Heq. clear. induction d; simpl; congruence. }
  rewrite Hd. unfold atou. auto.
Qed.

End Decimal.

(** ** The namespace name *)

Section NameFacts.
Import Win32 SessionPrivateNamespace.

(** The [static_assert] of [MakeName] holds for the declared maximum. *)
Lemma MakeName_static_assert :
  (kPrivateNamespaceMaxLen + 1)%nat
  = sizeof_literal "WindhawkSession1234567890".
Proof. reflexivity. Qed.

Lemma decimal_field_prefix (d : string) :
  decimal_field ("WindhawkSession" ++ d) = d.
Proof.
  unfold decimal_field. rewrite length_append.
  change (String.length "WindhawkSession") with 15%nat.
  replace (15 + String.length d - 15)%nat with (String.length d) by lia.
  cbn [append substring]. clear.
  induction d as [|c d IH]; simpl; [reflexivity|]. now rewrite IH.
Qed.

Lemma MakeName_value buf N :
  is_DWORD N ->
  MakeName buf N
  = ("WindhawkSession" ++ utoa N,
     Z.of_nat (String.length ("WindhawkSession" ++ utoa N))).
Proof.
  intros HN. destruct (utoa_spec N HN) as (_ & Hlen & _).
  unfold MakeName, swprintf_s.
  destruct (Nat.ltb_spec (String.length ("WindhawkSession" ++ utoa N))
                         (kPrivateNamespaceMaxLen + 1)) as [_|Hge];
    [reflexivity|].
  rewrite length_append in Hge. unfold kPrivateNamespaceMaxLen in Hge.
  simpl in Hge. lia.
Qed.

(** C1, as stated, fails on its "fixed-width" part: the decimal field of
    the name of process 7 has one character, that of process 4294967295
    has ten. *)
Lemma MakeName_width_varies :
  String.length (decimal_field (fst (MakeName "" 7))) = 1%nat
  /\ String.length (decimal_field (fst (MakeName "" 4294967295))) = 10%nat
  /\ ~ (exists width : nat, forall N, is_DWORD N ->
          String.length (decimal_field (fst (MakeName "" N))) = width).
Proof.
  split; [reflexivity|]. split; [reflexivity|].
  intros [w Hw].
  assert (H7 : is_DWORD 7) by (unfold is_DWORD, DWORD_MAX; lia).
  assert (Hmax : is_DWORD 4294967295) by (unfold is_DWORD, DWORD_MAX; lia).
  pose proof (Hw 7 H7) as E1. pose proof (Hw 4294967295 Hmax) as E2.
  vm_compute in E1, E2. congruence.
Qed.

(** C1, amended: for every 32-bit process id [N], [MakeName] depends on
    [N] alone (not on what the buffer held), succeeds, and writes
    ["WindhawkSession"] followed by the decimal numeral of [N] without
    padding: the numeral reads back as [N] and has exactly as many digits
    (one to ten) as [N] needs, so the name has 16 to 25 characters and
    never more than [kPrivateNamespaceMaxLen]; the value returned is that
    length. *)
Theorem MakeName_decimal_bounded (buf : string) (N : Z) :
  is_DWORD N ->
  let name := fst (MakeName buf N) in
  let field := decimal_field name in
  (forall buf', MakeName buf' N = MakeName buf N)
  /\ name = ("WindhawkSession" ++ field)%string
  /\ atou field = N
  /\ (1 <= String.length field <= 10)%nat
  /\ N < 10 ^ Z.of_nat (String.length field)
  /\ (N = 0 \/ 10 ^ (Z.of_nat (String.length field) - 1) <= N)
  /\ (16 <= String.length name <= kPrivateNamespaceMaxLen)%nat
  /\ snd (MakeName buf N) = Z.of_nat (String.length name).
Proof.
  intros HN name field. subst field name.
  rewrite (MakeName_value buf N HN). cbn [fst snd].
  rewrite decimal_field_prefix.
  destruct (utoa_spec N HN) as (Hval & Hlen & Hup & Hlow).
  repeat split; try assumption; try lia.
  - intros buf'. now rewrite (MakeName_value buf' N HN).
  - rewrite length_append. simpl String.length. lia.
  - rewrite length_append. unfold kPrivateNamespaceMaxLen.
    simpl String.length. lia.
Qed.

(** At the largest process id. *)
Lemma MakeName_decimal_bounded_witness :
  is_DWORD 4294967295
  /\ atou (decimal_field (fst (MakeName "junk" 4294967295))) = 4294967295
  /\ (String.length (fst (MakeName "junk" 4294967295))
      <= kPrivateNamespaceMaxLen)%nat.
Proof.
  assert (H : is_DWORD 4294967295) by (unfold is_DWORD, DWORD_MAX; lia).
  split; [exact H|].
  pose proof (MakeName_decimal_bounded "junk" 4294967295 H) as T.
  cbv zeta in T.
  destruct T as (_ & _ & Hval & _ & _ & _ & Hlen & _).
  split; [exact Hval | apply Hlen].
Defined.

(** Two process ids with the same name are the same process id. *)
Lemma MakeName_injective buf1 buf2 N M :
  is_DWORD N -> is_DWORD M ->
  fst (MakeName buf1 N) = fst (MakeName buf2 M) -> N = M.
Proof.
  intros HN HM Heq.
  rewrite (MakeName_value buf1 N HN), (MakeName_value buf2 M HM) in Heq.
  cbn [fst] in Heq. apply (f_equal decimal_field) in Heq.
  rewrite !decimal_field_prefix in Heq.
  destruct (utoa_spec N HN) as (H1 & _).
  destruct (utoa_spec M HM) as (H2 & _). congruence.
Qed.

End NameFacts.

(** ** Create and Open *)

Section NamespaceFacts.
Import Win32 Cpp Kernel SessionPrivateNamespace.

Variable faults : nat -> bool.

Lemma last_logged c s : hd_error (rev (os_calls (logged c s))) = Some c.
Proof. unfold logged. cbn [os_calls]. now rewrite rev_unit. Qed.

Lemma CreateBoundaryDescriptor_step name flags s :
  throw_if_failed (CreateBoundaryDescriptor faults name flags) s
  = if faults (List.length (os_calls s))
    then (Throw (ResultException
                   (Some (CallCreateBoundaryDescriptor name flags))),
          logged (CallCreateBoundaryDescriptor name flags) s)
    else (Ok (mkBoundary name flags [] []),
          acquire RBoundaryDescriptor
            (logged (CallCreateBoundaryDescriptor name flags) s)).
Proof.
  unfold throw_if_failed, CreateBoundaryDescriptor, invoke.
  destruct (faults (List.length (os_calls s))); [|reflexivity].
  now rewrite last_logged.
Qed.

Lemma AllocateAndInitializeSid_step authority sub0 s :
  throw_if_failed (AllocateAndInitializeSid faults authority 1 sub0) s
  = if faults (List.length (os_calls s))
    then (Throw (ResultException
                   (Some (CallAllocateAndInitializeSid authority 1 sub0))),
          logged (CallAllocateAndInitializeSid authority 1 sub0) s)
    else (Ok (mkSID authority [sub0]),
          acquire RSid
            (logged (CallAllocateAndInitializeSid authority 1 sub0) s)).
Proof.
  unfold throw_if_failed, AllocateAndInitializeSid, invoke.
  destruct (faults (List.length (os_calls s))); [|reflexivity].
  now rewrite last_logged.
Qed.

Lemma AddSIDToBoundaryDescriptor_step bd sid s :
  throw_if_failed (AddSIDToBoundaryDescriptor faults bd sid) s
  = if faults (List.length (os_calls s))
    then (Throw (ResultException
                   (Some (CallAddSIDToBoundaryDescriptor bd sid))),
          logged (CallAddSIDToBoundaryDescriptor bd sid) s)
    else (Ok (mkBoundary (bd_name bd) (bd_flags bd) (bd_sids bd ++ [sid])
                         (bd_labels bd)),
          logged (CallAddSIDToBoundaryDescriptor bd sid) s).
Proof.
  unfold throw_if_failed, AddSIDToBoundaryDescriptor, invoke.
  destruct (faults (List.length (os_calls s))); [|reflexivity].
  now rewrite last_logged.
Qed.

Lemma AddIntegrityLabelToBoundaryDescriptor_step bd sid s :
  throw_if_failed (AddIntegrityLabelToBoundaryDescriptor faults bd sid) s
  = if faults (List.length (os_calls s))
    then (Throw (ResultException
                   (Some (CallAddIntegrityLabelToBoundaryDescriptor bd sid))),
          logged (CallAddIntegrityLabelToBoundaryDescriptor bd sid) s)
    else (Ok (mkBoundary (bd_name bd) (bd_flags bd) (bd_sids bd)
                         (bd_labels bd ++ [sid])),
          logged (CallAddIntegrityLabelToBoundaryDescriptor bd sid) s).
Proof.
  unfold throw_if_failed, AddIntegrityLabelToBoundaryDescriptor, invoke.
  destruct (faults (List.length (os_calls s))); [|reflexivity].
  now rewrite last_logged.
Qed.

Lemma GetFullAccessSecurityDescriptor_step s :
  throw_if_failed (GetFullAccessSecurityDescriptor faults) s
  = if faults (List.length (os_calls s))
    then (Throw (ResultException (Some CallGetFullAccessSecurityDescriptor)),
          logged CallGetFullAccessSecurityDescriptor s)
    else (Ok SD_FullAccess,
          acquire RHLocal (logged CallGetFullAccessSecurityDescriptor s)).
Proof.
  unfold throw_if_failed, GetFullAccessSecurityDescriptor, invoke.
  destruct (faults (List.length (os_calls s))); [|reflexivity].
  now rewrite last_logged.
Qed.

Lemma CreatePrivateNamespace_step sa bd alias s :
  throw_if_failed (CreatePrivateNamespace faults sa bd alias) s
  = if faults (List.length (os_calls s)) then
      (Throw (ResultException (Some (CallCreatePrivateNamespace sa bd alias))),
       logged (CallCreatePrivateNamespace sa bd alias) s)
    else match find_namespace bd (os_namespaces s) with
         | Some _ =>
             (Throw (ResultException
                       (Some (CallCreatePrivateNamespace sa bd alias))),
              logged (CallCreatePrivateNamespace sa bd alias) s)
         | None =>
             (Ok (mkNamespace bd (lpSecurityDescriptor sa)),
              mkOS (mkNamespace bd (lpSecurityDescriptor sa)
                    :: os_namespaces s)
                   (RPrivateNamespace :: os_live s)
                   (os_calls s
                    ++ [CallCreatePrivateNamespace sa bd alias]))
         end.
Proof.
  unfold throw_if_failed, CreatePrivateNamespace, invoke.
  destruct (faults (List.length (os_calls s))).
  - now rewrite last_logged.
  - unfold logged at 1. cbn [os_namespaces].
    destruct (find_namespace bd (os_namespaces s)); [|reflexivity].
    now rewrite last_logged.
Qed.

Lemma OpenPrivateNamespace_step bd alias s :
  throw_if_failed (OpenPrivateNamespace faults bd alias) s
  = if faults (List.length (os_calls s)) then
      (Throw (ResultException (Some (CallOpenPrivateNamespace bd alias))),
       logged (CallOpenPrivateNamespace bd alias) s)
    else match find_namespace bd (os_namespaces s) with
         | Some ns =>
             (Ok ns,
              acquire RPrivateNamespace
                (logged (CallOpenPrivateNamespace bd alias) s))
         | None =>
             (Throw (ResultException
                       (Some (CallOpenPrivateNamespace bd alias))),
              logged (CallOpenPrivateNamespace bd alias) s)
         end.
Proof.
  unfold throw_if_failed, OpenPrivateNamespace, invoke.
  destruct (faults (List.length (os_calls s))).
  - now rewrite last_logged.
  - unfold logged at 1. cbn [os_namespaces].
    destruct (find_namespace bd (os_namespaces s)); [reflexivity|].
    now rewrite last_logged.
Qed.

End NamespaceFacts.

Section NamespaceCases.
Import Win32 Cpp Kernel SessionPrivateNamespace.

Variable faults : nat -> bool.

Lemma BuildBoundaryDescriptor_calls_length name :
  List.length (BuildBoundaryDescriptor_calls name) = 5%nat.
Proof. reflexivity. Qed.

(** Take the next primitive of the code under analysis, by its step
    lemma, and split on whether it fails. *)
Ltac next_call lem F :=
  rewrite lem;
  unfold acquire, release, logged;
  cbn [os_calls os_namespaces os_live release_one resource_eqb];
  rewrite ?length_app, ?BuildBoundaryDescriptor_calls_length;
  cbn [List.length];
  match goal with
  | |- context [if faults ?i then _ else _] => destruct (faults i) eqn:F
  end; cbv beta iota;
  unfold acquire, release, logged;
  cbn [os_calls os_namespaces os_live release_one resource_eqb].

Ltac fault_free :=
  let j := fresh "j" in
  let Hj := fresh "Hj" in
  intros j Hj; try lia;
  repeat (destruct j as [|j];
          [ first [ rewrite Nat.add_0_r; assumption
                  | match goal with
                    | H : faults ?a = false |- faults ?b = false =>
                        replace b with a by lia; exact H
                    end ]
          | try lia ]).

Ltac faulty :=
  first [ rewrite Nat.add_0_r; assumption
        | match goal with
          | H : faults ?a = true |- faults ?b = true =>
              replace b with a by lia; exact H
          end ].

Ltac same_calls :=
  cbn [firstn BuildBoundaryDescriptor_calls Create_calls Open_calls app];
  rewrite <- ?app_assoc; reflexivity.

Ltac failed_at k :=
  repeat right; exists k; eexists;
  split; [lia|];
  split; [split; [fault_free | faulty]|];
  split; [reflexivity|];
  f_equal; f_equal; same_calls.

Lemma BuildBoundaryDescriptor_cases name s :
  (no_faults faults (List.length (os_calls s)) 5
   /\ BuildBoundaryDescriptor faults name s
      = (Ok (boundary_of name),
         mkOS (os_namespaces s) (RBoundaryDescriptor :: os_live s)
              (os_calls s ++ BuildBoundaryDescriptor_calls name)))
  \/ (exists k c,
        (k < 5)%nat
        /\ first_fault faults (List.length (os_calls s)) k
        /\ nth_error (BuildBoundaryDescriptor_calls name) k = Some c
        /\ BuildBoundaryDescriptor faults name s
           = (Throw (ResultException (Some c)),
              mkOS (os_namespaces s) (os_live s)
                   (os_calls s
                    ++ firstn (S k) (BuildBoundaryDescriptor_calls name)))).
Proof.
  destruct s as [N L C]. cbn [os_calls os_namespaces os_live].
  unfold BuildBoundaryDescriptor, bind, returned, scoped, ret.
  next_call CreateBoundaryDescriptor_step F0; [failed_at 0%nat|].
  next_call AllocateAndInitializeSid_step F1; [failed_at 1%nat|].
  next_call AddSIDToBoundaryDescriptor_step F2; [failed_at 2%nat|].
  next_call AllocateAndInitializeSid_step F3; [failed_at 3%nat|].
  next_call AddIntegrityLabelToBoundaryDescriptor_step F4; [failed_at 4%nat|].
  left. split; [fault_free|].
  f_equal. f_equal. same_calls.
Qed.

Lemma prefix_of_build (rest : list Call) name k c :
  (k < 5)%nat ->
  nth_error (BuildBoundaryDescriptor_calls name) k = Some c ->
  nth_error (BuildBoundaryDescriptor_calls name ++ rest) k = Some c
  /\ firstn (S k) (BuildBoundaryDescriptor_calls name ++ rest)
     = firstn (S k) (BuildBoundaryDescriptor_calls name).
Proof.
  intros Hk Hc. split.
  - rewrite nth_error_app1; [assumption|]. simpl. lia.
  - rewrite firstn_app. simpl List.length.
    replace (S k - 5)%nat with 0%nat by lia.
    rewrite firstn_O. apply app_nil_r.
Qed.

Ltac recall_no_faults H :=
  pose proof (H 0%nat ltac:(lia)); pose proof (H 1%nat ltac:(lia));
  pose proof (H 2%nat ltac:(lia)); pose proof (H 3%nat ltac:(lia));
  pose proof (H 4%nat ltac:(lia)).

(** Every way [Create] can go. *)
Lemma Create_cases stack pid s :
  let name := fst (MakeName stack pid) in
  let ns := mkNamespace (boundary_of name) SD_FullAccess in
  (no_faults faults (List.length (os_calls s)) 7
   /\ find_namespace (boundary_of name) (os_namespaces s) = None
   /\ Create faults stack pid s
      = (Ok (mkHandle ns name true),
         mkOS (ns :: os_namespaces s) (RPrivateNamespace :: os_live s)
              (os_calls s ++ Create_calls name)))
  \/ (no_faults faults (List.length (os_calls s)) 7
      /\ find_namespace (boundary_of name) (os_namespaces s) <> None
      /\ Create faults stack pid s
         = (Throw (ResultException
                     (Some (CallCreatePrivateNamespace
                        (mkSecAttr SD_FullAccess false)
                        (boundary_of name) name))),
            mkOS (os_namespaces s) (os_live s)
                 (os_calls s ++ Create_calls name)))
  \/ (exists k c,
        (k < 7)%nat
        /\ first_fault faults (List.length (os_calls s)) k
        /\ nth_error (Create_calls name) k = Some c
        /\ Create faults stack pid s
           = (Throw (ResultException (Some c)),
              mkOS (os_namespaces s) (os_live s)
                   (os_calls s ++ firstn (S k) (Create_calls name)))).
Proof.
  intros name ns. unfold Create. fold name. unfold bind.
  destruct (BuildBoundaryDescriptor_cases name s)
    as [[Hnf Heq] | (k & c & Hk & Hff & Hc & Heq)]; rewrite Heq; clear Heq.
  - recall_no_faults Hnf. destruct s as [N L C].
    cbn [os_calls os_namespaces os_live] in *.
    unfold scoped, bind, ret.
    next_call GetFullAccessSecurityDescriptor_step F5; [failed_at 5%nat|].
    rewrite CreatePrivateNamespace_step.
    cbn [os_calls os_namespaces os_live].
    rewrite ?length_app, ?BuildBoundaryDescriptor_calls_length;
      cbn [List.length].
    match goal with
    | |- context [if faults ?i then _ else _] => destruct (faults i) eqn:F6
    end; cbv beta iota; unfold release, logged;
      cbn [os_calls os_namespaces os_live release_one resource_eqb];
      [failed_at 6%nat|].
    change (mkBoundary name 0 ([] ++ [WorldSid]) ([] ++ [MediumLabelSid]))
      with (boundary_of name).
    fold (boundary_of name).
    destruct (find_namespace (boundary_of name) N) eqn:Hfind;
      cbn [os_calls os_namespaces os_live release_one resource_eqb
           lpSecurityDescriptor].
    + right. left. split; [fault_free|]. split; [discriminate|].
      f_equal. f_equal. same_calls.
    + left. split; [fault_free|]. split; [reflexivity|].
      f_equal. f_equal. same_calls.
  - right. right. exists k, c.
    destruct (prefix_of_build
                [CallGetFullAccessSecurityDescriptor;
                 CallCreatePrivateNamespace (mkSecAttr SD_FullAccess false)
                   (boundary_of name) name] name k c Hk Hc) as [Hn Hf].
    split; [lia|]. split; [assumption|]. split; [exact Hn|].
    unfold Create_calls. now rewrite Hf.
Qed.

(** Every way [Open] can go. *)
Lemma Open_cases stack pid s :
  let name := fst (MakeName stack pid) in
  (exists ns,
     no_faults faults (List.length (os_calls s)) 6
     /\ find_namespace (boundary_of name) (os_namespaces s) = Some ns
     /\ Open faults stack pid s
        = (Ok (mkHandle ns name false),
           mkOS (os_namespaces s) (RPrivateNamespace :: os_live s)
                (os_calls s ++ Open_calls name)))
  \/ (no_faults faults (List.length (os_calls s)) 6
      /\ find_namespace (boundary_of name) (os_namespaces s) = None
      /\ Open faults stack pid s
         = (Throw (ResultException
                     (Some (CallOpenPrivateNamespace (boundary_of name) name))),
            mkOS (os_namespaces s) (os_live s)
                 (os_calls s ++ Open_calls name)))
  \/ (exists k c,
        (k < 6)%nat
        /\ first_fault faults (List.length (os_calls s)) k
        /\ nth_error (Open_calls name) k = Some c
        /\ Open faults stack pid s
           = (Throw (ResultException (Some c)),
              mkOS (os_namespaces s) (os_live s)
                   (os_calls s ++ firstn (S k) (Open_calls name)))).
Proof.
  intros name. unfold Open. fold name. unfold bind.
  destruct (BuildBoundaryDescriptor_cases name s)
    as [[Hnf Heq] | (k & c & Hk & Hff & Hc & Heq)]; rewrite Heq; clear Heq.
  - recall_no_faults Hnf. destruct s as [N L C].
    cbn [os_calls os_namespaces os_live] in *.
    unfold scoped, bind, ret.
    rewrite OpenPrivateNamespace_step.
    cbn [os_calls os_namespaces os_live].
    rewrite ?length_app, ?BuildBoundaryDescriptor_calls_length;
      cbn [List.length].
    match goal with
    | |- context [if faults ?i then _ else _] => destruct (faults i) eqn:F5
    end; cbv beta iota; unfold release, logged;
      cbn [os_calls os_namespaces os_live release_one resource_eqb];
      [failed_at 5%nat|].
    destruct (find_namespace (boundary_of name) N) as [found|] eqn:Hfind;
      unfold acquire, logged;
      cbn [os_calls os_namespaces os_live release_one resource_eqb].
    + left. exists found. split; [fault_free|]. split; [reflexivity|].
      f_equal. f_equal. same_calls.
    + right. left. split; [fault_free|]. split; [reflexivity|].
      f_equal. f_equal. same_calls.
  - right. right. exists k, c.
    destruct (prefix_of_build
                [CallOpenPrivateNamespace (boundary_of name) name]
                name k c Hk Hc) as [Hn Hf].
    split; [lia|]. split; [assumption|]. split; [exact Hn|].
    unfold Open_calls. now rewrite Hf.
Qed.

End NamespaceCases.

Section NamespaceClaims.
Import Win32 Cpp Kernel SessionPrivateNamespace.

Lemma sid_eqb_refl a : sid_eqb a a = true.
Proof.
  unfold sid_eqb. rewrite Z.eqb_refl.
  destruct (list_eq_dec Z.eq_dec (sid_subauthorities a)
                        (sid_subauthorities a)); [reflexivity|congruence].
Qed.

Lemma sids_eqb_refl l : sids_eqb l l = true.
Proof.
  induction l as [|a l IH]; simpl; [reflexivity|].
  now rewrite sid_eqb_refl, IH.
Qed.

Lemma bd_eqb_refl bd : bd_eqb bd bd = true.
Proof.
  unfold bd_eqb.
  now rewrite String.eqb_refl, Z.eqb_refl, !sids_eqb_refl.
Qed.

Lemma In_firstn {A} (x : A) k l : In x (firstn k l) -> In x l.
Proof.
  revert l. induction k as [|k IH]; intros l H; [contradiction|].
  destruct l as [|y l]; [contradiction|].
  destruct H as [H|H]; [now left | right; now apply IH].
Qed.

Lemma result_not_both {X A} (r : result X A) :
  (exists a, r = Ok a) \/ (exists e, r = Throw e).
Proof. destruct r; eauto. Qed.

(** The calls [Create] has added to the record are a prefix of
    [Create_calls], the whole of it when no primitive is faulty. *)
Lemma Create_issued faults stack pid s :
  exists k,
    os_calls (snd (Create faults stack pid s))
    = (os_calls s ++ firstn k (Create_calls (fst (MakeName stack pid))))%list
    /\ (no_faults faults (List.length (os_calls s)) 7 -> k = 7%nat).
Proof.
  destruct (Create_cases faults stack pid s)
    as [(Hnf & _ & Heq) | [(Hnf & _ & Heq) | (k & c & Hk & Hff & _ & Heq)]];
    rewrite Heq; cbn [snd os_calls].
  - exists 7%nat. split; [reflexivity|auto].
  - exists 7%nat. split; [reflexivity|auto].
  - exists (S k). split; [reflexivity|].
    intros Hnf. destruct Hff as [_ Hf]. rewrite (Hnf k Hk) in Hf.
    discriminate.
Qed.

Lemma Open_issued faults stack pid s :
  exists k,
    os_calls (snd (Open faults stack pid s))
    = (os_calls s ++ firstn k (Open_calls (fst (MakeName stack pid))))%list
    /\ (no_faults faults (List.length (os_calls s)) 6 -> k = 6%nat).
Proof.
  destruct (Open_cases faults stack pid s)
    as [(ns & Hnf & _ & Heq)
       | [(Hnf & _ & Heq) | (k & c & Hk & Hff & _ & Heq)]];
    rewrite Heq; cbn [snd os_calls].
  - exists 6%nat. split; [reflexivity|auto].
  - exists 6%nat. split; [reflexivity|auto].
  - exists (S k). split; [reflexivity|].
    intros Hnf. destruct Hff as [_ Hf]. rewrite (Hnf k Hk) in Hf.
    discriminate.
Qed.

Ltac which_call H :=
  simpl in H;
  repeat (destruct H as [H|H]; [try discriminate H|]);
  try contradiction.

(** C6: for every 32-bit process id, whatever primitives fail, every
    boundary descriptor [Create] and [Open] ask for is named by the
    string [MakeName] produced, the namespace is created and opened under
    that same string as alias, with the boundary descriptor of that name
    that carries exactly the SID of everyone (S-1-1-0) and the medium
    integrity label (S-1-16-8192), [Create] passing security attributes
    whose descriptor is the full-access one; when no primitive fails
    these calls are made, and the handle [Create] returns designates that
    namespace. *)
Theorem Create_Open_same_name_same_boundary
    (faults : nat -> bool) (stack : string) (pid : Z) (s : OS) :
  is_DWORD pid ->
  let name := ("WindhawkSession" ++ utoa pid)%string in
  let boundary :=
    mkBoundary name 0 [mkSID 1 [0]] [mkSID 16 [8192]] in
  let attributes := mkSecAttr SD_FullAccess false in
  exists created opened : list Call,
    os_calls (snd (Create faults stack pid s)) = (os_calls s ++ created)%list
    /\ os_calls (snd (Open faults stack pid s)) = (os_calls s ++ opened)%list
    /\ (forall n f,
          In (CallCreateBoundaryDescriptor n f) (created ++ opened)%list
                    -> n = name /\ f = 0)
    /\ (forall sa bd alias,
          In (CallCreatePrivateNamespace sa bd alias)
             (created ++ opened)%list ->
          alias = name /\ bd = boundary /\ sa = attributes)
    /\ (forall bd alias,
          In (CallOpenPrivateNamespace bd alias) (created ++ opened)%list ->
          alias = name /\ bd = boundary)
    /\ (no_faults faults (List.length (os_calls s)) 7 ->
        In (CallCreateBoundaryDescriptor name 0) created
        /\ In (CallCreatePrivateNamespace attributes boundary name) created)
    /\ (no_faults faults (List.length (os_calls s)) 6 ->
        In (CallCreateBoundaryDescriptor name 0) opened
        /\ In (CallOpenPrivateNamespace boundary name) opened)
    /\ (forall h, fst (Create faults stack pid s) = Ok h ->
          h = mkHandle (mkNamespace boundary SD_FullAccess) name true).
Proof.
  intros Hpid name boundary attributes.
  assert (Hname : fst (MakeName stack pid) = name)
    by (rewrite (MakeName_value stack pid Hpid); reflexivity).
  destruct (Create_issued faults stack pid s) as (kc & Hc & Hkc).
  destruct (Open_issued faults stack pid s) as (ko & Ho & Hko).
  rewrite Hname in Hc, Ho.
  exists (firstn kc (Create_calls name)), (firstn ko (Open_calls name)).
  split; [exact Hc|]. split; [exact Ho|].
  split; [|split; [|split; [|split; [|split]]]].
  - intros n f H. apply in_app_or in H.
    destruct H as [H|H]; apply In_firstn in H; which_call H;
      inversion H; auto.
  - intros sa bd alias H. apply in_app_or in H.
    destruct H as [H|H]; apply In_firstn in H; which_call H.
    inversion H. auto.
  - intros bd alias H. apply in_app_or in H.
    destruct H as [H|H]; apply In_firstn in H; which_call H.
    inversion H. auto.
  - intros Hnf. rewrite (Hkc Hnf). simpl. auto 10.
  - intros Hnf. rewrite (Hko Hnf). simpl. auto 10.
  - intros h Hh.
    destruct (Create_cases faults stack pid s)
      as [(_ & _ & Heq) | [(_ & _ & Heq) | (k & c & _ & _ & _ & Heq)]];
      rewrite Heq in Hh; cbn [fst] in Hh; try discriminate Hh.
    rewrite Hname in Hh. now inversion Hh.
Qed.

(** For process 1234 on a system with no namespace and no failing
    primitive. *)
Lemma Create_Open_same_name_same_boundary_witness :
  is_DWORD 1234
  /\ exists created opened : list Call,
       os_calls (snd (Create (fun _ => false) "" 1234 (mkOS [] [] [])))
       = created
       /\ os_calls (snd (Open (fun _ => false) "" 1234 (mkOS [] [] [])))
          = opened
       /\ In (CallCreatePrivateNamespace (mkSecAttr SD_FullAccess false)
                (mkBoundary "WindhawkSession1234" 0
                   [mkSID 1 [0]] [mkSID 16 [8192]])
                "WindhawkSession1234") created.
Proof.
  assert (H : is_DWORD 1234) by (unfold is_DWORD, DWORD_MAX; lia).
  split; [exact H|].
  destruct (Create_Open_same_name_same_boundary
              (fun _ => false) "" 1234 (mkOS [] [] []) H)
    as (created & opened & Hc & Ho & _ & _ & _ & Hin & _).
  exists created, opened.
  split; [exact Hc|]. split; [exact Ho|].
  apply Hin. intros j _. reflexivity.
Defined.

(** C7: [Open] leaves the set of existing namespaces as it found it;
    it returns a handle exactly when none of its six primitive calls is
    faulty and the namespace of the process id exists, and throws
    otherwise; [Create] throws whenever one of its seven primitive calls
    is faulty; whenever either throws, the existing namespaces and the
    allocations held are what they were before the call; and once
    [Create] has returned a handle, [Open] for the same process id, run
    where the same namespaces exist and with no faulty primitive, returns
    a handle on the namespace [Create] made. *)
Theorem Open_opens_only_and_failures_are_thrown
    (faults : nat -> bool) (stack : string) (pid : Z) (s : OS) :
  is_DWORD pid ->
  let name := ("WindhawkSession" ++ utoa pid)%string in
  let n := List.length (os_calls s) in
  let exists_already :=
    find_namespace (boundary_of name) (os_namespaces s) in
  os_namespaces (snd (Open faults stack pid s)) = os_namespaces s
  /\ ((exists h, fst (Open faults stack pid s) = Ok h)
      <-> no_faults faults n 6 /\ exists_already <> None)
  /\ ((exists e, fst (Open faults stack pid s) = Throw e)
      <-> (exists j, (j < 6)%nat /\ faults (n + j)%nat = true)
          \/ exists_already = None)
  /\ ((exists j, (j < 7)%nat /\ faults (n + j)%nat = true) ->
      exists e, fst (Create faults stack pid s) = Throw e)
  /\ (forall e, fst (Open faults stack pid s) = Throw e ->
        os_namespaces (snd (Open faults stack pid s)) = os_namespaces s
        /\ os_live (snd (Open faults stack pid s)) = os_live s)
  /\ (forall e, fst (Create faults stack pid s) = Throw e ->
        os_namespaces (snd (Create faults stack pid s)) = os_namespaces s
        /\ os_live (snd (Create faults stack pid s)) = os_live s)
  /\ (forall h s1 stack' s2,
        Create faults stack pid s = (Ok h, s1) ->
        os_namespaces s2 = os_namespaces s1 ->
        no_faults faults (List.length (os_calls s2)) 6 ->
        fst (Open faults stack' pid s2)
        = Ok (mkHandle (h_namespace h) name false)
        /\ In (h_namespace h) (os_namespaces s2)
        /\ ns_boundary (h_namespace h) = boundary_of name).
Proof.
  intros Hpid name n exists_already.
  assert (Hname : forall st, fst (MakeName st pid) = name)
    by (intros st; rewrite (MakeName_value st pid Hpid); reflexivity).
  pose proof (Open_cases faults stack pid s) as HO.
  pose proof (Create_cases faults stack pid s) as HC.
  cbv zeta in HO, HC. rewrite Hname in HO, HC.
  fold n exists_already in HO, HC.
  split; [|split; [|split; [|split; [|split; [|split]]]]].
  - destruct HO as [(ns & _ & _ & Heq)
                   | [(_ & _ & Heq) | (k & c & _ & _ & _ & Heq)]];
      now rewrite Heq.
  - split.
    + intros [h Hh].
      destruct HO as [(ns & Hnf & Hfind & Heq)
                     | [(_ & _ & Heq) | (k & c & _ & _ & _ & Heq)]];
        rewrite Heq in Hh; cbn [fst] in Hh; try discriminate Hh.
      split; [assumption|congruence].
    + intros [Hnf Hex].
      destruct HO as [(ns & _ & _ & Heq)
                     | [(_ & Hnone & _)
                       | (k & c & Hk & [_ Hf] & _ & _)]].
      * rewrite Heq. cbn [fst]. eauto.
      * contradiction.
      * rewrite (Hnf k Hk) in Hf. discriminate.
  - split.
    + intros [e He].
      destruct HO as [(ns & _ & _ & Heq)
                     | [(_ & Hnone & _)
                       | (k & c & Hk & [_ Hf] & _ & _)]].
      * rewrite Heq in He. cbn [fst] in He. discriminate.
      * now right.
      * left. eauto.
    + intros Hbad.
      destruct HO as [(ns & Hnf & Hsome & _)
                     | [(_ & _ & Heq) | (k & c & _ & _ & _ & Heq)]];
        try (rewrite Heq; cbn [fst]; eauto; fail).
      destruct Hbad as [(j & Hj & Hf) | Hnone].
      * rewrite (Hnf j Hj) in Hf. discriminate.
      * congruence.
  - intros (j & Hj & Hf).
    destruct HC as [(Hnf & _ & _)
                   | [(Hnf & _ & _) | (k & c & _ & _ & _ & Heq)]].
    + rewrite (Hnf j Hj) in Hf. discriminate.
    + rewrite (Hnf j Hj) in Hf. discriminate.
    + rewrite Heq. cbn [fst]. eauto.
  - intros e He.
    destruct HO as [(ns & _ & _ & Heq)
                   | [(_ & _ & Heq) | (k & c & _ & _ & _ & Heq)]];
      rewrite Heq in *; cbn [fst snd os_namespaces os_live] in *;
      try discriminate He; auto.
  - intros e He.
    destruct HC as [(_ & _ & Heq)
                   | [(_ & _ & Heq) | (k & c & _ & _ & _ & Heq)]];
      rewrite Heq in *; cbn [fst snd os_namespaces os_live] in *;
      try discriminate He; auto.
  - intros h s1 stack' s2 Hcreate Hsame Hnf.
    destruct HC as [(_ & _ & Heq)
                   | [(_ & _ & Heq) | (k & c & _ & _ & _ & Heq)]];
      rewrite Heq in Hcreate; inversion Hcreate; subst h s1; clear Hcreate.
    cbn [os_namespaces h_namespace ns_boundary] in *.
    assert (Hfind : find_namespace (boundary_of name) (os_namespaces s2)
                    = Some (mkNamespace (boundary_of name) SD_FullAccess)).
    { rewrite Hsame. unfold find_namespace. cbn [find ns_boundary].
      now rewrite bd_eqb_refl. }
    split; [|split; [rewrite Hsame; now left | reflexivity]].
    pose proof (Open_cases faults stack' pid s2) as HO2.
    cbv zeta in HO2. rewrite Hname in HO2.
    destruct HO2 as [(ns & _ & Hsome & Heq2)
                    | [(_ & Hnone & _)
                      | (k & c & Hk & [_ Hf] & _ & _)]].
    + rewrite Heq2. cbn [fst]. congruence.
    + congruence.
    + rewrite (Hnf k Hk) in Hf. discriminate.
Qed.

(** For process 1234: [Open] alone throws, [Open] after [Create]
    returns the handle. *)
Lemma Open_opens_only_and_failures_are_thrown_witness :
  is_DWORD 1234
  /\ (exists e, fst (Open (fun _ => false) "" 1234 (mkOS [] [] []))
                = Throw e)
  /\ fst (Open (fun _ => false) "other stack" 1234
            (snd (Create (fun _ => false) "" 1234 (mkOS [] [] []))))
     = Ok (mkHandle
             (mkNamespace (boundary_of "WindhawkSession1234") SD_FullAccess)
             "WindhawkSession1234" false).
Proof.
  assert (H : is_DWORD 1234) by (unfold is_DWORD, DWORD_MAX; lia).
  split; [exact H|].
  destruct (Open_opens_only_and_failures_are_thrown
              (fun _ => false) "" 1234 (mkOS [] [] []) H)
    as (_ & _ & Hthrow & _ & _ & _ & Hthen).
  split.
  - apply Hthrow. right. reflexivity.
  - refine (proj1 (Hthen _ _ "other stack" _ eq_refl eq_refl _)).
    intros j _. reflexivity.
Defined.

End NamespaceClaims.

(** ** The update checker *)

Section UpdateCheckerFacts.
Import Win32 Cpp UpdateChecker.

Variable E : Environment.

Ltac break_match H :=
  match type of H with
  | context [match ?x with _ => _ end] => destruct x eqn:?
  end.

(** What the constructor leaves behind when it returns. *)
Lemma construct_Ok flags onDone uc :
  construct E flags onDone = Ok uc ->
  let payload := GetLocalUpdatedContentAsString E in
  m_flags uc = flags
  /\ m_postedData uc = payload
  /\ m_onUpdateCheckDone uc = onDone
  /\ m_aborted uc = false
  /\ http_options (m_httpSimple uc)
     = GetUpdateCheckerOptions E flags (Some payload)
         (Z.of_nat (String.length payload))
  /\ http_headers (m_httpSimple uc)
     = (if String.eqb payload "" then []
        else ["Content-Type: application/json"])
  /\ http_asynchronous (m_httpSimple uc) = onDone
  /\ (if onDone then m_httpSimpleGetRequest uc = None
      else match m_httpSimpleGetRequest uc with
           | Some get =>
               ShouldRetryWithAGetRequest uc = true
               /\ http_options get = GetUpdateCheckerOptions E flags None 0
               /\ http_headers get = []
               /\ http_asynchronous get = false
               /\ http_sent get = true
               /\ http_onDone get = None
           | None => ShouldRetryWithAGetRequest uc = false
           end).
Proof.
  unfold construct. intros H. cbv zeta.
  set (payload := GetLocalUpdatedContentAsString E) in *.
  set (options := GetUpdateCheckerOptions E flags (Some payload)
                    (Z.of_nat (String.length payload))) in *.
  unfold new_CWinHTTPSimple in H.
  destruct (CWinHTTPSimple_throws E options onDone); [discriminate H|].
  destruct (String.eqb payload "") eqn:Hempty; cbn [negb] in H.
  - cbn [m_onUpdateCheckDone m_httpSimple] in H.
    destruct onDone.
    + unfold SendRequest_async in H. cbn [http_options] in H.
      destruct (FAILED (SendRequest_result E options)) eqn:Hs;
        cbv beta iota in H; rewrite Hs in H; [discriminate H|].
      inversion H. subst uc. repeat split; reflexivity.
    + unfold SendRequest_sync_fallback, SendRequest_sync in H.
      match type of H with
      | context [ShouldRetryWithAGetRequest ?u] =>
          destruct (ShouldRetryWithAGetRequest u) eqn:Hr
      end.
      * cbn [m_flags set_httpSimple] in H.
        destruct (CWinHTTPSimple_throws E
                    (GetUpdateCheckerOptions E flags None 0) false);
          [discriminate H|].
        destruct (fallback_awaited E); inversion H; subst uc;
          cbn [m_httpSimpleGetRequest set_httpSimpleGetRequest
               set_httpSimple];
          repeat split; try reflexivity; exact Hr.
      * inversion H. subst uc.
        cbn [m_httpSimpleGetRequest set_httpSimpleGetRequest set_httpSimple].
        repeat split; try reflexivity; exact Hr.
  - unfold AddHeaders in H. cbn [m_httpSimple] in H.
    destruct (FAILED (AddHeaders_result E "Content-Type: application/json"))
      eqn:Hf; cbv beta iota in H; rewrite Hf in H; [discriminate H|].
    cbn [m_onUpdateCheckDone m_httpSimple set_httpSimple] in H.
    destruct onDone.
    + unfold SendRequest_async in H. cbn [http_options] in H.
      destruct (FAILED (SendRequest_result E options)) eqn:Hs;
        cbv beta iota in H; rewrite Hs in H; [discriminate H|].
      inversion H. subst uc. repeat split; reflexivity.
    + unfold SendRequest_sync_fallback, SendRequest_sync in H.
      match type of H with
      | context [ShouldRetryWithAGetRequest ?u] =>
          destruct (ShouldRetryWithAGetRequest u) eqn:Hr
      end.
      * cbn [m_flags set_httpSimple] in H.
        destruct (CWinHTTPSimple_throws E
                    (GetUpdateCheckerOptions E flags None 0) false);
          [discriminate H|].
        destruct (fallback_awaited E); inversion H; subst uc;
          cbn [m_httpSimpleGetRequest set_httpSimpleGetRequest
               set_httpSimple];
          repeat split; try reflexivity; exact Hr.
      * inversion H. subst uc.
        cbn [m_httpSimpleGetRequest set_httpSimpleGetRequest set_httpSimple].
        repeat split; try reflexivity; exact Hr.
Qed.

Lemma nonempty_payload (payload : string) :
  payload <> "" ->
  String.eqb payload "" = false
  /\ (0 <? Z.of_nat (String.length payload)) = true.
Proof.
  destruct payload as [|c rest]; [congruence|]. intros _.
  split; [reflexivity|]. apply Z.ltb_lt. simpl String.length. lia.
Qed.

(** What the constructor does, in every case. *)
Lemma construct_value (flags : Z) (onDone : bool) :
  let payload := GetLocalUpdatedContentAsString E in
  let primary :=
    GetUpdateCheckerOptions E flags (Some payload)
      (Z.of_nat (String.length payload)) in
  let get := GetUpdateCheckerOptions E flags None 0 in
  let headers :=
    if String.eqb payload "" then []
    else ["Content-Type: application/json"] in
  let reply := transport E primary headers in
  let retry :=
    (reply_hr reply =? HRESULT_FROM_WIN32 ERROR_WINHTTP_INVALID_HEADER)
    && (reply_status reply =? 405) in
  construct E flags onDone
  = match CWinHTTPSimple_throws E primary onDone with
    | Some e => Throw e
    | None =>
        if negb (String.eqb payload "")
           && FAILED (AddHeaders_result E "Content-Type: application/json")
        then Throw (ResultException
                      (AddHeaders_result E
                         "Content-Type: application/json"))
        else if onDone then
          if FAILED (SendRequest_result E primary)
          then Throw (ResultException (SendRequest_result E primary))
          else Ok (mkUpdateChecker flags payload
                     (mkHttp primary true headers true
                        (Some CbOnRequestDone) 0 0 "" 0)
                     true false None 0 [] [])
        else
          let sent :=
            mkHttp primary false headers true None (reply_hr reply)
              (reply_status reply) (reply_body reply) 0 in
          if retry then
            match CWinHTTPSimple_throws E get false with
            | Some e => Throw e
            | None =>
                Ok (mkUpdateChecker flags payload sent false false
                      (Some (if fallback_awaited E
                             then mkHttp get false [] true None
                                    (reply_hr (transport E get []))
                                    (reply_status (transport E get []))
                                    (reply_body (transport E get [])) 0
                             else mkHttp get false [] true None
                                    0 0 "" 0))
                      0 [] [])
            end
          else Ok (mkUpdateChecker flags payload sent false false None
                     0 [] [])
    end.
Proof.
  cbv zeta. unfold construct, new_CWinHTTPSimple.
  set (payload := GetLocalUpdatedContentAsString E).
  set (primary := GetUpdateCheckerOptions E flags (Some payload)
                    (Z.of_nat (String.length payload))).
  set (get := GetUpdateCheckerOptions E flags None 0).
  destruct (CWinHTTPSimple_throws E primary onDone); [reflexivity|].
  destruct (String.eqb payload "") eqn:Hempty; cbn [negb andb].
  - cbn [m_onUpdateCheckDone m_httpSimple].
    destruct onDone.
    + unfold SendRequest_async. cbn [http_options].
      destruct (FAILED (SendRequest_result E primary)) eqn:Hs;
        cbv beta iota; rewrite Hs; reflexivity.
    + unfold SendRequest_sync_fallback, SendRequest_sync, complete,
        ShouldRetryWithAGetRequest.
      cbn -[HRESULT_FROM_WIN32 ERROR_WINHTTP_INVALID_HEADER Z.eqb
            GetUpdateCheckerOptions].
      fold primary get.
      destruct ((reply_hr (transport E primary [])
                 =? HRESULT_FROM_WIN32 ERROR_WINHTTP_INVALID_HEADER)
                && (reply_status (transport E primary []) =? 405));
        [|reflexivity].
      destruct (CWinHTTPSimple_throws E get false); [reflexivity|].
      destruct (fallback_awaited E); reflexivity.
  - unfold AddHeaders. cbn [m_httpSimple].
    destruct (FAILED (AddHeaders_result E
                        "Content-Type: application/json")) eqn:Hf;
      cbv beta iota; rewrite Hf; [reflexivity|].
    cbn [m_onUpdateCheckDone m_httpSimple set_httpSimple].
    destruct onDone.
    + unfold SendRequest_async. cbn [http_options].
      destruct (FAILED (SendRequest_result E primary)) eqn:Hs;
        cbv beta iota; rewrite Hs; reflexivity.
    + unfold SendRequest_sync_fallback, SendRequest_sync, complete,
        ShouldRetryWithAGetRequest.
      cbn -[HRESULT_FROM_WIN32 ERROR_WINHTTP_INVALID_HEADER Z.eqb
            GetUpdateCheckerOptions].
      fold primary get.
      destruct ((reply_hr
                   (transport E primary
                      ["Content-Type: application/json"])
                 =? HRESULT_FROM_WIN32 ERROR_WINHTTP_INVALID_HEADER)
                && (reply_status
                      (transport E primary
                         ["Content-Type: application/json"])
                    =? 405));
        [|reflexivity].
      destruct (CWinHTTPSimple_throws E get false); [reflexivity|].
      destruct (fallback_awaited E); reflexivity.
Qed.

(** C3: once the constructor has returned, the primary request is, for a
    non-empty usage payload, a POST whose optional data is the payload
    (with its length, cast to [DWORD], as size: the length itself
    whenever it fits 32 bits) and whose only added header is
    [Content-Type: application/json]; for an empty payload it is a GET
    with no optional data and no header.  In both cases the user agent
    is [Windhawk/<version> (<machine>)], with [; portable] after the
    machine code exactly when the portable flag is set, the machine code
    being the decimal numeral of the native machine: the code that
    [IsWow64Process2] reports when that function can be resolved
    (UNKNOWN when the call fails); otherwise AMD64 for an x64 build,
    for an x86 build AMD64 under WOW64, I386 when not and UNKNOWN when
    [IsWow64Process] fails, and UNKNOWN for any other build. *)
Theorem primary_request_and_user_agent
    (flags : Z) (onDone : bool) (uc : UpdateChecker) :
  construct E flags onDone = Ok uc ->
  let payload := GetLocalUpdatedContentAsString E in
  let size := Z.of_nat (String.length payload) in
  let request := http_options (m_httpSimple uc) in
  let machine := GetNativeMachine E in
  let product := ("Windhawk/" ++ VER_FILE_VERSION_WSTR E ++ " (")%string in
  (payload <> "" ->
     sVerb request = "POST"
     /\ lpOptional request = Some payload
     /\ dwOptionalSize request = to_DWORD size
     /\ (size <= DWORD_MAX -> dwOptionalSize request = size)
     /\ http_headers (m_httpSimple uc) = ["Content-Type: application/json"])
  /\ (payload = "" ->
      sVerb request = "GET"
      /\ lpOptional request = None
      /\ dwOptionalSize request = 0
      /\ http_headers (m_httpSimple uc) = [])
  /\ sUserAgent request
     = (if Z.land flags (kFlagPortable E) =? 0
        then ((product ++ utoa machine) ++ ")")%string
        else (((product ++ utoa machine) ++ "; portable") ++ ")")%string)
  /\ (is_DWORD machine -> atou (utoa machine) = machine)
  /\ sURL request = kUpdateCheckerUrl
  /\ (forall answer,
        kernel32Module E = true -> pIsWow64Process2 E = Some answer ->
        machine = match answer with
                  | Some nativeMachine => nativeMachine
                  | None => IMAGE_FILE_MACHINE_UNKNOWN
                  end)
  /\ (kernel32Module E = false \/ pIsWow64Process2 E = None ->
      machine = match target E with
                | M_X64 => IMAGE_FILE_MACHINE_AMD64
                | M_IX86 =>
                    match IsWow64Process E with
                    | Some true => IMAGE_FILE_MACHINE_AMD64
                    | Some false => IMAGE_FILE_MACHINE_I386
                    | None => IMAGE_FILE_MACHINE_UNKNOWN
                    end
                | M_OTHER => IMAGE_FILE_MACHINE_UNKNOWN
                end).
Proof.
  intros H. destruct (construct_Ok flags onDone uc H)
    as (_ & _ & _ & _ & Hopt & Hhdr & _).
  cbv zeta in *. rewrite Hopt, Hhdr. clear H Hopt Hhdr.
  split; [|split; [|split; [|split; [|split; [|split]]]]];
    [| | | | |
     intros answer Hk Hp;
     unfold GetNativeMachine, GetNativeMachineImpl;
     rewrite Hk, Hp; reflexivity
    |intros Hold;
     unfold GetNativeMachine, GetNativeMachineImpl;
     destruct Hold as [Hk|Hp];
     [rewrite Hk | rewrite Hp; destruct (kernel32Module E)];
     destruct (target E); try reflexivity;
     destruct (IsWow64Process E) as [[|]|]; reflexivity];
    unfold GetUpdateCheckerOptions.
  - intros Hne. destruct (nonempty_payload _ Hne) as [He Hs].
    rewrite He, Hs. cbn [sVerb lpOptional dwOptionalSize].
    repeat split; try reflexivity.
    intros Hfit. unfold to_DWORD. apply Z.mod_small.
    unfold DWORD_MAX in Hfit. lia.
  - intros He. rewrite He. cbn. auto.
  - destruct (Z.land flags (kFlagPortable E) =? 0);
      destruct (GetLocalUpdatedContentAsString E) as [|c rest];
      cbn [negb String.length Z.of_nat Z.ltb Z.compare sUserAgent];
      try reflexivity;
      destruct (0 <? Z.of_nat (String.length (String c rest)));
      reflexivity.
  - intros Hm. now destruct (utoa_spec _ Hm).
  - destruct (GetLocalUpdatedContentAsString E) as [|c rest];
      cbn [String.length Z.of_nat Z.ltb Z.compare sURL];
      try reflexivity;
      destruct (0 <? Z.of_nat (String.length (String c rest)));
      reflexivity.
Qed.

(** C4: [HandleResponse] reads the fallback exchange when there is one
    and the primary otherwise; the HTTP status of the result is that
    exchange's; when the exchange's result code is a failure, it is
    copied and nothing is handed to the merge; when it is a success the
    response body is handed to the merge once, and either the merge
    returns, and the result carries the exchange's result code and the
    merged status, or it throws, and the result carries [E_FAIL], a
    failure code, with one line logged; in every case a [Result] is
    returned. *)
Theorem HandleResponse_result (uc : UpdateChecker) :
  let exchange :=
    match m_httpSimpleGetRequest uc with
    | Some fallback => fallback
    | None => m_httpSimple uc
    end in
  let r := fst (HandleResponse E uc) in
  let uc' := snd (HandleResponse E uc) in
  httpStatusCode r = GetLastStatusCode exchange
  /\ (SUCCEEDED (GetRequestResult exchange) = false ->
      hrError r = GetRequestResult exchange
      /\ updateStatus r = UpdateStatus_zero E
      /\ uc' = uc)
  /\ (SUCCEEDED (GetRequestResult exchange) = true ->
      merged uc' = (merged uc ++ [GetResponse exchange])%list
      /\ match UpdateContentWithOnlineData E (merged uc)
                 (GetResponse exchange) with
         | Ok status =>
             hrError r = GetRequestResult exchange
             /\ updateStatus r = status
             /\ logged uc' = logged uc
         | Throw e =>
             hrError r = E_FAIL
             /\ FAILED (hrError r) = true
             /\ updateStatus r = UpdateStatus_zero E
             /\ logged uc'
                = (logged uc
                   ++ ["Handling server response failed: "
                       ++ what e]%string)%list
         end).
Proof.
  cbv zeta. unfold HandleResponse.
  set (exchange := match m_httpSimpleGetRequest uc with
                   | Some fallback => fallback
                   | None => m_httpSimple uc
                   end).
  cbn [hrError httpStatusCode updateStatus].
  destruct (SUCCEEDED (GetRequestResult exchange)) eqn:Hs.
  - split; [|split; [discriminate|intros _]].
    + destruct (UpdateContentWithOnlineData E (merged uc)
                  (GetResponse exchange)); reflexivity.
    + destruct (UpdateContentWithOnlineData E (merged uc)
                  (GetResponse exchange)); cbn; auto.
  - cbn. split; [reflexivity|]. split; [auto|discriminate].
Qed.

Lemma ShouldRetryWithAGetRequest_iff (uc : UpdateChecker) :
  ShouldRetryWithAGetRequest uc = true
  <-> GetRequestResult (m_httpSimple uc)
      = HRESULT_FROM_WIN32 ERROR_WINHTTP_INVALID_HEADER
      /\ GetLastStatusCode (m_httpSimple uc) = 405.
Proof.
  unfold ShouldRetryWithAGetRequest.
  rewrite andb_true_iff, !Z.eqb_eq. reflexivity.
Qed.

Lemma invalid_header_is_failure :
  SUCCEEDED (HRESULT_FROM_WIN32 ERROR_WINHTTP_INVALID_HEADER) = false.
Proof. reflexivity. Qed.

Lemma GetUpdateCheckerOptions_no_body flags :
  sVerb (GetUpdateCheckerOptions E flags None 0) = "GET"
  /\ lpOptional (GetUpdateCheckerOptions E flags None 0) = None
  /\ dwOptionalSize (GetUpdateCheckerOptions E flags None 0) = 0.
Proof. repeat split. Qed.

(** Every way the completion routine of the primary exchange can go,
    for an object that has no fallback exchange yet. *)
Lemma OnRequestDone_cases (uc : UpdateChecker) :
  m_httpSimpleGetRequest uc = None ->
  let get := GetUpdateCheckerOptions E (m_flags uc) None 0 in
  let attempt :=
    ShouldRetryWithAGetRequest uc && negb (m_aborted uc) in
  (attempt = false
   /\ OnRequestDone E uc = invoke_onUpdateCheckDone uc)
  \/ (attempt = true
      /\ CWinHTTPSimple_throws E get true = None
      /\ FAILED (SendRequest_result E get) = false
      /\ OnRequestDone E uc
         = set_httpSimpleGetRequest
             (Some (mkHttp get true [] true (Some CbUpdateCheckDone)
                           0 0 "" 0)) uc)
  \/ (exists e,
        attempt = true
        /\ fst (OnRequestDone_try E uc) = Throw e
        /\ (CWinHTTPSimple_throws E get true = Some e
            \/ CWinHTTPSimple_throws E get true = None
               /\ FAILED (SendRequest_result E get) = true)
        /\ OnRequestDone E uc
           = invoke_onUpdateCheckDone
               (LOG ("Get request failed: " ++ what e)
                    (set_httpSimpleGetRequest None uc))).
Proof.
  intros Hnone get attempt. unfold OnRequestDone. fold attempt.
  destruct attempt eqn:Hatt; [|left; auto].
  right.
  assert (Hab : negb (m_aborted uc) = true).
  { unfold attempt in Hatt. apply andb_true_iff in Hatt. apply Hatt. }
  rewrite Hab.
  unfold OnRequestDone_try, OnRequestDone_new, new_CWinHTTPSimple.
  fold get.
  destruct (CWinHTTPSimple_throws E get true) as [e|] eqn:Hthrows.
  - right. exists e. cbn [fst]. unfold OnRequestDone_catch.
    repeat split; auto.
  - unfold OnRequestDone_send.
    cbn [m_httpSimpleGetRequest set_httpSimpleGetRequest].
    unfold SendRequest_async. cbn [http_options].
    destruct (FAILED (SendRequest_result E get)) eqn:Hsend;
      cbv beta iota; rewrite ?Hsend.
    + right. exists (ResultException (SendRequest_result E get)).
      cbn [fst]. repeat split; auto.
    + left. repeat split; auto.
Qed.


(** C10: from an object with no fallback exchange, every path through
    the completion routine of the primary exchange makes the completion
    callback fire exactly once: either the routine invokes it itself and
    leaves no fallback exchange, or it starts a fallback exchange whose
    completion routine is the callback, which then fires when that
    exchange ends.  When the fallback exchange cannot be constructed or
    started, the fallback reference is null afterwards, one line is
    logged and nothing else changes but the callback count; a
    [HandleResponse] that follows reports the result code and status of
    the primary exchange. *)
Theorem completion_fires_once (uc : UpdateChecker) :
  m_httpSimpleGetRequest uc = None ->
  let uc' := OnRequestDone E uc in
  done_calls (fallback_completes E uc') = S (done_calls uc)
  /\ (done_calls uc' = S (done_calls uc)
      /\ m_httpSimpleGetRequest uc' = None
      \/ done_calls uc' = done_calls uc
         /\ exists fallback,
              m_httpSimpleGetRequest uc' = Some fallback
              /\ http_onDone fallback = Some CbUpdateCheckDone)
  /\ (forall e,
        ShouldRetryWithAGetRequest uc = true ->
        m_aborted uc = false ->
        fst (OnRequestDone_try E uc) = Throw e ->
        m_httpSimpleGetRequest uc' = None
        /\ logged uc'
           = (logged uc ++ ["Get request failed: " ++ what e]%string)%list
        /\ done_calls uc' = S (done_calls uc)
        /\ m_httpSimple uc' = m_httpSimple uc
        /\ m_aborted uc' = m_aborted uc
        /\ merged uc' = merged uc
        /\ hrError (fst (HandleResponse E uc'))
           = GetRequestResult (m_httpSimple uc)
        /\ httpStatusCode (fst (HandleResponse E uc'))
           = GetLastStatusCode (m_httpSimple uc)).
Proof.
  intros Hnone uc'. subst uc'.
  destruct (OnRequestDone_cases uc Hnone)
    as [(Hatt & Heq)
       | [(Hatt & Hctor & Hsend & Heq)
         | (e & Hatt & Htry & _ & Heq)]];
    cbv zeta in *; rewrite Heq.
  - split; [|split].
    + unfold fallback_completes.
      cbn [m_httpSimpleGetRequest invoke_onUpdateCheckDone].
      rewrite Hnone. reflexivity.
    + left. cbn. auto.
    + intros e Hr Hab _. rewrite Hr, Hab in Hatt. discriminate.
  - split; [|split].
    + reflexivity.
    + right. cbn. eauto.
    + intros e _ _ Htry.
      unfold OnRequestDone_try, OnRequestDone_new, new_CWinHTTPSimple,
        OnRequestDone_send, SendRequest_async in Htry.
      rewrite Hctor in Htry.
      cbn [m_httpSimpleGetRequest set_httpSimpleGetRequest http_options]
        in Htry.
      rewrite Hsend in Htry. cbv beta iota in Htry.
      rewrite ?Hsend in Htry. cbn [fst] in Htry. discriminate Htry.
  - split; [|split].
    + reflexivity.
    + left. cbn. auto.
    + intros e' Hr _ Htry'. rewrite Htry in Htry'. inversion Htry'.
      subst e'. cbn -[HandleResponse].
      repeat split; try reflexivity.
      * unfold HandleResponse.
        cbn [m_httpSimpleGetRequest invoke_onUpdateCheckDone LOG
             set_httpSimpleGetRequest m_httpSimple hrError].
        apply ShouldRetryWithAGetRequest_iff in Hr. destruct Hr as [Hhr _].
        rewrite Hhr, invalid_header_is_failure. reflexivity.
      * unfold HandleResponse.
        cbn [m_httpSimpleGetRequest invoke_onUpdateCheckDone LOG
             set_httpSimpleGetRequest m_httpSimple hrError].
        apply ShouldRetryWithAGetRequest_iff in Hr. destruct Hr as [Hhr _].
        rewrite Hhr, invalid_header_is_failure. reflexivity.
Qed.

End UpdateCheckerFacts.

Section UpdateCheckerWitnesses.
Import Win32 Cpp UpdateChecker.

(** A portable x64 engine with usage data to report; a portable x86
    engine under WOW64 on a system without [IsWow64Process2]; an x86
    engine on a system that reports an ARM64 machine. *)
Lemma primary_request_and_user_agent_witness :
  (exists uc,
     construct Scenario.reporting 1 false = Ok uc
     /\ sVerb (http_options (m_httpSimple uc)) = "POST"
     /\ lpOptional (http_options (m_httpSimple uc)) = Some "[1,2,3]"
     /\ dwOptionalSize (http_options (m_httpSimple uc)) = 7
     /\ sUserAgent (http_options (m_httpSimple uc))
        = "Windhawk/1.6 (34404; portable)")
  /\ (exists uc,
        construct Scenario.x86_under_wow64 1 true = Ok uc
        /\ sVerb (http_options (m_httpSimple uc)) = "GET"
        /\ GetNativeMachine Scenario.x86_under_wow64
           = IMAGE_FILE_MACHINE_AMD64
        /\ sUserAgent (http_options (m_httpSimple uc))
           = "Windhawk/1.6 (34404; portable)")
  /\ (exists uc,
        construct Scenario.x86_on_arm64 0 true = Ok uc
        /\ GetNativeMachine Scenario.x86_on_arm64 = 43620
        /\ sUserAgent (http_options (m_httpSimple uc))
           = "Windhawk/1.6 (43620)").
Proof.
  split; [|split].
  - destruct (construct Scenario.reporting 1 false) as [uc|e] eqn:Hc;
      [|vm_compute in Hc; discriminate Hc].
    exists uc. split; [reflexivity|].
    destruct (primary_request_and_user_agent
                Scenario.reporting 1 false uc Hc)
      as (Hpost & _ & Hua & _).
    destruct (Hpost ltac:(discriminate)) as (Hv & Hb & _ & Hsz & _).
    split; [exact Hv|]. split; [exact Hb|].
    split; [apply Hsz; vm_compute; discriminate|]. exact Hua.
  - destruct (construct Scenario.x86_under_wow64 1 true)
      as [uc|e] eqn:Hc; [|vm_compute in Hc; discriminate Hc].
    exists uc. split; [reflexivity|].
    destruct (primary_request_and_user_agent
                Scenario.x86_under_wow64 1 true uc Hc)
      as (_ & Hget & Hua & _ & _ & _ & Hold).
    destruct (Hget eq_refl) as (Hv & _).
    pose proof (Hold (or_intror eq_refl)) as Hm.
    split; [exact Hv|]. split; [exact Hm|].
    rewrite Hua, Hm. reflexivity.
  - destruct (construct Scenario.x86_on_arm64 0 true)
      as [uc|e] eqn:Hc; [|vm_compute in Hc; discriminate Hc].
    exists uc. split; [reflexivity|].
    destruct (primary_request_and_user_agent
                Scenario.x86_on_arm64 0 true uc Hc)
      as (_ & _ & Hua & _ & _ & Hnew & _).
    pose proof (Hnew (Some 43620) eq_refl eq_refl) as Hm.
    split; [exact Hm|].
    rewrite Hua, Hm. reflexivity.
Defined.



(** A transport that cannot start the fallback exchange. *)
Lemma completion_fires_once_witness :
  m_httpSimpleGetRequest Scenario.answered_405 = None
  /\ (let uc' := OnRequestDone Scenario.reporting_no_retry
                   Scenario.answered_405 in
      done_calls uc' = 1%nat
      /\ m_httpSimpleGetRequest uc' = None
      /\ logged uc' = ["Get request failed: ResultException"]).
Proof.
  split; [reflexivity|].
  destruct (completion_fires_once Scenario.reporting_no_retry
              Scenario.answered_405 eq_refl) as (_ & _ & Hthrow).
  destruct (Hthrow (ResultException E_FAIL) eq_refl eq_refl eq_refl)
    as (Hnone & Hlog & Hdone & _).
  cbv zeta. split; [exact Hdone|]. split; [exact Hnone | exact Hlog].
Defined.

(** The set-up [Scenario.answered_405] is what the asynchronous
    constructor and the completion of the primary exchange lead to. *)
Example answered_405_arises :
  match construct Scenario.reporting 0 true with
  | Ok uc =>
      set_httpSimple (complete Scenario.reporting (m_httpSimple uc)) uc
      = Scenario.answered_405
  | Throw _ => False
  end.
Proof. vm_compute. reflexivity. Qed.

(** Nothing to report: one GET, answered with 200 and merged. *)
Example silent_round :
  match construct Scenario.silent 0 false with
  | Ok uc =>
      sVerb (http_options (m_httpSimple uc)) = "GET"
      /\ m_httpSimpleGetRequest uc = None
      /\ fst (HandleResponse Scenario.silent uc)
         = @mkResult Scenario.silent 0 200 1
  | Throw _ => False
  end.
Proof. vm_compute. repeat split; reflexivity. Qed.

(** Usage to report, asynchronously: the POST is answered with 405, one
    fallback GET follows, the callback fires once, and the 200 of the
    fallback is what [HandleResponse] reports. *)
Example reporting_round :
  match construct Scenario.reporting 0 true with
  | Ok uc =>
      let uc1 := primary_completes Scenario.reporting uc in
      let uc2 := fallback_completes Scenario.reporting uc1 in
      sVerb (http_options (m_httpSimple uc)) = "POST"
      /\ GetLastStatusCode (m_httpSimple uc1) = 405
      /\ done_calls uc1 = 0%nat
      /\ done_calls uc2 = 1%nat
      /\ fst (HandleResponse Scenario.reporting uc2)
         = @mkResult Scenario.reporting 0 200 1
  | Throw _ => False
  end.
Proof. vm_compute. repeat split; reflexivity. Qed.

(** [Abort] after the round is over invokes no callback and leaves the
    result as it was. *)
Example abort_after_completion :
  match construct Scenario.reporting 0 true with
  | Ok uc =>
      let uc2 := fallback_completes Scenario.reporting
                   (primary_completes Scenario.reporting uc) in
      done_calls (Abort (Abort uc2)) = done_calls uc2
      /\ fst (HandleResponse Scenario.reporting (Abort (Abort uc2)))
         = fst (HandleResponse Scenario.reporting uc2)
  | Throw _ => False
  end.
Proof. vm_compute. repeat split; reflexivity. Qed.

End UpdateCheckerWitnesses.

(** ** Abort *)

Section AbortFacts.
Import Win32 Cpp UpdateChecker Interleaving.

Variable E : Environment.

(** Any number of calls of [Abort], as one update of the object. *)
Lemma Abort_iter (n : nat) (uc : UpdateChecker) :
  Nat.iter (S n) Abort uc
  = mkUpdateChecker (m_flags uc) (m_postedData uc)
      (Nat.iter (S n) http_Abort (m_httpSimple uc))
      (m_onUpdateCheckDone uc) true
      (option_map (Nat.iter (S n) http_Abort) (m_httpSimpleGetRequest uc))
      (done_calls uc) (logged uc) (merged uc).
Proof.
  induction n as [|n IH].
  - destruct uc as [f p h cb a [g|] d l m]; reflexivity.
  - change (Nat.iter (S (S n)) Abort uc)
      with (Abort (Nat.iter (S n) Abort uc)).
    rewrite IH. destruct (m_httpSimpleGetRequest uc); reflexivity.
Qed.

Lemma http_Abort_iter (n : nat) (x : CWinHTTPSimple) :
  Nat.iter n http_Abort x
  = mkHttp (http_options x) (http_asynchronous x) (http_headers x)
      (http_sent x) (http_onDone x) (GetRequestResult x)
      (GetLastStatusCode x) (GetResponse x) (n + http_aborts x).
Proof.
  induction n as [|n IH]; [destruct x; reflexivity|].
  change (Nat.iter (S n) http_Abort x)
    with (http_Abort (Nat.iter n http_Abort x)).
  rewrite IH. reflexivity.
Qed.

Lemma OnRequestDone_new_frame uc :
  m_aborted (snd (OnRequestDone_new E uc)) = m_aborted uc.
Proof.
  unfold OnRequestDone_new.
  destruct (new_CWinHTTPSimple E _ true); reflexivity.
Qed.

Lemma OnRequestDone_send_frame uc :
  m_aborted (snd (OnRequestDone_send E uc)) = m_aborted uc
  /\ (fallback_aborted uc -> fallback_aborted (snd (OnRequestDone_send E uc))).
Proof.
  unfold OnRequestDone_send, fallback_aborted.
  destruct (m_httpSimpleGetRequest uc) as [get|] eqn:Hg.
  - unfold SendRequest_async.
    destruct (FAILED (SendRequest_result E (http_options get))) eqn:Hf;
      cbv beta iota; rewrite ?Hf; cbn; auto.
  - cbn. rewrite Hg. auto.
Qed.

Lemma Abort_fallback_frame uc :
  m_aborted (Abort_fallback uc) = m_aborted uc.
Proof.
  unfold Abort_fallback. destruct (m_httpSimpleGetRequest uc); reflexivity.
Qed.

Ltac inv_step H :=
  inversion H; subst; clear H.

Lemma consistent_initial uc : consistent (initial uc).
Proof.
  unfold consistent, initial. cbn.
  repeat split; try reflexivity; intros; try lia.
  - destruct H as [H|H]; [congruence|lia].
  - destruct H as [H|H]; [discriminate H|lia].
Qed.

Ltac close_inv :=
  repeat split; auto;
  try solve [intuition (congruence || lia)].

Lemma consistent_step_abort s s' :
  consistent s -> step_abort s = Some s' -> consistent s'.
Proof.
  destruct s as [uc m pa pb n c1 c2].
  unfold consistent, step_abort. cbn.
  intros (Hm & Hex & Hab & Hpc & Hfb & Hcr) H.
  destruct pa; cbn in *.
  - inv_step H. cbn. close_inv.
  - inv_step H. cbn. close_inv.
  - destruct m; [discriminate H|]. inv_step H. cbn.
    destruct (done_holds pb); [discriminate Hm|]. close_inv.
  - inv_step H. cbn. rewrite Abort_fallback_frame. close_inv.
    intros _. unfold fallback_aborted, Abort_fallback.
    destruct (m_httpSimpleGetRequest uc) as [g|] eqn:Hg; cbn.
    + lia.
    + now rewrite Hg.
  - inv_step H. cbn. rewrite Hex. close_inv.
    destruct pb; try discriminate Hex; intros _; discriminate.
Qed.

Lemma consistent_step_done s s' :
  consistent s -> step_done E s = Some s' -> consistent s'.
Proof.
  destruct s as [uc m pa pb n c1 c2].
  unfold consistent, step_done, at_done. cbn.
  intros (Hm & Hex & Hab & Hpc & Hfb & Hcr) H.
  destruct pb; cbn in *.
  - inv_step H. cbn.
    destruct (ShouldRetryWithAGetRequest uc && negb (m_aborted uc));
      cbn; close_inv.
  - destruct m; [discriminate H|]. inv_step H. cbn.
    destruct (abort_holds pa); [discriminate Hm|]. close_inv.
  - inv_step H. cbn.
    destruct (m_aborted uc) eqn:Ha; cbn; close_inv.
  - destruct (OnRequestDone_new E uc) as [[[]|e] uc1] eqn:Hnew;
      inv_step H; cbn;
      pose proof (OnRequestDone_new_frame uc) as Hfr;
      rewrite Hnew in Hfr; cbn [snd] in Hfr; rewrite Hfr.
    + rewrite andb_true_r in Hex.
      destruct (abort_holds pa) eqn:Hpa; [discriminate Hex|].
      assert (Hn : n = 0%nat).
      { destruct n; [reflexivity|]. exfalso. apply Hpc; [lia|reflexivity]. }
      subst n. cbn. close_inv.
      intros [Hd|Hd]; [|lia]. rewrite Hd in Hpa. discriminate Hpa.
    + rewrite andb_true_r in Hex.
      destruct (abort_holds pa) eqn:Hpa; [discriminate Hex|].
      close_inv.
      intros [Hd|Hd]; [rewrite Hd in Hpa; discriminate Hpa|].
      exfalso. apply Hpc; [assumption|reflexivity].
  - destruct (OnRequestDone_send E uc) as [[[]|e] uc1] eqn:Hsend;
      inv_step H; cbn;
      destruct (OnRequestDone_send_frame uc) as [Hfr Hkeep];
      rewrite Hsend in Hfr, Hkeep; cbn [snd] in Hfr, Hkeep; rewrite Hfr;
      close_inv.
  - inv_step H. cbn. close_inv.
  - inv_step H. cbn. rewrite andb_true_r in Hex.
    rewrite Hex. close_inv.
  - inv_step H. cbn. rewrite andb_true_r in Hex.
    rewrite Hex. close_inv.
  - inv_step H. cbn. close_inv.
  - discriminate H.
Qed.

Lemma consistent_reachable uc s :
  reachable E (initial uc) s -> consistent s.
Proof.
  induction 1 as [|s1 s2 _ IH [t Hstep]].
  - apply consistent_initial.
  - destruct t; cbn in Hstep.
    + eapply consistent_step_abort; eassumption.
    + eapply consistent_step_done; eassumption.
Qed.

Lemma run_reachable schedule : forall s s',
  run E schedule s = Some s' -> reachable E s s'.
Proof.
  assert (Htrans : forall a b c, reachable E a b -> reachable E b c ->
                                 reachable E a c).
  { intros a b c Hab Hbc. induction Hbc; [assumption|].
    eapply reach_step; eassumption. }
  induction schedule as [|t rest IH]; intros s s' H; cbn in H.
  - inversion H. constructor.
  - destruct (step_of E t s) as [s1|] eqn:Hs; [|discriminate H].
    apply (Htrans s s1 s'); [|now apply IH].
    eapply reach_step; [constructor|]. econstructor. eassumption.
Qed.

(** [Abort], run without interference, is its five statements. *)
Lemma Abort_run s :
  pc_abort s = A_207 -> mutex s = None ->
  run E [TAbort; TAbort; TAbort; TAbort; TAbort] s
  = Some (mkState (Abort (object s)) None A_207 (pc_done s)
            (S (aborts_returned s)) (created_when_aborted s)
            (created_after_return s)).
Proof.
  destruct s as [uc m pa pb n c1 c2]. cbn. intros -> ->. reflexivity.
Qed.

(** [OnRequestDone], run without interference, is the statements of the
    completion thread, to the end. *)
Lemma OnRequestDone_run uc :
  exists k s,
    run E (repeat TDone k) (initial uc) = Some s
    /\ object s = OnRequestDone E uc
    /\ pc_done s = B_end
    /\ mutex s = None.
Proof.
  unfold OnRequestDone.
  destruct (ShouldRetryWithAGetRequest uc && negb (m_aborted uc)) eqn:Hatt.
  - assert (Hab : m_aborted uc = false).
    { apply andb_true_iff in Hatt. destruct Hatt as [_ H].
      now apply negb_true_iff in H. }
    rewrite Hab. cbn [negb].
    unfold OnRequestDone_try.
    destruct (OnRequestDone_new E uc) as [[[]|e] uc1] eqn:Hnew.
    + destruct (OnRequestDone_send E uc1) as [[[]|e] uc2] eqn:Hsend.
      * exists 6%nat. eexists. cbn. unfold step_done, at_done. cbn.
        rewrite Hatt. cbn. rewrite Hab. cbn. rewrite Hnew. cbn.
        rewrite Hsend. cbn. repeat split; reflexivity.
      * exists 7%nat. eexists. cbn. unfold step_done, at_done. cbn.
        rewrite Hatt. cbn. rewrite Hab. cbn. rewrite Hnew. cbn.
        rewrite Hsend. cbn. repeat split; reflexivity.
    + exists 6%nat. eexists. cbn. unfold step_done, at_done. cbn.
      rewrite Hatt. cbn. rewrite Hab. cbn. rewrite Hnew. cbn.
      repeat split; reflexivity.
  - exists 2%nat. eexists. cbn. unfold step_done, at_done. cbn.
    rewrite Hatt. cbn. repeat split; reflexivity.
Qed.

(** C5, amended.  Any number of calls of [Abort] sets the abort flag,
    calls [Abort] on the primary exchange and on the fallback exchange
    if there is one, once per call, and changes nothing else.  Run after
    the flag is set, the completion routine creates no fallback and only
    invokes the callback.  With [Abort] and the completion routine
    running at once, statement by statement: the fallback is created
    and started, and aborted, only by the thread holding the mutex; once
    a call of [Abort] has returned, the flag is set, no fallback object
    is created any more, and a fallback object that exists has been
    aborted; the re-check under the mutex of a set flag leaves the
    object as it is. *)
Theorem Abort_idempotent_and_fallback_aborted
    (uc : UpdateChecker) (n : nat) (s : State) :
  Nat.iter (S n) Abort uc
  = mkUpdateChecker (m_flags uc) (m_postedData uc)
      (Nat.iter (S n) http_Abort (m_httpSimple uc))
      (m_onUpdateCheckDone uc) true
      (option_map (Nat.iter (S n) http_Abort) (m_httpSimpleGetRequest uc))
      (done_calls uc) (logged uc) (merged uc)
  /\ (forall x,
        Nat.iter (S n) http_Abort x
        = mkHttp (http_options x) (http_asynchronous x) (http_headers x)
            (http_sent x) (http_onDone x) (GetRequestResult x)
            (GetLastStatusCode x) (GetResponse x) (S n + http_aborts x))
  /\ (m_aborted uc = true ->
      OnRequestDone E uc = invoke_onUpdateCheckDone uc)
  /\ (reachable E (initial uc) s ->
      (pc_done s = B_256 \/ pc_done s = B_258 -> mutex s = Some TDone)
      /\ (pc_abort s = A_213 -> mutex s = Some TAbort)
      /\ created_after_return s = false
      /\ ((1 <= aborts_returned s)%nat ->
          m_aborted (object s) = true
          /\ pc_done s <> B_256
          /\ fallback_aborted (object s)))
  /\ (pc_done s = B_254 -> m_aborted (object s) = true ->
      exists s', step_done E s = Some s'
                 /\ pc_done s' = B_268 /\ object s' = object s).
Proof.
  split; [apply Abort_iter|]. split; [intros x; apply http_Abort_iter|].
  split; [|split].
  - intros Hab. unfold OnRequestDone. rewrite Hab.
    now rewrite andb_false_r.
  - intros Hreach.
    destruct (consistent_reachable uc s Hreach)
      as (Hm & Hex & Hab & Hpc & Hfb & Hcr).
    split; [|split; [|split; [assumption|]]].
    + intros Hpc'. rewrite Hm.
      destruct (abort_holds (pc_abort s)) eqn:Hpa.
      * destruct Hpc' as [Hp|Hp]; rewrite Hp in Hex; discriminate Hex.
      * destruct Hpc' as [Hp|Hp]; rewrite Hp; reflexivity.
    + intros Hpa. rewrite Hm, Hpa. reflexivity.
    + intros Hret. auto.
  - intros Hpc Hab. unfold step_done. rewrite Hpc, Hab. cbn.
    eexists. repeat split.
Qed.

End AbortFacts.

Section AbortWitnesses.
Import Win32 Cpp UpdateChecker Interleaving.

(** C5, as stated, fails on "once Abort has set the abort flag, no
    fallback exchange object is ever created afterwards": the completion
    thread passes both tests of the flag and takes the mutex, [Abort]
    then sets the flag, and the completion thread goes on to construct
    the fallback object. *)
Lemma fallback_created_after_abort_flag :
  (exists s,
     run Scenario.reporting [TDone; TDone; TDone; TAbort; TDone]
         (initial Scenario.answered_405) = Some s
     /\ pc_abort s = A_209
     /\ m_aborted (object s) = true
     /\ created_when_aborted s = true
     /\ m_httpSimpleGetRequest (object s) <> None)
  /\ ~ (forall s,
          reachable Scenario.reporting (initial Scenario.answered_405) s ->
          created_when_aborted s = false).
Proof.
  split.
  - eexists. split; [vm_compute; reflexivity|].
    cbn. repeat split; discriminate.
  - intros Hall.
    destruct (run Scenario.reporting [TDone; TDone; TDone; TAbort; TDone]
                (initial Scenario.answered_405)) as [s|] eqn:Hrun;
      [|vm_compute in Hrun; discriminate Hrun].
    pose proof (Hall s (run_reachable _ _ _ _ Hrun)) as Hfalse.
    vm_compute in Hrun. inversion Hrun. subst s.
    cbn in Hfalse. discriminate Hfalse.
Qed.

(** The interleaving in which the fallback is created while [Abort]
    runs, followed to the return of [Abort]. *)
Lemma Abort_idempotent_and_fallback_aborted_witness :
  exists s,
    run Scenario.reporting
        [TDone; TDone; TDone; TAbort; TDone; TDone; TDone;
         TAbort; TAbort; TAbort; TAbort]
        (initial Scenario.answered_405) = Some s
    /\ aborts_returned s = 1%nat
    /\ m_aborted (object s) = true
    /\ fallback_aborted (object s)
    /\ m_httpSimpleGetRequest (object s) <> None.
Proof.
  destruct (run Scenario.reporting
              [TDone; TDone; TDone; TAbort; TDone; TDone; TDone;
               TAbort; TAbort; TAbort; TAbort]
              (initial Scenario.answered_405)) as [s|] eqn:Hrun;
    [|vm_compute in Hrun; discriminate Hrun].
  exists s. split; [reflexivity|].
  destruct (Abort_idempotent_and_fallback_aborted
              Scenario.reporting Scenario.answered_405 0 s)
    as (_ & _ & _ & Hreach & _).
  destruct (Hreach (run_reachable _ _ _ _ Hrun)) as (_ & _ & _ & Hret).
  assert (Hone : aborts_returned s = 1%nat)
    by (vm_compute in Hrun; inversion Hrun; reflexivity).
  split; [exact Hone|].
  destruct (Hret ltac:(rewrite Hone; apply le_n)) as (Ha & _ & Hf).
  split; [exact Ha|]. split; [exact Hf|].
  vm_compute in Hrun. inversion Hrun. cbn. discriminate.
Defined.

End AbortWitnesses.

(** ** The process-creation hook *)

Section HookFacts.
Import Win32 NewProcessInjector.

Variable E : Environment.

Lemma to_LONG_mod x : to_LONG x mod 2 ^ 32 = x mod 2 ^ 32.
Proof.
  unfold to_LONG. cbv zeta.
  destruct (x mod 2 ^ 32 <? 2 ^ 31).
  - apply Z.mod_mod. lia.
  - rewrite <- (Z.mod_mod x (2 ^ 32)) at 2 by lia.
    rewrite <- (Z_mod_plus_full (x mod 2 ^ 32 - 2 ^ 32) 1 (2 ^ 32)).
    f_equal. lia.
Qed.

Lemma to_LONG_congr x y :
  x mod 2 ^ 32 = y mod 2 ^ 32 -> to_LONG x = to_LONG y.
Proof. unfold to_LONG. intros ->. reflexivity. Qed.

Lemma to_LONG_add x d : to_LONG (to_LONG x + d) = to_LONG (x + d).
Proof.
  apply to_LONG_congr.
  rewrite Z.add_mod by lia. rewrite to_LONG_mod.
  rewrite <- Z.add_mod by lia. reflexivity.
Qed.

Lemma to_LONG_sub x d : to_LONG (to_LONG x - d) = to_LONG (x - d).
Proof. rewrite <- !Z.add_opp_r. apply to_LONG_add. Qed.

Lemma to_LONG_small x : 0 <= x < 2 ^ 31 -> to_LONG x = x.
Proof.
  intros Hx. unfold to_LONG. cbv zeta.
  rewrite Z.mod_small by lia.
  destruct (Z.ltb_spec x (2 ^ 31)); lia.
Qed.

(** The counter and the calls under way. *)
Lemma hook_counter g0 g :
  hook_reachable E (idle g0) g ->
  m_hookProcCallCounter (this_ g)
  = to_LONG (Z.of_nat (List.length (in_flight g)))
  /\ entered g = (exited g + List.length (in_flight g))%nat.
Proof.
  induction 1 as [|g1 g2 _ [IHc IHn] Hstep].
  - split; reflexivity.
  - inversion Hstep; subst; cbn [this_ in_flight entered exited
                                  increment decrement
                                  m_hookProcCallCounter].
    + rewrite IHc, to_LONG_add. split.
      * f_equal. cbn [List.length]. lia.
      * cbn [List.length]. lia.
    + rewrite IHc, IHn, H. rewrite !length_app. cbn [List.length].
      split; reflexivity.
    + rewrite IHc, IHn, H. rewrite !length_app. cbn [List.length].
      split; reflexivity.
    + rewrite IHc, IHn, H. rewrite !length_app. cbn [List.length].
      rewrite to_LONG_sub. split; [f_equal|]; lia.
Qed.

(** C8: when the saved implementation fails (returns [FALSE]), the hook
    returns what it returned, and the only thing it has done is to call
    the saved implementation: no policy predicate was evaluated, nothing
    was injected, nothing was logged.  (The hook returns the saved
    implementation's result in every case.) *)
Theorem hook_returns_failure_untouched
    (this : NewProcessInjector) (arguments : CreateProcessArguments) :
  fst (m_originalCreateProcessInternalW E arguments) = 0 ->
  let outcome := CreateProcessInternalW_Hook E this arguments in
  fst (fst outcome) = fst (m_originalCreateProcessInternalW E arguments)
  /\ snd outcome = [EvOriginal arguments]
  /\ (forall name, ~ In (EvShouldSkipNewProcess name) (snd outcome))
  /\ (forall name, ~ In (EvShouldAttachExemptThread name) (snd outcome))
  /\ (forall process exempt, ~ In (EvInject process exempt) (snd outcome)).
Proof.
  intros Hfail. unfold CreateProcessInternalW_Hook.
  destruct (m_originalCreateProcessInternalW E arguments) as [bRet info].
  cbn [fst] in Hfail. subst bRet. cbn.
  repeat split; intros; intros [Hin|[]]; discriminate Hin.
Qed.

(** C9: at every point of any interleaving of hook calls, the number of
    calls that have entered is the number that have left plus the number
    under way; the counter is that number under way as a 32-bit [int]:
    as long as fewer than 2^31 calls are under way it equals entered
    minus exited and is not negative, and it is 0 whenever no call is
    under way.  A call is counted from its first action to its last,
    whether the saved implementation failed or not. *)
Theorem hook_counter_counts_calls_in_flight
    (this : NewProcessInjector) (g : Hooked) :
  hook_reachable E (idle this) g ->
  entered g = (exited g + List.length (in_flight g))%nat
  /\ m_hookProcCallCounter (this_ g)
     = to_LONG (Z.of_nat (entered g) - Z.of_nat (exited g))
  /\ (Z.of_nat (List.length (in_flight g)) < 2 ^ 31 ->
      m_hookProcCallCounter (this_ g)
      = Z.of_nat (entered g) - Z.of_nat (exited g)
      /\ 0 <= m_hookProcCallCounter (this_ g))
  /\ (in_flight g = [] ->
      m_hookProcCallCounter (this_ g) = 0 /\ entered g = exited g)
  /\ (forall arguments,
        -2 ^ 31 <= m_hookProcCallCounter (this_ g) < 2 ^ 31 - 1 ->
        m_hookProcCallCounter
          (snd (fst (CreateProcessInternalW_Hook E (this_ g) arguments)))
        = m_hookProcCallCounter (this_ g))
  /\ (forall arguments,
        snd (CreateProcessInternalW_Hook E (this_ g) arguments)
        = EvOriginal arguments
          :: (if fst (m_originalCreateProcessInternalW E arguments) =? 0
              then []
              else HandleCreatedProcess E (increment (this_ g))
                     (snd (m_originalCreateProcessInternalW E arguments)))).
Proof.
  intros Hreach. destruct (hook_counter this g Hreach) as [Hc Hn].
  split; [exact Hn|]. split; [|split; [|split; [|split]]].
  - rewrite Hc. f_equal. lia.
  - intros Hsmall. rewrite Hc, to_LONG_small by lia. lia.
  - intros Hnone. rewrite Hc, Hn, Hnone. cbn. split; [reflexivity|lia].
  - intros arguments Hrange. unfold CreateProcessInternalW_Hook.
    destruct (m_originalCreateProcessInternalW E arguments) as [bRet info].
    cbn [fst snd decrement increment m_hookProcCallCounter].
    rewrite to_LONG_sub.
    replace (m_hookProcCallCounter (this_ g) + 1 - 1)
      with (m_hookProcCallCounter (this_ g)) by lia.
    set (c := m_hookProcCallCounter (this_ g)) in *.
    unfold to_LONG. cbv zeta.
    destruct (Z_le_gt_dec 0 c) as [Hpos|Hneg].
    + rewrite Z.mod_small by lia.
      destruct (Z.ltb_spec c (2 ^ 31)); lia.
    + replace (c mod 2 ^ 32) with (c + 2 ^ 32).
      * destruct (Z.ltb_spec (c + 2 ^ 32) (2 ^ 31)); lia.
      * symmetry. rewrite <- (Z_mod_plus_full c 1 (2 ^ 32)).
        apply Z.mod_small. lia.
  - intros arguments. unfold CreateProcessInternalW_Hook.
    destruct (m_originalCreateProcessInternalW E arguments) as [bRet info].
    reflexivity.
Qed.

End HookFacts.

Section HookWitnesses.
Import Win32 NewProcessInjector.

(** A process in which creation fails. *)
Lemma hook_returns_failure_untouched_witness :
  fst (m_originalCreateProcessInternalW creation_fails some_call) = 0
  /\ CreateProcessInternalW_Hook creation_fails some_injector some_call
     = (0, some_injector, [EvOriginal some_call]).
Proof.
  split; [reflexivity|].
  destruct (hook_returns_failure_untouched creation_fails some_injector
              some_call eq_refl) as (Hret & Hev & _).
  destruct (CreateProcessInternalW_Hook creation_fails some_injector some_call)
    as [[bRet this'] events] eqn:Hhook.
  cbn [fst snd] in Hret, Hev. subst bRet events.
  vm_compute in Hhook. inversion Hhook. reflexivity.
Defined.

(** Two calls under way. *)
Lemma hook_counter_counts_calls_in_flight_witness :
  exists g,
    hook_reachable creation_succeeds (idle some_injector) g
    /\ List.length (in_flight g) = 2%nat
    /\ m_hookProcCallCounter (this_ g)
       = Z.of_nat (entered g) - Z.of_nat (exited g)
    /\ 0 <= m_hookProcCallCounter (this_ g).
Proof.
  pose (R1 := hook_next creation_succeeds (idle some_injector) _ _
                (hook_here _ _)
                (hook_enter creation_succeeds (idle some_injector) some_call)).
  pose (R2 := hook_next creation_succeeds (idle some_injector) _ _ R1
                (hook_enter creation_succeeds _ some_call)).
  eexists. split; [exact R2|]. split; [reflexivity|].
  destruct (hook_counter_counts_calls_in_flight creation_succeeds
              some_injector _ R2) as (_ & _ & Hsmall & _).
  apply Hsmall. reflexivity.
Defined.

End HookWitnesses.

(* ===================================================================== *)
(** * Part III: further properties of the same code                       *)
(* ===================================================================== *)

(** ** Names, boundary descriptors and namespaces *)

Section NamespaceFurther.
Import Win32 Cpp Kernel SessionPrivateNamespace.

Lemma bd_eqb_name a b : bd_eqb a b = true -> bd_name a = bd_name b.
Proof.
  unfold bd_eqb. intros H.
  repeat (apply andb_true_iff in H; destruct H as [H _]).
  now apply String.eqb_eq.
Qed.

Lemma find_namespace_some bd l ns :
  find_namespace bd l = Some ns ->
  In ns l /\ bd_name (ns_boundary ns) = bd_name bd.
Proof.
  unfold find_namespace. intros H.
  destruct (find_some _ _ H) as [Hin Heq]. split; [exact Hin|].
  symmetry. now apply bd_eqb_name.
Qed.

Lemma names_of_distinct_ids N M :
  is_DWORD N -> is_DWORD M -> N <> M ->
  ("WindhawkSession" ++ utoa N)%string
  <> ("WindhawkSession" ++ utoa M)%string.
Proof.
  intros HN HM Hne Heq. apply Hne.
  apply (MakeName_injective "" "" N M HN HM).
  now rewrite (MakeName_value "" N HN), (MakeName_value "" M HM).
Qed.

(** The names of two different 32-bit process ids differ, whatever the
    buffers held, and so do the boundary descriptors built from them. *)
Theorem distinct_ids_distinct_names
    (buf1 buf2 : string) (N M : Z) :
  is_DWORD N -> is_DWORD M -> N <> M ->
  fst (MakeName buf1 N) <> fst (MakeName buf2 M)
  /\ bd_eqb (boundary_of (fst (MakeName buf1 N)))
            (boundary_of (fst (MakeName buf2 M))) = false.
Proof.
  intros HN HM Hne.
  assert (Hnames : fst (MakeName buf1 N) <> fst (MakeName buf2 M)).
  { intros Heq. apply Hne. exact (MakeName_injective _ _ _ _ HN HM Heq). }
  split; [exact Hnames|].
  destruct (bd_eqb _ _) eqn:Hb; [|reflexivity].
  apply bd_eqb_name in Hb. contradiction.
Qed.

(** Process 4 and process 40. *)
Lemma distinct_ids_distinct_names_witness :
  fst (MakeName "" 4) <> fst (MakeName "x" 40).
Proof.
  refine (proj1 (distinct_ids_distinct_names "" "x" 4 40 _ _ _));
    unfold is_DWORD, DWORD_MAX; lia.
Defined.

(** [BuildBoundaryDescriptor] never touches the existing namespaces and
    makes at most five primitive calls.  When it returns, the descriptor
    is the one of the name, with exactly the SID of everyone and the
    medium label, and the only allocation it has added is that
    descriptor: both SIDs have been freed.  When it throws, the
    allocations held are those held before: the SIDs and the descriptor
    have been released. *)
Theorem BuildBoundaryDescriptor_releases
    (faults : nat -> bool) (name : string) (s : OS) :
  let r := fst (BuildBoundaryDescriptor faults name s) in
  let s' := snd (BuildBoundaryDescriptor faults name s) in
  os_namespaces s' = os_namespaces s
  /\ (exists k, (k <= 5)%nat
                /\ os_calls s'
                   = (os_calls s
                      ++ firstn k (BuildBoundaryDescriptor_calls name))%list)
  /\ (forall bd, r = Ok bd ->
        bd = mkBoundary name 0 [WorldSid] [MediumLabelSid]
        /\ os_live s' = RBoundaryDescriptor :: os_live s
        /\ no_faults faults (List.length (os_calls s)) 5)
  /\ (forall e, r = Throw e ->
        os_live s' = os_live s
        /\ exists k, (k < 5)%nat
                     /\ first_fault faults (List.length (os_calls s)) k
                     /\ e = ResultException
                              (nth_error (BuildBoundaryDescriptor_calls name)
                                         k))
  /\ (no_faults faults (List.length (os_calls s)) 5 ->
      r = Ok (boundary_of name)).
Proof.
  cbv zeta.
  destruct (BuildBoundaryDescriptor_cases faults name s)
    as [[Hnf Heq] | (k & c & Hk & Hff & Hc & Heq)]; rewrite Heq;
    cbn [fst snd os_namespaces os_live os_calls].
  - split; [reflexivity|]. split.
    { exists 5%nat. split; [lia|reflexivity]. }
    split; [|split; [discriminate|reflexivity]].
    intros bd Hbd. inversion Hbd. auto.
  - split; [reflexivity|]. split.
    { exists (S k). split; [lia|reflexivity]. }
    split; [discriminate|]. split.
    + intros e He. inversion He. split; [reflexivity|].
      exists k. rewrite Hc. auto.
    + intros Hnf. destruct Hff as [_ Hf]. rewrite (Hnf k Hk) in Hf.
      discriminate Hf.
Qed.

(** [Create] returns a handle exactly when none of its seven primitive
    calls is faulty and no namespace with the boundary of the name
    exists yet.  Then it has made exactly those seven calls, exactly one
    namespace has come into existence, with that boundary and the
    full-access descriptor, the handle designates it under the name as
    alias and destroys it on close, and the only allocation added is the
    namespace handle: the boundary descriptor, the SIDs and the security
    descriptor have been released. *)
Theorem Create_returns_iff_and_keeps_only_the_handle
    (faults : nat -> bool) (stack : string) (pid : Z) (s : OS) :
  is_DWORD pid ->
  let name := ("WindhawkSession" ++ utoa pid)%string in
  let ns := mkNamespace (boundary_of name) SD_FullAccess in
  ((exists h, fst (Create faults stack pid s) = Ok h)
   <-> no_faults faults (List.length (os_calls s)) 7
       /\ find_namespace (boundary_of name) (os_namespaces s) = None)
  /\ (forall h, fst (Create faults stack pid s) = Ok h ->
        h = mkHandle ns name true
        /\ os_namespaces (snd (Create faults stack pid s))
           = ns :: os_namespaces s
        /\ os_live (snd (Create faults stack pid s))
           = RPrivateNamespace :: os_live s
        /\ os_calls (snd (Create faults stack pid s))
           = (os_calls s ++ Create_calls name)%list).
Proof.
  intros Hpid name ns.
  assert (Hname : fst (MakeName stack pid) = name)
    by (rewrite (MakeName_value stack pid Hpid); reflexivity).
  pose proof (Create_cases faults stack pid s) as HC.
  cbv zeta in HC. rewrite Hname in HC. fold ns in HC.
  destruct HC as [(Hnf & Hnone & Heq)
                 | [(Hnf & Hsome & Heq)
                   | (k & c & Hk & [_ Hf] & _ & Heq)]];
    rewrite Heq; cbn [fst snd os_namespaces os_live os_calls].
  - split; [split; eauto|]. intros h Hh. inversion Hh. auto.
  - split; [|discriminate]. split.
    + intros [h Hh]. discriminate Hh.
    + intros [_ Hnone]. contradiction.
  - split; [|discriminate]. split.
    + intros [h Hh]. discriminate Hh.
    + intros [Hnf _]. rewrite (Hnf k Hk) in Hf. discriminate Hf.
Qed.

(** Process 1234 on a system with no namespace. *)
Lemma Create_returns_iff_and_keeps_only_the_handle_witness :
  is_DWORD 1234
  /\ os_live (snd (Create (fun _ => false) "" 1234
                     (mkOS [] [RHLocal] [])))
     = [RPrivateNamespace; RHLocal].
Proof.
  assert (H : is_DWORD 1234) by (unfold is_DWORD, DWORD_MAX; lia).
  split; [exact H|].
  destruct (Create_returns_iff_and_keeps_only_the_handle
              (fun _ => false) "" 1234 (mkOS [] [RHLocal] []) H)
    as [Hiff Hok].
  destruct (proj2 Hiff) as [h Hh].
  { split; [intros j _; reflexivity | reflexivity]. }
  exact (proj1 (proj2 (proj2 (Hok h Hh)))).
Defined.

(** A second [Create] for the same process id, wherever the namespace
    made by the first still exists, throws at [CreatePrivateNamespace]
    (or earlier, at a faulty primitive) and leaves the namespaces and the
    allocations held as they were. *)
Theorem Create_twice_throws
    (faults : nat -> bool) (stack stack' : string) (pid : Z)
    (s s1 s2 : OS) (h : NamespaceHandle) :
  is_DWORD pid ->
  Create faults stack pid s = (Ok h, s1) ->
  os_namespaces s2 = os_namespaces s1 ->
  (exists e, fst (Create faults stack' pid s2) = Throw e)
  /\ os_namespaces (snd (Create faults stack' pid s2)) = os_namespaces s2
  /\ os_live (snd (Create faults stack' pid s2)) = os_live s2
  /\ (no_faults faults (List.length (os_calls s2)) 7 ->
      fst (Create faults stack' pid s2)
      = Throw (ResultException
                 (Some (CallCreatePrivateNamespace
                          (mkSecAttr SD_FullAccess false)
                          (ns_boundary (h_namespace h)) (h_alias h))))).
Proof.
  intros Hpid Hfirst Hsame.
  set (name := ("WindhawkSession" ++ utoa pid)%string).
  assert (Hname : forall st, fst (MakeName st pid) = name)
    by (intros st; rewrite (MakeName_value st pid Hpid); reflexivity).
  pose proof (Create_cases faults stack pid s) as HC.
  cbv zeta in HC. rewrite Hname in HC.
  destruct HC as [(_ & _ & Heq)
                 | [(_ & _ & Heq) | (k & c & _ & _ & _ & Heq)]];
    rewrite Heq in Hfirst; inversion Hfirst; subst h s1; clear Hfirst.
  cbn [os_namespaces h_namespace ns_boundary h_alias] in *.
  assert (Hfind : find_namespace (boundary_of name) (os_namespaces s2)
                  <> None).
  { rewrite Hsame. unfold find_namespace. cbn [find ns_boundary].
    rewrite bd_eqb_refl. discriminate. }
  pose proof (Create_cases faults stack' pid s2) as HC2.
  cbv zeta in HC2. rewrite Hname in HC2.
  destruct HC2 as [(_ & Hnone & _)
                  | [(Hnf & _ & Heq2)
                    | (k & c & Hk & [_ Hf] & _ & Heq2)]].
  - contradiction.
  - rewrite Heq2. cbn [fst snd os_namespaces os_live].
    repeat split; eauto.
  - rewrite Heq2. cbn [fst snd os_namespaces os_live].
    repeat split; eauto.
    intros Hnf. rewrite (Hnf k Hk) in Hf. discriminate Hf.
Qed.

(** Process 1234, twice. *)
Lemma Create_twice_throws_witness :
  exists e,
    fst (Create (fun _ => false) "" 1234
           (snd (Create (fun _ => false) "" 1234 (mkOS [] [] []))))
    = Throw e.
Proof.
  assert (H : is_DWORD 1234) by (unfold is_DWORD, DWORD_MAX; lia).
  exact (proj1 (Create_twice_throws (fun _ => false) "" "" 1234
                  (mkOS [] [] []) _ _ _ H eq_refl eq_refl)).
Defined.

(** The namespaces of two different process ids are apart: once
    [Create] has returned for one id, on a system where the other id has
    no namespace, [Open] for the other id throws, and [Create] for the
    other id, with no faulty primitive, returns a handle on a different
    namespace and leaves the first in existence. *)
Theorem namespaces_of_distinct_ids_are_apart
    (faults : nat -> bool) (stackN stackM : string) (N M : Z)
    (s s1 : OS) (h : NamespaceHandle) :
  is_DWORD N -> is_DWORD M -> N <> M ->
  find_namespace (boundary_of ("WindhawkSession" ++ utoa M))
                 (os_namespaces s) = None ->
  Create faults stackN N s = (Ok h, s1) ->
  (exists e, fst (Open faults stackM M s1) = Throw e)
  /\ (no_faults faults (List.length (os_calls s1)) 7 ->
      exists h',
        fst (Create faults stackM M s1) = Ok h'
        /\ h_namespace h' <> h_namespace h
        /\ h_alias h' <> h_alias h
        /\ In (h_namespace h)
              (os_namespaces (snd (Create faults stackM M s1)))
        /\ In (h_namespace h')
              (os_namespaces (snd (Create faults stackM M s1)))).
Proof.
  intros HN HM Hne Hfree Hfirst.
  set (nameN := ("WindhawkSession" ++ utoa N)%string) in *.
  set (nameM := ("WindhawkSession" ++ utoa M)%string) in *.
  assert (HnN : forall st, fst (MakeName st N) = nameN)
    by (intros st; rewrite (MakeName_value st N HN); reflexivity).
  assert (HnM : forall st, fst (MakeName st M) = nameM)
    by (intros st; rewrite (MakeName_value st M HM); reflexivity).
  assert (Hdiff : nameN <> nameM) by (apply names_of_distinct_ids; auto).
  clearbody nameN nameM.
  pose proof (Create_cases faults stackN N s) as HC.
  cbv zeta in HC. rewrite HnN in HC.
  destruct HC as [(_ & _ & Heq)
                 | [(_ & _ & Heq) | (k & c & _ & _ & _ & Heq)]];
    rewrite Heq in Hfirst; inversion Hfirst; subst h s1; clear Hfirst.
  cbn [os_namespaces os_calls h_namespace h_alias] in *.
  assert (Hfree1 : find_namespace (boundary_of nameM)
                     (mkNamespace (boundary_of nameN) SD_FullAccess
                      :: os_namespaces s) = None).
  { unfold find_namespace. cbn [find ns_boundary].
    destruct (bd_eqb (boundary_of nameM) (boundary_of nameN)) eqn:Hb.
    - apply bd_eqb_name in Hb. unfold boundary_of in Hb.
      cbn [bd_name] in Hb. symmetry in Hb. contradiction.
    - exact Hfree. }
  split.
  - pose proof (Open_cases faults stackM M
                  (mkOS (mkNamespace (boundary_of nameN) SD_FullAccess
                         :: os_namespaces s)
                        (RPrivateNamespace :: os_live s)
                        (os_calls s ++ Create_calls nameN))) as HO.
    cbv zeta in HO. rewrite HnM in HO. cbn [os_namespaces] in HO.
    destruct HO as [(ns & _ & Hsome & _)
                   | [(_ & _ & Heq2) | (k & c & _ & _ & _ & Heq2)]].
    + congruence.
    + rewrite Heq2. cbn [fst]. eauto.
    + rewrite Heq2. cbn [fst]. eauto.
  - intros Hnf.
    pose proof (Create_cases faults stackM M
                  (mkOS (mkNamespace (boundary_of nameN) SD_FullAccess
                         :: os_namespaces s)
                        (RPrivateNamespace :: os_live s)
                        (os_calls s ++ Create_calls nameN))) as HC2.
    cbv zeta in HC2. rewrite HnM in HC2. cbn [os_namespaces os_calls] in HC2.
    destruct HC2 as [(_ & _ & Heq2)
                    | [(_ & Hsome & _)
                      | (k & c & Hk & [_ Hf] & _ & _)]].
    + rewrite Heq2. cbn [fst snd os_namespaces].
      eexists. split; [reflexivity|]. cbn [h_namespace h_alias].
      split; [|split; [congruence|split; [right; now left | now left]]].
      intros Heqns. inversion Heqns. congruence.
    + contradiction.
    + cbn [os_calls] in Hnf. rewrite (Hnf k Hk) in Hf. discriminate Hf.
Qed.

(** Processes 1234 and 1235. *)
Lemma namespaces_of_distinct_ids_are_apart_witness :
  exists e,
    fst (Open (fun _ => false) "" 1235
           (snd (Create (fun _ => false) "" 1234 (mkOS [] [] []))))
    = Throw e.
Proof.
  assert (H1 : is_DWORD 1234) by (unfold is_DWORD, DWORD_MAX; lia).
  assert (H2 : is_DWORD 1235) by (unfold is_DWORD, DWORD_MAX; lia).
  assert (H3 : 1234 <> 1235) by lia.
  exact (proj1 (namespaces_of_distinct_ids_are_apart
                  (fun _ => false) "" "" 1234 1235 (mkOS [] [] []) _ _
                  H1 H2 H3 eq_refl eq_refl)).
Defined.

(** When [Open] returns, the handle designates a namespace that exists,
    whose boundary carries the name of the process id, under that name
    as alias; closing the handle does not destroy the namespace; [Open]
    has made exactly its six primitive calls, and the only allocation it
    has added is the handle: the boundary descriptor and the SIDs have
    been released. *)
Theorem Open_keeps_only_the_handle
    (faults : nat -> bool) (stack : string) (pid : Z) (s : OS)
    (h : NamespaceHandle) :
  is_DWORD pid ->
  fst (Open faults stack pid s) = Ok h ->
  let name := ("WindhawkSession" ++ utoa pid)%string in
  In (h_namespace h) (os_namespaces s)
  /\ bd_name (ns_boundary (h_namespace h)) = name
  /\ h_alias h = name
  /\ h_destroy_on_close h = false
  /\ os_live (snd (Open faults stack pid s))
     = RPrivateNamespace :: os_live s
  /\ os_calls (snd (Open faults stack pid s))
     = (os_calls s ++ Open_calls name)%list.
Proof.
  intros Hpid Hok name.
  assert (Hname : fst (MakeName stack pid) = name)
    by (rewrite (MakeName_value stack pid Hpid); reflexivity).
  pose proof (Open_cases faults stack pid s) as HO.
  cbv zeta in HO. rewrite Hname in HO.
  destruct HO as [(ns & _ & Hsome & Heq)
                 | [(_ & _ & Heq) | (k & c & _ & _ & _ & Heq)]];
    rewrite Heq in *; cbn [fst snd os_live os_calls] in *;
    try discriminate Hok.
  inversion Hok. subst h. cbn [h_namespace h_alias h_destroy_on_close].
  destruct (find_namespace_some _ _ _ Hsome) as [Hin Hbd].
  repeat split; auto.
Qed.

(** [Open] after [Create] for process 1234. *)
Lemma Open_keeps_only_the_handle_witness :
  os_live (snd (Open (fun _ => false) "" 1234
                  (snd (Create (fun _ => false) "" 1234
                          (mkOS [] [] [])))))
  = [RPrivateNamespace; RPrivateNamespace].
Proof.
  assert (H : is_DWORD 1234) by (unfold is_DWORD, DWORD_MAX; lia).
  destruct (fst (Open (fun _ => false) "" 1234
                   (snd (Create (fun _ => false) "" 1234
                           (mkOS [] [] []))))) as [h|e] eqn:Hopen;
    [|vm_compute in Hopen; discriminate Hopen].
  exact (proj1 (proj2 (proj2 (proj2 (proj2
           (Open_keeps_only_the_handle (fun _ => false) "" 1234 _ h
              H Hopen)))))).
Defined.

End NamespaceFurther.

(** ** The update checker, further *)

Section UpdateCheckerFurther.
Import Win32 Cpp UpdateChecker.

Variable E : Environment.

(** [GetNativeMachineImpl]: when [IsWow64Process2] can be resolved, its
    answer alone decides (the native machine, or UNKNOWN when the call
    fails), whatever the build target and [IsWow64Process] say.  When it
    cannot, an x64 build answers AMD64, an x86 build answers AMD64 under
    WOW64, I386 otherwise and UNKNOWN when [IsWow64Process] fails, and
    any other build answers UNKNOWN.  If the system reports a 16-bit
    machine code, the answer is a 16-bit code, and its decimal numeral
    in the user agent reads back as the code. *)
Theorem GetNativeMachineImpl_decides :
  (forall answer,
     kernel32Module E = true -> pIsWow64Process2 E = Some answer ->
     GetNativeMachineImpl E
     = match answer with
       | Some nativeMachine => nativeMachine
       | None => IMAGE_FILE_MACHINE_UNKNOWN
       end)
  /\ (kernel32Module E = false \/ pIsWow64Process2 E = None ->
      (target E = M_X64 ->
       GetNativeMachineImpl E = IMAGE_FILE_MACHINE_AMD64)
      /\ (target E = M_OTHER ->
          GetNativeMachineImpl E = IMAGE_FILE_MACHINE_UNKNOWN)
      /\ (target E = M_IX86 ->
          GetNativeMachineImpl E
          = match IsWow64Process E with
            | Some true => IMAGE_FILE_MACHINE_AMD64
            | Some false => IMAGE_FILE_MACHINE_I386
            | None => IMAGE_FILE_MACHINE_UNKNOWN
            end)
      /\ (GetNativeMachineImpl E = IMAGE_FILE_MACHINE_I386 ->
          target E = M_IX86 /\ IsWow64Process E = Some false))
  /\ ((forall nativeMachine,
         pIsWow64Process2 E = Some (Some nativeMachine) ->
         0 <= nativeMachine <= 65535) ->
      0 <= GetNativeMachine E <= 65535
      /\ atou (utoa (GetNativeMachine E)) = GetNativeMachine E).
Proof.
  unfold GetNativeMachine, GetNativeMachineImpl.
  split; [|split].
  - intros answer Hk Hp. rewrite Hk, Hp. reflexivity.
  - intros Hno.
    assert (Hnone : (if kernel32Module E then pIsWow64Process2 E else None)
                    = None).
    { destruct Hno as [Hk|Hp]; [now rewrite Hk|].
      rewrite Hp. now destruct (kernel32Module E). }
    rewrite Hnone.
    split; [intros Ht; rewrite Ht; reflexivity|].
    split; [intros Ht; rewrite Ht; reflexivity|].
    split; [intros Ht; rewrite Ht;
            destruct (IsWow64Process E) as [[|]|]; reflexivity|].
    destruct (target E); destruct (IsWow64Process E) as [[|]|];
      intros Hx; try discriminate Hx; split; reflexivity.
  - intros Hrange.
    assert (H16 : 0 <= GetNativeMachineImpl E <= 65535).
    { unfold GetNativeMachineImpl.
      destruct (kernel32Module E).
      - destruct (pIsWow64Process2 E) as [[m|]|] eqn:Hp.
        + apply Hrange. reflexivity.
        + unfold IMAGE_FILE_MACHINE_UNKNOWN. lia.
        + destruct (target E); [destruct (IsWow64Process E) as [[|]|]| |];
            unfold IMAGE_FILE_MACHINE_UNKNOWN, IMAGE_FILE_MACHINE_AMD64,
              IMAGE_FILE_MACHINE_I386; lia.
      - destruct (target E); [destruct (IsWow64Process E) as [[|]|]| |];
          unfold IMAGE_FILE_MACHINE_UNKNOWN, IMAGE_FILE_MACHINE_AMD64,
            IMAGE_FILE_MACHINE_I386; lia. }
    split; [exact H16|].
    apply utoa_spec. unfold is_DWORD, DWORD_MAX.
    unfold GetNativeMachineImpl in H16. lia.
Qed.

(** [GetUpdateCheckerOptions]: the URL and the user agent do not depend
    on the post data; the flags matter only through the portable bit;
    the request is a POST exactly when the data pointer is not null and
    the size is positive, and a GET without optional data otherwise;
    the size announced is the given size cast to [DWORD], so it always
    fits 32 bits, is the given size exactly when that fits, and is 0 for
    a POST whose size is a multiple of 2^32. *)
Theorem GetUpdateCheckerOptions_edges
    (flags flags' : Z) (postData postData' : option string)
    (postDataSize postDataSize' : Z) :
  let options := GetUpdateCheckerOptions E flags postData postDataSize in
  sURL options = kUpdateCheckerUrl
  /\ sUserAgent options
     = sUserAgent (GetUpdateCheckerOptions E flags postData' postDataSize')
  /\ (Z.land flags (kFlagPortable E) = Z.land flags' (kFlagPortable E) ->
      GetUpdateCheckerOptions E flags' postData postDataSize = options)
  /\ (sVerb options = "POST"
      <-> postData <> None /\ 0 < postDataSize)
  /\ (sVerb options <> "POST" ->
      sVerb options = "GET" /\ lpOptional options = None
      /\ dwOptionalSize options = 0)
  /\ (sVerb options = "POST" ->
      lpOptional options = postData
      /\ dwOptionalSize options = postDataSize mod 2 ^ 32
      /\ (dwOptionalSize options = postDataSize
          <-> postDataSize <= DWORD_MAX))
  /\ 0 <= dwOptionalSize options <= DWORD_MAX.
Proof.
  cbv zeta. unfold GetUpdateCheckerOptions.
  set (ua := (_ ++ ")")%string).
  set (ua' := (_ ++ ")")%string).
  assert (Hmod : 0 <= postDataSize mod 2 ^ 32 < 2 ^ 32)
    by (apply Z.mod_pos_bound; lia).
  split; [|split; [|split; [|split; [|split; [|split]]]]].
  - destruct postData; [destruct (0 <? postDataSize)|]; reflexivity.
  - destruct postData; [destruct (0 <? postDataSize)|];
      (destruct postData'; [destruct (0 <? postDataSize')|]); reflexivity.
  - intros Hbit. subst ua ua'. rewrite Hbit. reflexivity.
  - destruct postData as [data|].
    + destruct (Z.ltb_spec 0 postDataSize); cbn [sVerb default_options].
      * split; [intros _; split; [discriminate|assumption] | reflexivity].
      * split; [discriminate | intros [_ Hpos]; lia].
    + cbn [sVerb default_options].
      split; [discriminate | intros [Hn _]; congruence].
  - destruct postData as [data|];
      [destruct (0 <? postDataSize)|]; cbn; intros H; auto;
      contradiction H; reflexivity.
  - destruct postData as [data|].
    + destruct (Z.ltb_spec 0 postDataSize);
        cbn [sVerb lpOptional dwOptionalSize default_options];
        [|discriminate].
      intros _. unfold to_DWORD. split; [reflexivity|].
      split; [reflexivity|]. unfold DWORD_MAX. split.
      * intros Heq. rewrite <- Heq. lia.
      * intros Hfit. apply Z.mod_small. lia.
    + cbn [sVerb default_options]. discriminate.
  - unfold DWORD_MAX.
    destruct postData as [data|];
      [destruct (0 <? postDataSize)|];
      cbn [dwOptionalSize default_options]; unfold to_DWORD; lia.
Qed.

(** The constructor throws in exactly four cases: the primary exchange
    object cannot be constructed; there is a payload and the header
    cannot be added; in asynchronous mode, the request cannot be
    started; in synchronous mode, the server rejected the verb and the
    fallback exchange object cannot be constructed.  In particular, in
    synchronous mode no answer of the server, and no failure of the
    transport, makes it throw by itself. *)
Theorem construct_throws_iff (flags : Z) (onDone : bool) :
  let payload := GetLocalUpdatedContentAsString E in
  let primary :=
    GetUpdateCheckerOptions E flags (Some payload)
      (Z.of_nat (String.length payload)) in
  let get := GetUpdateCheckerOptions E flags None 0 in
  let headers :=
    if String.eqb payload "" then []
    else ["Content-Type: application/json"] in
  let reply := transport E primary headers in
  (exists e, construct E flags onDone = Throw e)
  <-> CWinHTTPSimple_throws E primary onDone <> None
      \/ (payload <> ""
          /\ FAILED (AddHeaders_result E "Content-Type: application/json")
             = true)
      \/ (onDone = true /\ FAILED (SendRequest_result E primary) = true)
      \/ (onDone = false
          /\ reply_hr reply
             = HRESULT_FROM_WIN32 ERROR_WINHTTP_INVALID_HEADER
          /\ reply_status reply = 405
          /\ CWinHTTPSimple_throws E get false <> None).
Proof.
  cbv zeta. rewrite construct_value. cbv zeta.
  set (payload := GetLocalUpdatedContentAsString E).
  set (primary := GetUpdateCheckerOptions E flags (Some payload)
                    (Z.of_nat (String.length payload))).
  set (get := GetUpdateCheckerOptions E flags None 0).
  set (reply := transport E primary _).
  destruct (CWinHTTPSimple_throws E primary onDone) as [e0|];
    [split; [intros _; left; discriminate | eauto]|].
  assert (Hpay : payload <> "" <-> negb (String.eqb payload "") = true).
  { rewrite negb_true_iff. symmetry. apply String.eqb_neq. }
  destruct (negb (String.eqb payload "")) eqn:Hne; cbn [andb].
  - destruct (FAILED (AddHeaders_result E "Content-Type: application/json"))
      eqn:Hadd.
    + split; [intros _|eauto]. right. left. split; [apply Hpay|]; auto.
    + destruct onDone.
      * destruct (FAILED (SendRequest_result E primary)) eqn:Hs.
        -- split; [intros _|eauto]. right. right. left. auto.
        -- split; [intros [e He]; discriminate He|].
           intros [H|[[_ H]|[[_ H]|[H _]]]]; congruence.
      * cbv zeta.
        destruct (Z.eqb_spec (reply_hr reply)
                    (HRESULT_FROM_WIN32 ERROR_WINHTTP_INVALID_HEADER))
          as [Hhr|Hhr]; cbn [andb].
        -- destruct (Z.eqb_spec (reply_status reply) 405) as [Hst|Hst].
           ++ destruct (CWinHTTPSimple_throws E get false) as [e1|].
              ** split; [intros _|eauto]. right. right. right.
                 repeat split; auto. discriminate.
              ** split; [intros [e He]; discriminate He|].
                 intros [H|[[_ H]|[[H _]|(_ & _ & _ & H)]]]; congruence.
           ++ split; [intros [e He]; discriminate He|].
              intros [H|[[_ H]|[[H _]|(_ & _ & H & _)]]]; congruence.
        -- split; [intros [e He]; discriminate He|].
           intros [H|[[_ H]|[[H _]|(_ & H & _)]]]; congruence.
  - assert (Hno : ~ payload <> "") by (rewrite Hpay; discriminate).
    destruct onDone.
    + destruct (FAILED (SendRequest_result E primary)) eqn:Hs.
      * split; [intros _|eauto]. right. right. left. auto.
      * split; [intros [e He]; discriminate He|].
        intros [H|[[H _]|[[_ H]|[H _]]]]; congruence || contradiction.
    + cbv zeta.
      destruct (Z.eqb_spec (reply_hr reply)
                  (HRESULT_FROM_WIN32 ERROR_WINHTTP_INVALID_HEADER))
        as [Hhr|Hhr]; cbn [andb].
      * destruct (Z.eqb_spec (reply_status reply) 405) as [Hst|Hst].
        -- destruct (CWinHTTPSimple_throws E get false) as [e1|].
           ++ split; [intros _|eauto]. right. right. right.
              repeat split; auto. discriminate.
           ++ split; [intros [e He]; discriminate He|].
              intros [H|[[H _]|[[H _]|(_ & _ & _ & H)]]];
                congruence || contradiction.
        -- split; [intros [e He]; discriminate He|].
           intros [H|[[H _]|[[H _]|(_ & _ & H & _)]]];
             congruence || contradiction.
      * split; [intros [e He]; discriminate He|].
        intros [H|[[H _]|[[H _]|(_ & H & _)]]];
          congruence || contradiction.
Qed.

(** What [HandleResponse] makes of an exchange that ended with a given
    result code, status and body. *)
Lemma HandleResponse_of (uc : UpdateChecker) :
  let exchange :=
    match m_httpSimpleGetRequest uc with
    | Some fallback => fallback
    | None => m_httpSimple uc
    end in
  fst (HandleResponse E uc)
  = if SUCCEEDED (GetRequestResult exchange) then
      match UpdateContentWithOnlineData E (merged uc)
              (GetResponse exchange) with
      | Ok status =>
          mkResult (GetRequestResult exchange) (GetLastStatusCode exchange)
                   status
      | Throw _ =>
          mkResult E_FAIL (GetLastStatusCode exchange) (UpdateStatus_zero E)
      end
    else mkResult (GetRequestResult exchange) (GetLastStatusCode exchange)
                  (UpdateStatus_zero E).
Proof.
  cbv zeta. unfold HandleResponse.
  cbn [hrError httpStatusCode updateStatus].
  destruct (SUCCEEDED _); [|reflexivity].
  destruct (UpdateContentWithOnlineData E _ _); reflexivity.
Qed.

(** After the synchronous constructor, [HandleResponse] reads the
    fallback exchange exactly when the primary request was answered
    with the invalid-header result and status 405, and the primary
    exchange otherwise.  Reading the primary exchange, it reports the
    answer to the primary request.  Reading the fallback exchange, on
    which the request has been issued, it reports what that exchange
    shows at that moment: that is the answer to the GET request (sent
    with no header) if the wrapper waited for it, and in any case once
    the transport has finished that exchange.  The status reported is
    the answer's; the result code is the answer's unless the merge of
    its body threw.  The constructor invokes no callback and merges
    nothing. *)
Theorem synchronous_round_reports_last_answer
    (flags : Z) (uc : UpdateChecker) :
  construct E flags false = Ok uc ->
  let payload := GetLocalUpdatedContentAsString E in
  let primary :=
    GetUpdateCheckerOptions E flags (Some payload)
      (Z.of_nat (String.length payload)) in
  let headers :=
    if String.eqb payload "" then []
    else ["Content-Type: application/json"] in
  let first := transport E primary headers in
  let rejected :=
    (reply_hr first =? HRESULT_FROM_WIN32 ERROR_WINHTTP_INVALID_HEADER)
    && (reply_status first =? 405) in
  let answer := transport E (GetUpdateCheckerOptions E flags None 0) [] in
  let reports (r : Result E) (reply : Reply) :=
    httpStatusCode r = reply_status reply
    /\ (SUCCEEDED (reply_hr reply) = false ->
        hrError r = reply_hr reply
        /\ updateStatus r = UpdateStatus_zero E)
    /\ (SUCCEEDED (reply_hr reply) = true ->
        match UpdateContentWithOnlineData E [] (reply_body reply) with
        | Ok status =>
            hrError r = reply_hr reply /\ updateStatus r = status
        | Throw _ =>
            hrError r = E_FAIL /\ updateStatus r = UpdateStatus_zero E
        end) in
  (rejected = false ->
   m_httpSimpleGetRequest uc = None
   /\ reports (fst (HandleResponse E uc)) first)
  /\ (rejected = true ->
      exists fallback,
        m_httpSimpleGetRequest uc = Some fallback
        /\ http_sent fallback = true
        /\ httpStatusCode (fst (HandleResponse E uc))
           = GetLastStatusCode fallback
        /\ (fallback_awaited E = true ->
            reports (fst (HandleResponse E uc)) answer)
        /\ reports
             (fst (HandleResponse E (sync_fallback_completes E uc)))
             answer)
  /\ done_calls uc = 0%nat
  /\ merged uc = [].
Proof.
  intros Hc. cbv zeta. rewrite construct_value in Hc. cbv zeta in Hc.
  set (payload := GetLocalUpdatedContentAsString E) in *.
  set (primary := GetUpdateCheckerOptions E flags (Some payload)
                    (Z.of_nat (String.length payload))) in *.
  set (get := GetUpdateCheckerOptions E flags None 0) in *.
  set (first := transport E primary _) in *.
  destruct (CWinHTTPSimple_throws E primary false); [discriminate Hc|].
  destruct (negb (String.eqb payload "")
            && FAILED (AddHeaders_result E
                         "Content-Type: application/json"));
    [discriminate Hc|].
  assert (Hreports : forall u x,
    merged u = [] ->
    match m_httpSimpleGetRequest u with
    | Some fallback => fallback
    | None => m_httpSimple u
    end = x ->
    httpStatusCode (fst (HandleResponse E u)) = GetLastStatusCode x
    /\ (SUCCEEDED (GetRequestResult x) = false ->
        hrError (fst (HandleResponse E u)) = GetRequestResult x
        /\ updateStatus (fst (HandleResponse E u)) = UpdateStatus_zero E)
    /\ (SUCCEEDED (GetRequestResult x) = true ->
        match UpdateContentWithOnlineData E [] (GetResponse x) with
        | Ok status =>
            hrError (fst (HandleResponse E u)) = GetRequestResult x
            /\ updateStatus (fst (HandleResponse E u)) = status
        | Throw _ =>
            hrError (fst (HandleResponse E u)) = E_FAIL
            /\ updateStatus (fst (HandleResponse E u))
               = UpdateStatus_zero E
        end)).
  { intros u x Hm Hx. rewrite HandleResponse_of. cbv zeta.
    rewrite Hx, Hm.
    destruct (SUCCEEDED (GetRequestResult x)).
    - destruct (UpdateContentWithOnlineData E [] (GetResponse x));
        cbn; repeat split; auto; discriminate.
    - cbn. repeat split; auto; discriminate. }
  destruct ((reply_hr first
             =? HRESULT_FROM_WIN32 ERROR_WINHTTP_INVALID_HEADER)
            && (reply_status first =? 405)).
  - destruct (CWinHTTPSimple_throws E get false); [discriminate Hc|].
    inversion Hc. subst uc. clear Hc.
    split; [discriminate|]. split; [|split; reflexivity].
    intros _. eexists. split; [reflexivity|].
    split; [destruct (fallback_awaited E); reflexivity|].
    split; [|split].
    + rewrite HandleResponse_of. cbv zeta.
      cbn [m_httpSimpleGetRequest].
      destruct (SUCCEEDED _); [|reflexivity].
      destruct (UpdateContentWithOnlineData E _ _); reflexivity.
    + intros Hw. rewrite Hw.
      match goal with
        | |- context [HandleResponse E ?u] =>
            exact (Hreports u _ eq_refl eq_refl)
        end.
    + unfold sync_fallback_completes.
      cbn [m_httpSimpleGetRequest]. unfold complete.
      destruct (fallback_awaited E);
        match goal with
        | |- context [HandleResponse E ?u] =>
            exact (Hreports u _ eq_refl eq_refl)
        end.
  - inversion Hc. subst uc. clear Hc.
    split; [|split; [discriminate|split; reflexivity]].
    intros _. split; [reflexivity|].
    match goal with
        | |- context [HandleResponse E ?u] =>
            exact (Hreports u _ eq_refl eq_refl)
        end.
Qed.

(** After the asynchronous constructor nothing has completed: the
    callback has not been invoked and there is no fallback exchange.
    When the transport then completes the primary exchange and, if one
    was started, the fallback exchange, the callback has been invoked
    exactly once in all; completing the fallback leaves the primary
    exchange and the fallback request as they were, whatever the server
    answered to it (a 405 included): there is no second retry.  A
    fallback exchange exists only if the primary was answered with the
    invalid-header result and status 405.  If [Abort] was called any
    number of times before the primary completed, the callback is
    invoked exactly once by the completion of the primary and no
    fallback exchange is created. *)
Theorem asynchronous_round_fires_once
    (flags : Z) (uc : UpdateChecker) (k : nat) :
  construct E flags true = Ok uc ->
  let payload := GetLocalUpdatedContentAsString E in
  let primary :=
    GetUpdateCheckerOptions E flags (Some payload)
      (Z.of_nat (String.length payload)) in
  let headers :=
    if String.eqb payload "" then []
    else ["Content-Type: application/json"] in
  let first := transport E primary headers in
  let get := GetUpdateCheckerOptions E flags None 0 in
  let uc1 := primary_completes E uc in
  let uc2 := fallback_completes E uc1 in
  let aborted := primary_completes E (Nat.iter (S k) Abort uc) in
  done_calls uc = 0%nat
  /\ m_httpSimpleGetRequest uc = None
  /\ done_calls uc2 = 1%nat
  /\ m_httpSimple uc2 = m_httpSimple uc1
  /\ GetRequestResult (m_httpSimple uc1) = reply_hr first
  /\ GetLastStatusCode (m_httpSimple uc1) = reply_status first
  /\ (forall fallback, m_httpSimpleGetRequest uc1 = Some fallback ->
        done_calls uc1 = 0%nat
        /\ reply_hr first = HRESULT_FROM_WIN32 ERROR_WINHTTP_INVALID_HEADER
        /\ reply_status first = 405
        /\ http_options fallback = get
        /\ http_headers fallback = []
        /\ m_httpSimpleGetRequest uc2
           = Some (mkHttp get true [] true (Some CbUpdateCheckDone)
                     (reply_hr (transport E get []))
                     (reply_status (transport E get []))
                     (reply_body (transport E get [])) 0))
  /\ (m_httpSimpleGetRequest uc1 = None ->
      done_calls uc1 = 1%nat /\ uc2 = uc1)
  /\ done_calls aborted = 1%nat
  /\ m_httpSimpleGetRequest aborted = None
  /\ fallback_completes E aborted = aborted.
Proof.
  intros Hc. cbv zeta. rewrite construct_value in Hc. cbv zeta in Hc.
  set (payload := GetLocalUpdatedContentAsString E) in *.
  set (primary := GetUpdateCheckerOptions E flags (Some payload)
                    (Z.of_nat (String.length payload))) in *.
  set (get := GetUpdateCheckerOptions E flags None 0) in *.
  set (headers := if String.eqb payload "" then []
                  else ["Content-Type: application/json"]) in *.
  destruct (CWinHTTPSimple_throws E primary true); [discriminate Hc|].
  destruct (negb (String.eqb payload "")
            && FAILED (AddHeaders_result E "Content-Type: application/json"));
    [discriminate Hc|].
  destruct (FAILED (SendRequest_result E primary)); [discriminate Hc|].
  inversion Hc. subst uc. clear Hc.
  split; [reflexivity|]. split; [reflexivity|].
  assert (Hlast :
    done_calls (primary_completes E
                  (Nat.iter (S k) Abort
                     (mkUpdateChecker flags payload
                        (mkHttp primary true headers true
                           (Some CbOnRequestDone) 0 0 "" 0)
                        true false None 0 [] []))) = 1%nat
    /\ m_httpSimpleGetRequest
         (primary_completes E
            (Nat.iter (S k) Abort
               (mkUpdateChecker flags payload
                  (mkHttp primary true headers true
                     (Some CbOnRequestDone) 0 0 "" 0)
                  true false None 0 [] []))) = None
    /\ fallback_completes E
         (primary_completes E
            (Nat.iter (S k) Abort
               (mkUpdateChecker flags payload
                  (mkHttp primary true headers true
                     (Some CbOnRequestDone) 0 0 "" 0)
                  true false None 0 [] [])))
       = primary_completes E
           (Nat.iter (S k) Abort
              (mkUpdateChecker flags payload
                 (mkHttp primary true headers true
                    (Some CbOnRequestDone) 0 0 "" 0)
                 true false None 0 [] []))).
  { rewrite Abort_iter, http_Abort_iter.
    unfold primary_completes.
    cbn [m_httpSimple http_onDone option_map m_httpSimpleGetRequest
         run_completion].
    unfold OnRequestDone.
    cbn [m_aborted set_httpSimple negb].
    rewrite andb_false_r. repeat split. }
  destruct Hlast as (HL1 & HL2 & HL3).
  set (aborted := primary_completes E (Nat.iter (S k) Abort _)) in *.
  clearbody aborted.
  unfold primary_completes.
  cbn [m_httpSimple http_onDone run_completion].
  set (answered := set_httpSimple _ _).
  assert (Hnone : m_httpSimpleGetRequest answered = None) by reflexivity.
  assert (Hflags : m_flags answered = flags) by reflexivity.
  assert (Hdone : done_calls answered = 0%nat) by reflexivity.
  assert (Hhr : GetRequestResult (m_httpSimple answered)
                = reply_hr (transport E primary headers)) by reflexivity.
  assert (Hst : GetLastStatusCode (m_httpSimple answered)
                = reply_status (transport E primary headers))
    by reflexivity.
  destruct (OnRequestDone_cases E answered Hnone)
    as [(Hatt & Heq)
       | [(Hatt & Hctor & Hsend & Heq)
         | (e & Hatt & _ & _ & Heq)]];
    cbv zeta in *; rewrite Heq; rewrite ?Hflags in *.
  - unfold fallback_completes.
    cbn [m_httpSimpleGetRequest invoke_onUpdateCheckDone done_calls
         m_httpSimple].
    rewrite Hnone, Hdone.
    repeat split; auto; try discriminate.
    all: try (intros; congruence).
  - apply andb_true_iff in Hatt. destruct Hatt as [Hr _].
    apply ShouldRetryWithAGetRequest_iff in Hr.
    rewrite Hhr, Hst in Hr. destruct Hr as [Hr1 Hr2].
    unfold fallback_completes, complete.
    cbn [m_httpSimpleGetRequest set_httpSimpleGetRequest http_onDone
         run_completion invoke_onUpdateCheckDone done_calls m_httpSimple
         http_options http_headers http_asynchronous http_sent
         http_aborts].
    rewrite Hdone.
    repeat split; auto; try discriminate;
      match goal with
      | Hf : Some _ = Some _ |- _ => inversion Hf; reflexivity
      end.
  - unfold fallback_completes.
    cbn [m_httpSimpleGetRequest set_httpSimpleGetRequest LOG
         invoke_onUpdateCheckDone done_calls m_httpSimple].
    rewrite Hdone.
    repeat split; auto; try discriminate.
Qed.

(** [HandleResponse] returns a success code exactly when the exchange
    it reads succeeded and the merge of its body returned, and then the
    update status is the merged one; with a failure code the update
    status is the zero value.  [E_FAIL] is a failure code.  It changes
    no member of the object and invokes no callback; only the merge and
    the log see it. *)
Theorem HandleResponse_success_iff (uc : UpdateChecker) :
  let exchange :=
    match m_httpSimpleGetRequest uc with
    | Some fallback => fallback
    | None => m_httpSimple uc
    end in
  let r := fst (HandleResponse E uc) in
  let uc' := snd (HandleResponse E uc) in
  (SUCCEEDED (hrError r) = true
   <-> SUCCEEDED (GetRequestResult exchange) = true
       /\ exists status,
            UpdateContentWithOnlineData E (merged uc)
              (GetResponse exchange)
            = Ok status
            /\ updateStatus r = status
            /\ hrError r = GetRequestResult exchange)
  /\ (SUCCEEDED (hrError r) = false ->
      updateStatus r = UpdateStatus_zero E)
  /\ SUCCEEDED E_FAIL = false
  /\ m_flags uc' = m_flags uc
  /\ m_postedData uc' = m_postedData uc
  /\ m_httpSimple uc' = m_httpSimple uc
  /\ m_onUpdateCheckDone uc' = m_onUpdateCheckDone uc
  /\ m_aborted uc' = m_aborted uc
  /\ m_httpSimpleGetRequest uc' = m_httpSimpleGetRequest uc
  /\ done_calls uc' = done_calls uc.
Proof.
  cbv zeta. unfold HandleResponse.
  set (exchange := match m_httpSimpleGetRequest uc with
                   | Some fallback => fallback
                   | None => m_httpSimple uc
                   end).
  cbn [hrError httpStatusCode updateStatus].
  destruct (SUCCEEDED (GetRequestResult exchange)) eqn:Hs.
  - destruct (UpdateContentWithOnlineData E (merged uc)
                (GetResponse exchange))
      as [status|e]; cbn [fst snd hrError updateStatus].
    + rewrite Hs. repeat split; eauto; try discriminate.
    + repeat split; try reflexivity.
      * discriminate H.
      * intros [_ (status & Hx & _)]. discriminate Hx.
  - cbn [fst snd hrError updateStatus]. rewrite Hs.
    repeat split; try reflexivity; try discriminate.
    intros [Hx _]. discriminate Hx.
Qed.

(** [HandleResponse] keeps no record of having merged: every call on
    an exchange that succeeded hands the response body to the merge
    again, so after [n] calls the body has been applied [n] times, and
    never on a failed exchange.  The next call reports the same status,
    and as result code and update status what the merge makes of the
    body on top of those [n] applications, which need not be what it
    made of it the first time.  The exchanges and the callback count
    stay as they were throughout. *)
Theorem HandleResponse_merges_every_time (uc : UpdateChecker) (n : nat) :
  let exchange :=
    match m_httpSimpleGetRequest uc with
    | Some fallback => fallback
    | None => m_httpSimple uc
    end in
  let again := Nat.iter n (fun u => snd (HandleResponse E u)) uc in
  let r := fst (HandleResponse E again) in
  merged again
  = (merged uc
     ++ (if SUCCEEDED (GetRequestResult exchange)
         then repeat (GetResponse exchange) n else []))%list
  /\ m_httpSimple again = m_httpSimple uc
  /\ m_httpSimpleGetRequest again = m_httpSimpleGetRequest uc
  /\ done_calls again = done_calls uc
  /\ httpStatusCode r = GetLastStatusCode exchange
  /\ (SUCCEEDED (GetRequestResult exchange) = false ->
      r = fst (HandleResponse E uc))
  /\ (SUCCEEDED (GetRequestResult exchange) = true ->
      match UpdateContentWithOnlineData E
              (merged uc ++ repeat (GetResponse exchange) n)%list
              (GetResponse exchange) with
      | Ok status =>
          hrError r = GetRequestResult exchange
          /\ updateStatus r = status
      | Throw _ =>
          hrError r = E_FAIL /\ updateStatus r = UpdateStatus_zero E
      end).
Proof.
  cbv zeta.
  set (exchange := match m_httpSimpleGetRequest uc with
                   | Some fallback => fallback
                   | None => m_httpSimple uc
                   end).
  assert (Hframe : forall u,
            m_httpSimple (snd (HandleResponse E u)) = m_httpSimple u
            /\ m_httpSimpleGetRequest (snd (HandleResponse E u))
               = m_httpSimpleGetRequest u
            /\ done_calls (snd (HandleResponse E u)) = done_calls u).
  { intros u. unfold HandleResponse.
    cbn [hrError httpStatusCode updateStatus].
    destruct (SUCCEEDED _); [|repeat split; reflexivity].
    destruct (UpdateContentWithOnlineData E _ _);
      repeat split; reflexivity. }
  assert (Hmerged : forall u,
            merged (snd (HandleResponse E u))
            = (merged u
               ++ (if SUCCEEDED
                        (GetRequestResult
                           match m_httpSimpleGetRequest u with
                           | Some fallback => fallback
                           | None => m_httpSimple u
                           end)
                   then [GetResponse
                           match m_httpSimpleGetRequest u with
                           | Some fallback => fallback
                           | None => m_httpSimple u
                           end]
                   else []))%list).
  { intros u. unfold HandleResponse.
    cbn [hrError httpStatusCode updateStatus].
    destruct (SUCCEEDED _); [|cbn; now rewrite app_nil_r].
    destruct (UpdateContentWithOnlineData E _ _); reflexivity. }
  assert (Hiter :
    merged (Nat.iter n (fun u => snd (HandleResponse E u)) uc)
    = (merged uc
       ++ (if SUCCEEDED (GetRequestResult exchange)
           then repeat (GetResponse exchange) n else []))%list
    /\ m_httpSimple (Nat.iter n (fun u => snd (HandleResponse E u)) uc)
       = m_httpSimple uc
    /\ m_httpSimpleGetRequest
         (Nat.iter n (fun u => snd (HandleResponse E u)) uc)
       = m_httpSimpleGetRequest uc
    /\ done_calls (Nat.iter n (fun u => snd (HandleResponse E u)) uc)
       = done_calls uc).
  { induction n as [|n (IHm & IH1 & IH2 & IH3)].
    - cbn [Nat.iter nat_rect repeat].
      repeat split. destruct (SUCCEEDED _); now rewrite app_nil_r.
    - rewrite Nat.iter_succ.
      set (prev := Nat.iter n (fun u => snd (HandleResponse E u)) uc)
        in *.
      destruct (Hframe prev) as (Hf1 & Hf2 & Hf3).
      split; [|repeat split; congruence].
      rewrite Hmerged, IHm, IH1, IH2. fold exchange.
      destruct (SUCCEEDED (GetRequestResult exchange)).
      + rewrite <- app_assoc. f_equal.
        cbn [repeat]. symmetry. apply repeat_cons.
      + rewrite !app_nil_r. reflexivity. }
  destruct Hiter as (Hm & H1 & H2 & H3).
  split; [exact Hm|]. split; [exact H1|]. split; [exact H2|].
  split; [exact H3|].
  rewrite !HandleResponse_of. cbv zeta. rewrite Hm, H1, H2.
  fold exchange.
  destruct (SUCCEEDED (GetRequestResult exchange)) eqn:Hs.
  - split; [|split; [discriminate|intros _]].
    + destruct (UpdateContentWithOnlineData E _ _); reflexivity.
    + destruct (UpdateContentWithOnlineData E _ _); split; reflexivity.
  - split; [reflexivity|]. split; [|discriminate].
    intros _. reflexivity.
Qed.

End UpdateCheckerFurther.

(** ** [Abort] against the completion routine, further *)

Section InterleavingFurther.
Import Win32 Cpp UpdateChecker Interleaving.

Variable E : Environment.

Lemma step_done_decreases s s' :
  step_done E s = Some s' ->
  (remaining (pc_done s') < remaining (pc_done s))%nat.
Proof.
  unfold step_done, at_done. intros H.
  destruct (pc_done s) eqn:Hpc; cbn [remaining].
  - inversion H. cbn [pc_done].
    destruct (_ && _); cbn [remaining]; lia.
  - destruct (mutex s); [discriminate H|]. inversion H. cbn. lia.
  - inversion H. cbn [pc_done]. destruct (negb _); cbn [remaining]; lia.
  - destruct (OnRequestDone_new E (object s)) as [[[]|e] uc1];
      inversion H; cbn; lia.
  - destruct (OnRequestDone_send E (object s)) as [[[]|e0] uc1];
      inversion H; cbn; lia.
  - inversion H. cbn. lia.
  - inversion H. cbn. lia.
  - inversion H. cbn. lia.
  - inversion H. cbn. lia.
  - discriminate H.
Qed.

(** Neither thread can block the other for good.  In every state the
    two threads can reach: they are never both inside their locked
    sections; [Abort] is blocked only at its lock while the completion
    routine holds the mutex, and then the completion routine can move;
    the completion routine stands still only when it has returned, or
    at its lock while [Abort] holds the mutex, and then [Abort] can move
    and releases the mutex within two statements.  Every statement of
    the completion routine brings it nearer to its return, which comes
    after at most seven. *)
Theorem no_deadlock_between_Abort_and_completion
    (uc : UpdateChecker) (s : State) :
  reachable E (initial uc) s ->
  abort_holds (pc_abort s) && done_holds (pc_done s) = false
  /\ (step_abort s = None ->
      pc_abort s = A_212 /\ mutex s = Some TDone
      /\ exists s', step_done E s = Some s')
  /\ (step_done E s = None ->
      pc_done s = B_end
      \/ pc_done s = B_252 /\ mutex s = Some TAbort
         /\ exists k s',
              (k <= 2)%nat
              /\ run E (repeat TAbort k) s = Some s'
              /\ mutex s' = None
              /\ exists s'', step_done E s' = Some s'')
  /\ (forall s', step_done E s = Some s' ->
        (remaining (pc_done s') < remaining (pc_done s) <= 7)%nat).
Proof.
  intros Hreach.
  destruct (consistent_reachable E uc s Hreach)
    as (Hm & Hex & _ & _ & _ & _).
  split; [exact Hex|]. split; [|split].
  - unfold step_abort. intros Hblocked.
    destruct (pc_abort s) eqn:Hpa; try discriminate Hblocked.
    destruct (mutex s) as [[|]|] eqn:Hmx; try discriminate Hblocked.
    + cbn [abort_holds] in Hm. destruct (done_holds (pc_done s));
        discriminate Hm.
    + cbn [abort_holds] in Hm.
      destruct (done_holds (pc_done s)) eqn:Hdh; [|discriminate Hm].
      split; [reflexivity|]. split; [reflexivity|].
      unfold step_done.
      destruct (pc_done s); try discriminate Hdh; eauto.
      * destruct (OnRequestDone_new E (object s)) as [[[]|e] uc1]; eauto.
      * destruct (OnRequestDone_send E (object s)) as [[[]|e0] uc1]; eauto.
  - intros Hblocked. unfold step_done in Hblocked.
    destruct (pc_done s) eqn:Hpd; try discriminate Hblocked;
      [| | |left; reflexivity].
    + right. destruct (mutex s) as [[|]|] eqn:Hmx;
        try discriminate Hblocked.
      * split; [reflexivity|]. split; [reflexivity|].
        cbn [done_holds] in Hm.
        destruct s as [o m pa pb n c1 c2]. cbn in *. subst pb m.
        destruct pa; try discriminate Hm.
        -- exists 2%nat. eexists. split; [lia|].
           cbn. split; [reflexivity|]. cbn. eauto.
        -- exists 1%nat. eexists. split; [lia|].
           cbn. split; [reflexivity|]. cbn. eauto.
      * cbn [done_holds] in Hm.
        destruct (abort_holds (pc_abort s)); discriminate Hm.
    + destruct (OnRequestDone_new E (object s)) as [[[]|e] uc1];
        discriminate Hblocked.
    + destruct (OnRequestDone_send E (object s)) as [[[]|e0] uc1];
        discriminate Hblocked.
  - intros s' Hstep. split; [now apply step_done_decreases|].
    destruct (pc_done s); cbn; lia.
Qed.

Lemma callback_accounted_step_abort d0 s s' :
  callback_accounted d0 s -> step_abort s = Some s' ->
  callback_accounted d0 s'.
Proof.
  destruct s as [uc m pa pb n c1 c2].
  unfold callback_accounted, step_abort. cbn.
  intros Hacc H.
  assert (Hfb : forall pc,
    match pc with
    | B_251 | B_252 | B_254 | B_256 | B_268 | B_270 =>
        done_calls uc = d0 /\ m_httpSimpleGetRequest uc = None
    | B_258 => done_calls uc = d0 /\ m_httpSimpleGetRequest uc <> None
    | B_catch _ => done_calls uc = d0
    | B_266 | B_end =>
        done_calls uc = S d0 /\ m_httpSimpleGetRequest uc = None
        \/ done_calls uc = d0
           /\ exists fallback,
                m_httpSimpleGetRequest uc = Some fallback
                /\ http_onDone fallback = Some CbUpdateCheckDone
                /\ http_sent fallback = true
    end ->
    match pc with
    | B_251 | B_252 | B_254 | B_256 | B_268 | B_270 =>
        done_calls (Abort_fallback uc) = d0
        /\ m_httpSimpleGetRequest (Abort_fallback uc) = None
    | B_258 =>
        done_calls (Abort_fallback uc) = d0
        /\ m_httpSimpleGetRequest (Abort_fallback uc) <> None
    | B_catch _ => done_calls (Abort_fallback uc) = d0
    | B_266 | B_end =>
        done_calls (Abort_fallback uc) = S d0
        /\ m_httpSimpleGetRequest (Abort_fallback uc) = None
        \/ done_calls (Abort_fallback uc) = d0
           /\ exists fallback,
                m_httpSimpleGetRequest (Abort_fallback uc) = Some fallback
                /\ http_onDone fallback = Some CbUpdateCheckDone
                /\ http_sent fallback = true
    end).
  { unfold Abort_fallback. intros pc.
    destruct (m_httpSimpleGetRequest uc) as [g|] eqn:Hg;
      [|rewrite Hg; auto].
    destruct pc; cbn; intros Hp;
      try (match type of Hp with _ /\ _ => idtac end;
           destruct Hp as [Hd Hn]; split; [exact Hd|]; congruence);
      try exact Hp.
    - destruct Hp as [[Hd Hn]|[Hd (f & Hf & Ho & Hsent)]];
        [discriminate Hn|].
      right. split; [exact Hd|]. inversion Hf. subst f.
      eexists. split; [reflexivity|]. cbn. auto.
    - destruct Hp as [[Hd Hn]|[Hd (f & Hf & Ho & Hsent)]];
        [discriminate Hn|].
      right. split; [exact Hd|]. inversion Hf. subst f.
      eexists. split; [reflexivity|]. cbn. auto. }
  destruct pa; cbn in *.
  - inversion H. cbn. exact Hacc.
  - inversion H. cbn. exact Hacc.
  - destruct m; [discriminate H|]. inversion H. cbn. exact Hacc.
  - inversion H. cbn. apply Hfb. exact Hacc.
  - inversion H. cbn. exact Hacc.
Qed.

Lemma callback_accounted_step_done d0 s s' :
  callback_accounted d0 s -> step_done E s = Some s' ->
  callback_accounted d0 s'.
Proof.
  destruct s as [uc m pa pb n c1 c2].
  unfold callback_accounted, step_done, at_done. cbn.
  intros Hacc H.
  destruct pb; cbn in *.
  - inversion H. cbn. destruct (_ && _); exact Hacc.
  - destruct m; [discriminate H|]. inversion H. cbn. exact Hacc.
  - inversion H. cbn. destruct (negb _); exact Hacc.
  - unfold OnRequestDone_new, new_CWinHTTPSimple in H.
    destruct (CWinHTTPSimple_throws E _ true); inversion H; cbn.
    + apply Hacc.
    + split; [apply Hacc | discriminate].
  - unfold OnRequestDone_send in H. destruct Hacc as [Hd Hsome].
    destruct (m_httpSimpleGetRequest uc) as [g|]; [|contradiction].
    unfold SendRequest_async in H.
    destruct (FAILED (SendRequest_result E (http_options g))) eqn:Hf;
      cbv beta iota in H; rewrite Hf in H; inversion H; cbn.
    + exact Hd.
    + right. split; [exact Hd|]. eexists. split; [reflexivity|].
      cbn. auto.
  - inversion H. cbn. left. split; [now rewrite Hacc | reflexivity].
  - inversion H. cbn. exact Hacc.
  - inversion H. cbn. exact Hacc.
  - inversion H. cbn. left. destruct Hacc as [Hd Hn].
    split; [now rewrite Hd | exact Hn].
  - discriminate H.
Qed.

(** Whatever way [Abort], called any number of times, interleaves with
    the completion routine of the primary exchange, for a round that
    began with no fallback exchange: when the completion routine has
    returned, the callback has been invoked exactly once and there is no
    fallback exchange, or it has not been invoked and a fallback
    exchange has been started with the callback as its completion
    routine, so that it fires once when that exchange ends; and before
    the completion routine reaches its return the callback has not been
    invoked at all. *)
Theorem callback_fires_once_under_Abort
    (uc : UpdateChecker) (s : State) :
  m_httpSimpleGetRequest uc = None ->
  reachable E (initial uc) s ->
  callback_accounted (done_calls uc) s
  /\ (pc_done s = B_end ->
      done_calls (fallback_completes E (object s)) = S (done_calls uc))
  /\ (done_calls (object s) <= S (done_calls uc))%nat
  /\ (done_calls uc <= done_calls (object s))%nat.
Proof.
  intros Hnone Hreach.
  assert (Hacc : callback_accounted (done_calls uc) s).
  { induction Hreach as [|s1 s2 _ IH [t Hstep]].
    - unfold callback_accounted, initial. cbn. auto.
    - destruct t; cbn in Hstep.
      + eapply callback_accounted_step_abort; eassumption.
      + eapply callback_accounted_step_done; eassumption. }
  split; [exact Hacc|].
  unfold callback_accounted in Hacc. cbv zeta in Hacc.
  split; [|split].
  - intros Hend. rewrite Hend in Hacc. unfold fallback_completes.
    destruct Hacc as [[Hd Hn]|[Hd (f & Hf & Ho & _)]].
    + rewrite Hn. exact Hd.
    + rewrite Hf, Ho. cbn. now rewrite Hd.
  - destruct (pc_done s); intuition lia.
  - destruct (pc_done s); intuition lia.
Qed.

End InterleavingFurther.

(** ** Instances of the further properties *)

Section FurtherWitnesses.
Import Win32 Cpp UpdateChecker Interleaving.

(** An x64 engine on which [IsWow64Process2] reports an x64 machine. *)
Lemma GetNativeMachineImpl_decides_witness :
  GetNativeMachineImpl Scenario.reporting = IMAGE_FILE_MACHINE_AMD64
  /\ atou (utoa (GetNativeMachine Scenario.reporting)) = 34404.
Proof.
  destruct (GetNativeMachineImpl_decides Scenario.reporting)
    as (Hresolved & _ & Hrange).
  split.
  - exact (Hresolved (Some IMAGE_FILE_MACHINE_AMD64) eq_refl eq_refl).
  - destruct Hrange as [_ Hback].
    + intros nativeMachine Hn. vm_compute in Hn. inversion Hn.
      vm_compute. split; discriminate.
    + rewrite Hback. reflexivity.
Defined.

(** The synchronous round against a server that rejects POST and
    answers GET, with a wrapper that waits for the fallback exchange
    and with one that does not: the answer reported is the one to the
    GET request, in the second case once that exchange is over. *)
Lemma synchronous_round_reports_last_answer_witness :
  (exists uc,
     construct Scenario.reporting 0 false = Ok uc
     /\ httpStatusCode (fst (HandleResponse Scenario.reporting uc)) = 200
     /\ done_calls uc = 0%nat)
  /\ (exists uc,
        construct Scenario.reporting_unawaited 0 false = Ok uc
        /\ httpStatusCode
             (fst (HandleResponse Scenario.reporting_unawaited
                     (sync_fallback_completes
                        Scenario.reporting_unawaited uc))) = 200).
Proof.
  split.
  - destruct (construct Scenario.reporting 0 false) as [uc|e] eqn:Hc;
      [|vm_compute in Hc; discriminate Hc].
    exists uc. split; [reflexivity|].
    destruct (synchronous_round_reports_last_answer
                Scenario.reporting 0 uc Hc) as (_ & Hrej & Hd & _).
    destruct (Hrej eq_refl) as (fallback & _ & _ & _ & Hw & _).
    destruct (Hw eq_refl) as [Hst _].
    split; [exact Hst | exact Hd].
  - destruct (construct Scenario.reporting_unawaited 0 false)
      as [uc|e] eqn:Hc; [|vm_compute in Hc; discriminate Hc].
    exists uc. split; [reflexivity|].
    destruct (synchronous_round_reports_last_answer
                Scenario.reporting_unawaited 0 uc Hc)
      as (_ & Hrej & _).
    destruct (Hrej eq_refl) as (fallback & _ & _ & _ & _ & Hlater).
    destruct Hlater as [Hst _]. exact Hst.
Defined.

(** With the merge of [Scenario.merge], a second [HandleResponse]
    answers otherwise than the first. *)
Example second_HandleResponse_differs :
  match construct Scenario.silent 0 false with
  | Ok uc =>
      let uc1 := snd (HandleResponse Scenario.silent uc) in
      fst (HandleResponse Scenario.silent uc)
      = @mkResult Scenario.silent 0 200 1
      /\ fst (HandleResponse Scenario.silent uc1)
         = @mkResult Scenario.silent 0 200 0
  | Throw _ => False
  end.
Proof. vm_compute. split; reflexivity. Qed.

(** The asynchronous round against the same server, [Abort] called
    twice before the primary exchange completes. *)
Lemma asynchronous_round_fires_once_witness :
  exists uc,
    construct Scenario.reporting 0 true = Ok uc
    /\ done_calls uc = 0%nat
    /\ done_calls
         (fallback_completes Scenario.reporting
            (primary_completes Scenario.reporting uc)) = 1%nat
    /\ done_calls
         (primary_completes Scenario.reporting (Nat.iter 2 Abort uc))
       = 1%nat.
Proof.
  destruct (construct Scenario.reporting 0 true) as [uc|e] eqn:Hc;
    [|vm_compute in Hc; discriminate Hc].
  exists uc. split; [reflexivity|].
  destruct (asynchronous_round_fires_once
              Scenario.reporting 0 uc 1 Hc)
    as (Hd & _ & Honce & _ & _ & _ & _ & _ & Hab & _).
  split; [exact Hd|]. split; [exact Honce | exact Hab].
Defined.

(** [Abort] arrives at its lock while the completion routine is inside
    its locked section: [Abort] waits, the completion routine moves. *)
Lemma no_deadlock_between_Abort_and_completion_witness :
  exists s,
    run Scenario.reporting [TDone; TDone; TAbort; TAbort]
        (initial Scenario.answered_405) = Some s
    /\ step_abort s = None
    /\ mutex s = Some TDone
    /\ exists s', step_done Scenario.reporting s = Some s'.
Proof.
  destruct (run Scenario.reporting [TDone; TDone; TAbort; TAbort]
              (initial Scenario.answered_405)) as [s|] eqn:Hrun;
    [|vm_compute in Hrun; discriminate Hrun].
  exists s. split; [reflexivity|].
  assert (Hblocked : step_abort s = None)
    by (vm_compute in Hrun; inversion Hrun; reflexivity).
  split; [exact Hblocked|].
  destruct (no_deadlock_between_Abort_and_completion
              Scenario.reporting Scenario.answered_405 s
              (run_reachable _ _ _ _ Hrun))
    as (_ & Habort & _).
  destruct (Habort Hblocked) as (_ & Hm & Hmoves).
  split; [exact Hm | exact Hmoves].
Defined.

(** The interleaving in which the fallback exchange is created while
    [Abort] runs: the callback is left to the fallback exchange and
    fires once when that ends. *)
Lemma callback_fires_once_under_Abort_witness :
  exists s,
    run Scenario.reporting
        [TDone; TDone; TDone; TAbort; TDone; TDone; TDone;
         TAbort; TAbort; TAbort; TAbort]
        (initial Scenario.answered_405) = Some s
    /\ pc_done s = B_end
    /\ done_calls (object s) = 0%nat
    /\ done_calls (fallback_completes Scenario.reporting (object s))
       = 1%nat.
Proof.
  destruct (run Scenario.reporting
              [TDone; TDone; TDone; TAbort; TDone; TDone; TDone;
               TAbort; TAbort; TAbort; TAbort]
              (initial Scenario.answered_405)) as [s|] eqn:Hrun;
    [|vm_compute in Hrun; discriminate Hrun].
  exists s. split; [reflexivity|].
  assert (Hend : pc_done s = B_end)
    by (vm_compute in Hrun; inversion Hrun; reflexivity).
  assert (Hd : done_calls (object s) = 0%nat)
    by (vm_compute in Hrun; inversion Hrun; reflexivity).
  split; [exact Hend|]. split; [exact Hd|].
  destruct (callback_fires_once_under_Abort
              Scenario.reporting Scenario.answered_405 s eq_refl
              (run_reachable _ _ _ _ Hrun))
    as (_ & Hfires & _).
  exact (Hfires Hend).
Defined.

End FurtherWitnesses.
